(** * Kompass-App: offline-first synchronisation and resilience subsystem

    A shallow embedding of the TypeScript services of the repository

    - [src/services/encryptionService.ts]   (EncryptionService)
    - [src/services/dataService.ts]         (SupabaseStorageBackend,
                                             LocalStorageBackend,
                                             HybridDataService)
    - [src/services/errorHandlingService.ts] (ErrorHandlingService)
    - [src/services/syncService.ts]         (SyncService)

    Asynchronous methods are embedded as computations in a state-and-exception
    monad over one [World]: every [await] is a sequencing point, a rejected
    promise is a thrown [JsError], [try]/[catch] is [try_catch].  The
    JavaScript built-ins ([JSON.stringify], [JSON.parse], [btoa], [atob],
    [Date]) and the clock are the boundary of the embedding.  Behind the
    Supabase client the [World] holds the tables the services name, as lists
    of rows, with the defaults of [database/schema.sql]; what the database
    or the browser's storage may refuse is scripted, request by request.
    A loop that the source does not bound runs on fuel. *)

From Stdlib Require Import ZArith List Bool Lia.
From Stdlib Require Import Sorting.Sorted Sorting.Permutation.
From Stdlib Require Import Strings.String Strings.Ascii.
From stdpp Require Import base gmap strings list pretty.

Open Scope string_scope.
Open Scope list_scope.
#[local] Set Warnings "-register-all".
#[local] Set Default Proof Using "Type".

(* ===================================================================== *)
(** ** JavaScript values, errors and string helpers                       *)
(* ===================================================================== *)

(** A JavaScript string is held as the list of its code units, each of
    them up to 0xFF (one [ascii]): the strings [btoa] accepts.

    A JSON-serialisable JavaScript value.  [JNull] also stands for
    [undefined] where the source tests [=== null], [??] or falsiness.
    Numbers are the integral ones. *)
Inductive JSON : Type :=
| JNull
| JBool (b : bool)
| JNum (n : Z)
| JStr (s : string)
| JArr (items : list JSON)
| JObj (fields : list (string * JSON)).

(** A thrown value.  [error_name] is the [name] of an instance of [Error]
    (['Error'], ['TypeError']); it is [None] for the plain error objects
    Supabase hands back, which are thrown as they are ([throw error]). *)
Record JsError : Type := mkJsError {
  error_name : option string;
  message : string
}.

(** [error instanceof Error] *)
Definition is_Error (e : JsError) : bool :=
  match error_name e with Some _ => true | None => false end.

Definition new_Error (msg : string) : JsError := mkJsError (Some "Error") msg.

(** What the engine throws for a call or a property access that is not
    possible. *)
Definition new_TypeError (msg : string) : JsError :=
  mkJsError (Some "TypeError") msg.

(** [String(error)]: [Error.prototype.toString] for an instance of [Error],
    ['[object Object]'] for a plain object. *)
Definition String_of_error (e : JsError) : string :=
  match error_name e with
  | Some n => if String.eqb (message e) "" then n else n +:+ ": " +:+ message e
  | None => "[object Object]"
  end.

(** The result of awaiting a promise: fulfilled with a value or rejected. *)
Inductive Outcome (A : Type) : Type :=
| Ok (a : A)
| Throw (e : JsError).
Arguments Ok {A} a.
Arguments Throw {A} e.

(** [hay.includes(needle)] *)
Fixpoint includes (needle hay : string) : bool :=
  String.prefix needle hay ||
  match hay with
  | EmptyString => false
  | String _ rest => includes needle rest
  end.

(** White space and line terminators removed by [String.prototype.trim],
    among the code units up to 0xFF: U+0009 to U+000D, U+0020 and the
    no-break space U+00A0. *)
Definition is_white_space (c : ascii) : bool :=
  let n := nat_of_ascii c in
  (n =? 32)%nat || ((9 <=? n)%nat && (n <=? 13)%nat) || (n =? 160)%nat.

(** [s.trim() === ''] *)
Fixpoint trim_is_empty (s : string) : bool :=
  match s with
  | EmptyString => true
  | String c rest => is_white_space c && trim_is_empty rest
  end.

(** [!v] : JavaScript falsiness of a value. *)
Definition falsy (v : JSON) : bool :=
  match v with
  | JNull => true
  | JBool b => negb b
  | JNum n => (n =? 0)%Z
  | JStr s => String.eqb s ""
  | JArr _ | JObj _ => false
  end.

(** [Array.isArray(v)] *)
Definition isArray (v : JSON) : bool :=
  match v with JArr _ => true | _ => false end.

Definition is_null (v : JSON) : bool :=
  match v with JNull => true | _ => false end.

(** The SameValueZero comparison that [Set] uses.  Primitives compare by
    value; arrays and objects compare by reference, and the values held
    here (read back from a store, or literals of a default list) are
    distinct objects. *)
Definition sameValueZero (a b : JSON) : bool :=
  match a, b with
  | JNull, JNull => true
  | JBool x, JBool y => Bool.eqb x y
  | JNum x, JNum y => (x =? y)%Z
  | JStr x, JStr y => String.eqb x y
  | _, _ => false
  end.

Definition is_primitive (v : JSON) : bool :=
  match v with
  | JArr _ | JObj _ => false
  | _ => true
  end.

(** [Array.from(new Set(xs))]: insertion order, first occurrence kept. *)
Fixpoint Set_insert_all (seen xs : list JSON) : list JSON :=
  match xs with
  | [] => seen
  | x :: rest =>
      if existsb (sameValueZero x) seen
      then Set_insert_all seen rest
      else Set_insert_all (seen ++ [x]) rest
  end.

Definition Array_from_Set (xs : list JSON) : list JSON := Set_insert_all [] xs.

(** [s.substring(n)] *)
Fixpoint substring_from (n : nat) (s : string) : string :=
  match n, s with
  | O, _ => s
  | S n', String _ rest => substring_from n' rest
  | S _, EmptyString => EmptyString
  end.

Definition all_chars (p : ascii -> bool) (s : string) : bool :=
  forallb p (list_ascii_of_string s).

Definition in_range (lo hi : nat) (c : ascii) : bool :=
  let n := nat_of_ascii c in (lo <=? n)%nat && (n <=? hi)%nat.

(** the character class [[0-9a-fA-F]] *)
Definition is_hex_digit (c : ascii) : bool :=
  in_range 48 57 c || in_range 97 102 c || in_range 65 70 c.

(** the character class [[A-Za-z0-9+/=]] *)
Definition is_base64_char (c : ascii) : bool :=
  in_range 65 90 c || in_range 97 122 c || in_range 48 57 c ||
  (nat_of_ascii c =? 43)%nat || (nat_of_ascii c =? 47)%nat ||
  (nat_of_ascii c =? 61)%nat.

(** [s.replace(pat, rep)] with a string pattern: the first occurrence. *)
Fixpoint replace_first (pat rep s : string) : string :=
  if String.prefix pat s then rep +:+ substring_from (String.length pat) s
  else match s with
       | EmptyString => EmptyString
       | String c rest => String c (replace_first pat rep rest)
       end.

(** A JavaScript [Map] with string keys: insertion ordered, [set] on a
    present key keeps its place. *)
Definition Map_has {V : Type} (k : string) (m : list (string * V)) : bool :=
  existsb (fun p => String.eqb (fst p) k) m.

Definition Map_set {V : Type} (k : string) (v : V) (m : list (string * V))
  : list (string * V) :=
  if Map_has k m
  then List.map (fun p => if String.eqb (fst p) k then (k, v) else p) m
  else m ++ [(k, v)].

Definition Map_delete {V : Type} (k : string) (m : list (string * V))
  : list (string * V) :=
  List.filter (fun p => negb (String.eqb (fst p) k)) m.

(** [m.get(k)] on a [Map]. *)
Definition Map_get {V : Type} (k : string) (m : list (string * V)) : option V :=
  match List.find (fun p => String.eqb (fst p) k) m with
  | Some p => Some (snd p)
  | None => None
  end.

(** [s.toLowerCase()]: the letters A-Z and, among the code units up to
    0xFF, U+00C0 to U+00DE without the multiplication sign U+00D7. *)
Definition lower_char (c : ascii) : ascii :=
  if in_range 65 90 c
     || (in_range 192 222 c && negb (nat_of_ascii c =? 215)%nat)
  then ascii_of_nat (nat_of_ascii c + 32) else c.

Fixpoint toLowerCase (s : string) : string :=
  match s with
  | EmptyString => EmptyString
  | String c rest => String (lower_char c) (toLowerCase rest)
  end.

(** [s.substring(0, n)] *)
Fixpoint substring_to (n : nat) (s : string) : string :=
  match n, s with
  | O, _ => EmptyString
  | S _, EmptyString => EmptyString
  | S n', String c rest => String c (substring_to n' rest)
  end.

(** [typeof v], for the values that are not [null]. *)
Definition typeof (v : JSON) : string :=
  match v with
  | JNull => "object"
  | JBool _ => "boolean"
  | JNum _ => "number"
  | JStr _ => "string"
  | JArr _ | JObj _ => "object"
  end.

(** [xs.join(sep)] *)
Fixpoint join (sep : string) (l : list string) : string :=
  match l with
  | [] => ""
  | [x] => x
  | x :: rest => x +:+ sep +:+ join sep rest
  end.

(** [String(v)], which is also the property key [obj[v]] goes by. *)
Fixpoint String_of (v : JSON) : string :=
  match v with
  | JNull => "null"
  | JBool true => "true"
  | JBool false => "false"
  | JNum n => pretty n
  | JStr s => s
  | JArr items =>
      join "," (List.map (fun x => match x with
                                   | JNull => ""
                                   | _ => String_of x
                                   end) items)
  | JObj _ => "[object Object]"
  end.

(** A property key that is an array index: the canonical decimal form of
    a number below 2^32 - 1. *)
Definition array_index (k : string) : option N :=
  match k with
  | EmptyString => None
  | String c rest =>
      if all_chars (in_range 48 57) k
         && (String.eqb rest "" || negb (Ascii.eqb c "0"))
      then
        let n := List.fold_left
                   (fun acc d => (10 * acc + N.of_nat (nat_of_ascii d - 48))%N)
                   (list_ascii_of_string k) 0%N in
        if (n <? 4294967295)%N then Some n else None
      else None
  end.

(** The own properties of an object are kept in the order [Object.keys],
    the spread and [JSON.stringify] go through them: the array indices
    first, ascending, then the other keys in the order they were added. *)
Fixpoint insert_index (i : N) (k : string) (v : JSON)
    (fields : list (string * JSON)) : list (string * JSON) :=
  match fields with
  | [] => [(k, v)]
  | (k', v') :: rest =>
      match array_index k' with
      | Some j => if (j <? i)%N then (k', v') :: insert_index i k v rest
                  else (k, v) :: fields
      | None => (k, v) :: fields
      end
  end.

(** [obj[k] = v] *)
Definition object_set (k : string) (v : JSON) (fields : list (string * JSON))
  : list (string * JSON) :=
  if Map_has k fields
  then List.map (fun p => if String.eqb (fst p) k then (k, v) else p) fields
  else match array_index k with
       | Some i => insert_index i k v fields
       | None => fields ++ [(k, v)]
       end.

(** What [{ ...v }] and [Object.entries(v)] take from a value: the fields
    of an object, the items of an array and the characters of a string
    under their indices, nothing from [null], a number or a boolean. *)
Definition own_properties (v : JSON) : list (string * JSON) :=
  match v with
  | JObj fields => fields
  | JArr items => imap (fun i x => (pretty i, x)) items
  | JStr s =>
      imap (fun i c => (pretty i, JStr (String c EmptyString)))
           (list_ascii_of_string s)
  | _ => []
  end.

(** [v.k] for a value that is not [null] and a key that is neither an array
    index nor ['length']: [None] is [undefined]. *)
Definition property (k : string) (v : JSON) : option JSON :=
  match v with
  | JObj fields => Map_get k fields
  | _ => None
  end.

(** [typeof x === 'string' ? x : d] *)
Definition string_or (d : string) (x : option JSON) : JSON :=
  match x with
  | Some (JStr s) => JStr s
  | _ => JStr d
  end.

(** [l.slice(start, end)] for integral bounds; a negative bound counts
    from the end of the array. *)
Definition Array_slice {A : Type} (start stop : Z) (l : list A) : list A :=
  let len := Z.of_nat (List.length l) in
  let clamp := fun i => if (i <? 0)%Z then Z.max (len + i) 0 else Z.min i len in
  firstn (Z.to_nat (clamp stop - clamp start)) (skipn (Z.to_nat (clamp start)) l).

(** A stable sort by a numeric key, ascending: [xs.sort((a, b) => k(a) - k(b))]
    and the database's [order(column, { ascending: true })].  Elements with
    equal keys keep the order they had: [insert_by] puts [x], which came
    before the elements of [l], in front of the first one whose key is not
    smaller. *)
Fixpoint insert_by {A : Type} (k : A -> Z) (x : A) (l : list A) : list A :=
  match l with
  | [] => [x]
  | y :: rest => if (k x <=? k y)%Z then x :: y :: rest
                 else y :: insert_by k x rest
  end.

Definition sort_by {A : Type} (k : A -> Z) (l : list A) : list A :=
  List.fold_right (insert_by k) [] l.

(* ===================================================================== *)
(** ** Asynchronous code as a state-and-exception monad                   *)
(* ===================================================================== *)

Definition M (S A : Type) : Type := S -> Outcome A * S.

Definition ret {S A : Type} (a : A) : M S A := fun w => (Ok a, w).

Definition throw {S A : Type} (e : JsError) : M S A := fun w => (Throw e, w).

Definition bind {S A B : Type} (m : M S A) (k : A -> M S B) : M S B :=
  fun w =>
    match m w with
    | (Ok a, w') => k a w'
    | (Throw e, w') => (Throw e, w')
    end.

(** [try { m } catch (error) { h error }] *)
Definition try_catch {S A : Type} (m : M S A) (h : JsError -> M S A) : M S A :=
  fun w =>
    match m w with
    | (Ok a, w') => (Ok a, w')
    | (Throw e, w') => h e w'
    end.

Definition gets {S A : Type} (f : S -> A) : M S A := fun w => (Ok (f w), w).

Definition modify {S : Type} (f : S -> S) : M S unit := fun w => (Ok tt, f w).

(** [for (const x of xs) { body x }] *)
Fixpoint for_each {S A : Type} (xs : list A) (body : A -> M S unit) : M S unit :=
  match xs with
  | [] => ret tt
  | x :: rest => bind (body x) (fun _ => for_each rest body)
  end.

(** Awaiting a promise whose outcome does not depend on the state. *)
Definition lift {S A : Type} (o : Outcome A) : M S A := fun w => (o, w).

(** [await Promise.all(xs.map(async x => f x))] for callbacks that leave
    the state alone: the results in the order of [xs], or what the first
    callback that fails throws. *)
Fixpoint for_all {A B : Type} (f : A -> Outcome B) (xs : list A)
  : Outcome (list B) :=
  match xs with
  | [] => Ok []
  | x :: rest =>
      match f x, for_all f rest with
      | Throw e, _ => Throw e
      | Ok _, Throw e => Throw e
      | Ok y, Ok ys => Ok (y :: ys)
      end
  end.

Notation "'let!' x ':=' m 'in' k" := (bind m (fun x => k))
  (at level 10, x name, m at level 100, k at level 200).
Notation "m '>>' k" := (bind m (fun _ => k))
  (at level 100, k at level 200, right associativity).

(* ===================================================================== *)
(** ** Concrete built-ins                                                 *)
(* ===================================================================== *)

(** Executable stand-ins for the JavaScript built-ins the embedding is
    parameterised by, used to run it on concrete inputs: compact JSON text
    (integral numbers; the escapes of the quote and the backslash), Base64,
    and the ISO 8601 form that [toISOString] prints. *)
Module Sample.

Definition quote : ascii := "034"%char.
Definition backslash : ascii := "092"%char.

Fixpoint escape (s : string) : string :=
  match s with
  | EmptyString => EmptyString
  | String c rest =>
      if Ascii.eqb c quote || Ascii.eqb c backslash
      then String backslash (String c (escape rest))
      else String c (escape rest)
  end.

Definition quoted (s : string) : string :=
  String quote (escape s +:+ String quote EmptyString).

Fixpoint JSON_stringify (v : JSON) : string :=
  match v with
  | JNull => "null"
  | JBool true => "true"
  | JBool false => "false"
  | JNum n => pretty n
  | JStr s => quoted s
  | JArr items => "[" +:+ join "," (List.map JSON_stringify items) +:+ "]"
  | JObj fields =>
      "{" +:+ join "," (List.map (fun kv => quoted (fst kv) +:+ ":"
                                            +:+ JSON_stringify (snd kv)) fields)
      +:+ "}"
  end.

Definition SyntaxError : JsError := new_Error "Unexpected token in JSON".

Definition is_digit (c : ascii) : bool := in_range 48 57 c.

Definition digit_value (c : ascii) : Z := Z.of_nat (nat_of_ascii c) - 48.

Fixpoint parse_digits (acc : Z) (s : list ascii) : Z * list ascii :=
  match s with
  | c :: rest =>
      if is_digit c then parse_digits (10 * acc + digit_value c)%Z rest
      else (acc, s)
  | [] => (acc, s)
  end.

(** The characters of a string literal after its opening quote. *)
Fixpoint parse_string_body (s : list ascii) : option (string * list ascii) :=
  match s with
  | [] => None
  | c :: rest =>
      if Ascii.eqb c quote then Some (EmptyString, rest)
      else if Ascii.eqb c backslash then
        match rest with
        | c' :: rest' =>
            match parse_string_body rest' with
            | Some (str, tail) => Some (String c' str, tail)
            | None => None
            end
        | [] => None
        end
      else
        match parse_string_body rest with
        | Some (str, tail) => Some (String c str, tail)
        | None => None
        end
  end.

Definition keyword (p : string) (v : JSON) (s : list ascii)
  : option (JSON * list ascii) :=
  if String.prefix p (string_of_list_ascii s)
  then Some (v, skipn (String.length p) s)
  else None.

(** A value, the items of an array after its bracket, or the members of an
    object after its brace. *)
Inductive Production : Type := Value | Items | Members.

Inductive Parsed : Type :=
| PValue (v : JSON)
| PItems (items : list JSON)
| PMembers (fields : list (string * JSON)).

Fixpoint parse (fuel : nat) (what : Production) (s : list ascii)
  : option (Parsed * list ascii) :=
  match fuel with
  | O => None
  | S fuel' =>
      match what with
      | Value =>
          match s with
          | [] => None
          | c :: rest =>
              if Ascii.eqb c "n" then
                match keyword "null" JNull s with
                | Some (v, t) => Some (PValue v, t) | None => None end
              else if Ascii.eqb c "t" then
                match keyword "true" (JBool true) s with
                | Some (v, t) => Some (PValue v, t) | None => None end
              else if Ascii.eqb c "f" then
                match keyword "false" (JBool false) s with
                | Some (v, t) => Some (PValue v, t) | None => None end
              else if Ascii.eqb c "-" then
                match rest with
                | d :: _ =>
                    if is_digit d
                    then let (n, t) := parse_digits 0 rest in
                         Some (PValue (JNum (- n)), t)
                    else None
                | [] => None
                end
              else if is_digit c then
                let (n, t) := parse_digits 0 s in Some (PValue (JNum n), t)
              else if Ascii.eqb c quote then
                match parse_string_body rest with
                | Some (str, t) => Some (PValue (JStr str), t)
                | None => None
                end
              else if Ascii.eqb c "[" then
                match rest with
                | "]"%char :: t => Some (PValue (JArr []), t)
                | _ => match parse fuel' Items rest with
                       | Some (PItems items, t) => Some (PValue (JArr items), t)
                       | _ => None
                       end
                end
              else if Ascii.eqb c "{" then
                match rest with
                | "}"%char :: t => Some (PValue (JObj []), t)
                | _ => match parse fuel' Members rest with
                       | Some (PMembers fields, t) => Some (PValue (JObj fields), t)
                       | _ => None
                       end
                end
              else None
          end
      | Items =>
          match parse fuel' Value s with
          | Some (PValue v, ","%char :: t) =>
              match parse fuel' Items t with
              | Some (PItems vs, t') => Some (PItems (v :: vs), t')
              | _ => None
              end
          | Some (PValue v, "]"%char :: t) => Some (PItems [v], t)
          | _ => None
          end
      | Members =>
          match s with
          | q :: rest =>
              if Ascii.eqb q quote then
                match parse_string_body rest with
                | Some (k, ":"%char :: t) =>
                    match parse fuel' Value t with
                    | Some (PValue v, ","%char :: t') =>
                        match parse fuel' Members t' with
                        | Some (PMembers kvs, t'') =>
                            Some (PMembers ((k, v) :: kvs), t'')
                        | _ => None
                        end
                    | Some (PValue v, "}"%char :: t') =>
                        Some (PMembers [(k, v)], t')
                    | _ => None
                    end
                | _ => None
                end
              else None
          | [] => None
          end
      end
  end.

Definition JSON_parse (s : string) : Outcome JSON :=
  match parse (S (String.length s)) Value (list_ascii_of_string s) with
  | Some (PValue v, []) => Ok v
  | _ => Throw SyntaxError
  end.

Definition sextet_char (n : Z) : ascii :=
  ascii_of_nat (Z.to_nat
    (if (n <? 26)%Z then n + 65
     else if (n <? 52)%Z then n - 26 + 97
     else if (n <? 62)%Z then n - 52 + 48
     else if (n =? 62)%Z then 43 else 47)%Z).

Definition char_sextet (c : ascii) : option Z :=
  let n := Z.of_nat (nat_of_ascii c) in
  if in_range 65 90 c then Some (n - 65)%Z
  else if in_range 97 122 c then Some (n - 97 + 26)%Z
  else if in_range 48 57 c then Some (n - 48 + 52)%Z
  else if (n =? 43)%Z then Some 62%Z
  else if (n =? 47)%Z then Some 63%Z
  else None.

Definition byte_of (c : ascii) : Z := Z.of_nat (nat_of_ascii c).
Definition char_of (n : Z) : ascii := ascii_of_nat (Z.to_nat n).

Fixpoint encode_bytes (l : list ascii) : string :=
  match l with
  | a :: b :: c :: rest =>
      let n := (byte_of a * 65536 + byte_of b * 256 + byte_of c)%Z in
      String (sextet_char (n / 262144))
        (String (sextet_char ((n / 4096) mod 64))
           (String (sextet_char ((n / 64) mod 64))
              (String (sextet_char (n mod 64)) (encode_bytes rest))))
  | [a; b] =>
      let n := (byte_of a * 65536 + byte_of b * 256)%Z in
      String (sextet_char (n / 262144))
        (String (sextet_char ((n / 4096) mod 64))
           (String (sextet_char ((n / 64) mod 64)) "="))
  | [a] =>
      let n := (byte_of a * 65536)%Z in
      String (sextet_char (n / 262144))
        (String (sextet_char ((n / 4096) mod 64)) "==")
  | [] => ""
  end.

(** Every character of a Rocq string is one byte, so this [btoa] accepts
    all of them. *)
Definition btoa (s : string) : Outcome string :=
  Ok (encode_bytes (list_ascii_of_string s)).

Definition InvalidCharacterError : JsError :=
  new_Error "The string to be decoded is not correctly encoded.".

Fixpoint decode_chars (l : list ascii) : option string :=
  match l with
  | [] => Some ""
  | a :: b :: c :: d :: rest =>
      match char_sextet a, char_sextet b with
      | Some x, Some y =>
          let b1 := char_of (x * 4 + y / 16) in
          if Ascii.eqb c "=" && Ascii.eqb d "=" then
            match rest with [] => Some (String b1 "") | _ => None end
          else
            match char_sextet c with
            | Some z =>
                let b2 := char_of ((y mod 16) * 16 + z / 4) in
                if Ascii.eqb d "=" then
                  match rest with
                  | [] => Some (String b1 (String b2 ""))
                  | _ => None
                  end
                else
                  match char_sextet d, decode_chars rest with
                  | Some w, Some tail =>
                      Some (String b1 (String b2
                              (String (char_of ((z mod 4) * 64 + w)) tail)))
                  | _, _ => None
                  end
            | None => None
            end
      | _, _ => None
      end
  | _ => None
  end.

Definition atob (s : string) : Outcome string :=
  match decode_chars (list_ascii_of_string s) with
  | Some decoded => Ok decoded
  | None => Throw InvalidCharacterError
  end.

Fixpoint number_of (acc : Z) (s : list ascii) : option Z :=
  match s with
  | [] => Some acc
  | c :: rest =>
      if is_digit c then number_of (10 * acc + digit_value c)%Z rest else None
  end.

Definition field (start len : nat) (s : list ascii) : option Z :=
  let part := firstn len (skipn start s) in
  if (List.length part =? len)%nat then number_of 0 part else None.

Definition char_at (i : nat) (c : ascii) (s : list ascii) : bool :=
  match nth_error s i with
  | Some c' => Ascii.eqb c c'
  | None => false
  end.

Definition days_from_civil (y m d : Z) : Z :=
  let y' := (if m <=? 2 then y - 1 else y)%Z in
  let era := (y' / 400)%Z in
  let yoe := (y' - era * 400)%Z in
  let doy := ((153 * (m + (if 2 <? m then -3 else 9)) + 2) / 5 + d - 1)%Z in
  let doe := (yoe * 365 + yoe / 4 - yoe / 100 + doy)%Z in
  (era * 146097 + doe - 719468)%Z.

(** [new Date(s).getTime()] for [s] of the form [YYYY-MM-DDTHH:mm:ss.sssZ]. *)
Definition Date_getTime (str : string) : option Z :=
  let s := list_ascii_of_string str in
  if (List.length s =? 24)%nat
     && char_at 4 "-" s && char_at 7 "-" s && char_at 10 "T" s
     && char_at 13 ":" s && char_at 16 ":" s && char_at 19 "." s
     && char_at 23 "Z" s
  then
    match field 0 4 s, field 5 2 s, field 8 2 s,
          field 11 2 s, field 14 2 s, field 17 2 s, field 20 3 s with
    | Some y, Some mo, Some d, Some h, Some mi, Some sec, Some ms =>
        Some ((((days_from_civil y mo d * 24 + h) * 60 + mi) * 60 + sec) * 1000
              + ms)%Z
    | _, _, _, _, _, _, _ => None
    end
  else None.

End Sample.

(* ===================================================================== *)
(** ** The embedding                                                      *)
(* ===================================================================== *)

Section Kompass.

(** *** JavaScript built-ins at the boundary

    [JSON.stringify] on a JSON value, [JSON.parse] (throws a [SyntaxError]),
    [btoa] (throws on a code unit above 0xFF), [atob] (throws on malformed
    input) and [new Date(s).getTime()] ([None] is [NaN], an invalid date). *)
Variable JSON_stringify : JSON -> string.
Variable JSON_parse : string -> Outcome JSON.
Variable btoa : string -> Outcome string.
Variable atob : string -> Outcome string.
Variable Date_getTime : string -> option Z.

(* --------------------------------------------------------------------- *)
(** *** encryptionService.ts                                              *)
(* --------------------------------------------------------------------- *)

(** What [supabase.rpc(...)] resolves to: [{ data, error }]. *)
Inductive RpcResult : Type :=
| RpcData (data : string)
| RpcError (msg : string).

(** The fields of the EncryptionService instance and the remote procedures
    it coordinates with. *)
Record EncryptionService : Type := {
  currentSession : option string;
  env_MODE : string;
  rpc_encrypt_data : string -> string -> Outcome RpcResult;
  rpc_decrypt_data : string -> string -> Outcome RpcResult
}.

Inductive DataFormat : Type :=
| pgcrypto_base64 | binary | base64 | json | fallback | unknown.

Definition isAuthenticated (svc : EncryptionService) : bool :=
  match currentSession svc with Some _ => true | None => false end.

Definition detectDataFormat (data : string) : DataFormat :=
  if String.eqb data "" then unknown
  else if String.prefix "fallback:" data then fallback
  else if String.prefix "\x" data
          && negb (String.eqb (substring_from 2 data) "")
          && all_chars is_hex_digit (substring_from 2 data) then binary
  else if String.prefix "ww0ECQMC" data && (20 <? String.length data)%nat
       then pgcrypto_base64
  else if String.prefix "ww0" data && (40 <? String.length data)%nat
       then pgcrypto_base64
  else
    let isBase64Like := all_chars is_base64_char data in
    let len := String.length data in
    if isBase64Like && (20 <? len)%nat
       && (includes "ECQMC" data || (40 <? len)%nat)
    then pgcrypto_base64
    else if isBase64Like && (20 <? len)%nat && (len mod 4 =? 0)%nat
    then base64
    else match JSON_parse data with
         | Ok _ => json
         | Throw _ => unknown
         end.

(** [createSafeFallback('object')] *)
Definition createSafeFallback_object : JSON := JObj [].

(** [validateHealthcareData] only logs; it hands its argument back. *)
Definition validateHealthcareData (data : JSON) : JSON := data.

Definition validateDecryptedData (data : JSON) : JSON := data.

Definition generateUserEncryptionKey (svc : EncryptionService) (userId : string)
  : string :=
  "healthcare_key_" +:+ userId +:+ "_" +:+
  (if String.eqb (env_MODE svc) "" then "development" else env_MODE svc).

(** [`fallback:${BufferPolyfill.from(jsonData).toString('base64')}`] *)
Definition fallback_encoding (jsonData : string) : Outcome string :=
  match btoa jsonData with
  | Ok b => Ok ("fallback:" +:+ b)
  | Throw e => Throw e
  end.

Definition encrypt (svc : EncryptionService) (data : JSON) (userId : string)
  : Outcome string :=
  if is_null data then
    Throw (new_Error "Cannot encrypt null or undefined data")
  else
    let validatedData := validateHealthcareData data in
    let jsonData := JSON_stringify validatedData in
    if negb (isAuthenticated svc) then fallback_encoding jsonData
    else
      match rpc_encrypt_data svc jsonData (generateUserEncryptionKey svc userId) with
      | Ok (RpcData encryptedData) => Ok encryptedData
      | Ok (RpcError _) =>
          match fallback_encoding jsonData with
          | Ok s => Ok s
          | Throw _ => fallback_encoding jsonData
          end
      | Throw _ => fallback_encoding jsonData
      end.

(** The body of the [try] block of [decrypt]. *)
Definition decrypt_try (svc : EncryptionService) (format : DataFormat)
    (data userId : string) : Outcome JSON :=
  match format with
  | fallback =>
      let encodedData := substring_from 9 data in
      match atob encodedData with
      | Throw e => Throw e
      | Ok decodedData =>
          match JSON_parse decodedData with
          | Throw e => Throw e
          | Ok parsedData => Ok (validateDecryptedData parsedData)
          end
      end
  | pgcrypto_base64 | binary =>
      if negb (isAuthenticated svc) then
        Throw (new_Error "User must be authenticated for server-side decryption")
      else
        match rpc_decrypt_data svc data (generateUserEncryptionKey svc userId) with
        | Throw e => Throw e
        | Ok (RpcData decryptedData) =>
            if String.eqb decryptedData "" then
              Throw (new_Error "Server-side decryption failed: Unknown error")
            else
              match JSON_parse decryptedData with
              | Throw e => Throw e
              | Ok parsedData => Ok (validateDecryptedData parsedData)
              end
        | Ok (RpcError msg) =>
            Throw (new_Error ("Server-side decryption failed: " +:+
                              (if String.eqb msg "" then "Unknown error" else msg)))
        end
  | json =>
      match JSON_parse data with
      | Throw e => Throw e
      | Ok parsedData => Ok (validateDecryptedData parsedData)
      end
  | base64 =>
      match atob data with
      | Throw _ => Ok createSafeFallback_object
      | Ok decodedData =>
          match JSON_parse decodedData with
          | Throw _ => Ok createSafeFallback_object
          | Ok parsedData => Ok (validateDecryptedData parsedData)
          end
      end
  | unknown => Ok createSafeFallback_object
  end.

Definition decrypt (svc : EncryptionService) (data userId : string)
  : Outcome JSON :=
  if String.eqb data "" then
    Throw (new_Error "Invalid data for decryption: data must be a non-empty string")
  else
    let format := detectDataFormat data in
    match decrypt_try svc format data userId with
    | Ok v => Ok v
    | Throw error =>
        if is_Error error
           && (includes "user_id" (message error) || includes "auth" (message error))
        then Throw error
        else Ok createSafeFallback_object
    end.

(* --------------------------------------------------------------------- *)
(** *** encryptionService.ts: field encryption                             *)
(* --------------------------------------------------------------------- *)

(** [validateHealthcareField] only logs. *)
Definition encryptField (svc : EncryptionService) (value : JSON)
    (userId : string) : Outcome string :=
  match value with
  | JStr str =>
      if String.eqb str "" then
        Throw (new_Error "Field value must be a non-empty string")
      else if negb (isAuthenticated svc) then fallback_encoding str
      else
        match rpc_encrypt_data svc str (generateUserEncryptionKey svc userId) with
        | Ok (RpcData encryptedData) => Ok encryptedData
        | Ok (RpcError _) =>
            match fallback_encoding str with
            | Ok s => Ok s
            | Throw _ => fallback_encoding str
            end
        | Throw _ => fallback_encoding str
        end
  | _ => Throw (new_Error "Field value must be a non-empty string")
  end.

(** The body of the [try] block of [decryptField]. *)
Definition decryptField_try (svc : EncryptionService) (format : DataFormat)
    (encryptedValue userId : string) : Outcome string :=
  match format with
  | fallback => atob (substring_from 9 encryptedValue)
  | pgcrypto_base64 | binary =>
      if negb (isAuthenticated svc) then Ok ""
      else
        match rpc_decrypt_data svc encryptedValue
                (generateUserEncryptionKey svc userId) with
        | Throw e => Throw e
        | Ok (RpcData decryptedData) => Ok decryptedData
        | Ok (RpcError _) => Ok ""
        end
  | base64 =>
      match atob encryptedValue with
      | Ok decoded => Ok decoded
      | Throw _ => Ok encryptedValue
      end
  | json | unknown => Ok encryptedValue
  end.

Definition decryptField (svc : EncryptionService) (encryptedValue : JSON)
    (userId : string) : Outcome string :=
  match encryptedValue with
  | JStr str =>
      if String.eqb str "" then Ok ""
      else
        match decryptField_try svc (detectDataFormat str) str userId with
        | Ok s => Ok s
        | Throw _ => Ok str
        end
  | _ => Ok ""
  end.

(* --------------------------------------------------------------------- *)
(** *** dataService.ts: SupabaseStorageBackend.decryptData                 *)
(* --------------------------------------------------------------------- *)

Definition decryptData (svc : EncryptionService) (encryptedData : JSON)
    (userId : string) : Outcome JSON :=
  match encryptedData with
  | JNull => Ok JNull
  | JStr str =>
      match decrypt svc str userId with
      | Ok decrypted => Ok decrypted
      | Throw err =>
          if is_Error err
             && (includes "user_id" (message err)
                 || includes "auth" (message err))
          then Throw err
          else Ok JNull
      end
  | _ =>
      Throw (new_Error
        ("Invalid data type for decryption: expected encrypted string, got "
         +:+ typeof encryptedData))
  end.

(* --------------------------------------------------------------------- *)
(** *** The world the services run in                                     *)
(* --------------------------------------------------------------------- *)

(** syncService.ts: [SyncStatus], [SyncConflict], [SyncSettings]. *)
Inductive SyncStatus : Type :=
| idle | syncing | conflict | error | offline.

Inductive ConflictType : Type :=
| update | delete | concurrent_edit.

Record SyncConflict : Type := {
  sc_key : string;
  sc_table : string;
  localData : JSON;
  remoteData : JSON;
  localTimestamp : string;
  remoteTimestamp : string;
  conflictType : ConflictType
}.

Inductive ConflictResolution : Type :=
| local_wins | remote_wins | manual | latest_timestamp.

(** The numbers are the integral ones; nothing checks them. *)
Record SyncSettings : Type := {
  autoSync : bool;
  syncInterval : Z;
  conflictResolution : ConflictResolution;
  maxRetries_setting : Z;
  batchSize : Z;
  healthcareDataPriority : bool
}.

(** The fields of the SyncService instance. *)
Record SyncService : Type := {
  syncSettings : SyncSettings;
  syncStatus : SyncStatus;
  lastSyncTime : option string;
  sync_isOnline : bool;
  pendingConflicts : list (string * SyncConflict)
}.

(** A row of the [sync_status] table. *)
Record SyncStatusRow : Type := {
  ss_user_id : string;
  ss_table_name : string;
  ss_sync_status : string;
  ss_error_message : option string;
  last_sync_at : string
}.

(** A row of the [offline_changes_queue] table; [queued_at] is the instant
    the database orders by. *)
Record OfflineChange : Type := {
  oc_id : string;
  oc_user_id : string;
  table_name : string;
  operation : string;
  encrypted_data : string;
  queued_at : Z;
  processed : bool;
  processed_at : option string;
  error_message : option string
}.

(** An entry of [HybridDataService.syncQueue]. *)
Record QueuedWrite : Type := {
  qw_key : string;
  qw_data : JSON;
  qw_userId : string;
  qw_timestamp : string
}.

(** A row of one of the record tables, as the object the client hands
    back: column and value; a column that is NULL reads [null]. *)
Definition Row : Type := list (string * JSON).

(** What the services do to the stores and to their observers, in order.
    [EvRemoteRead], [EvRemoteWrite] and [EvRemoteDelete] mark the first
    request of a read, a write or a removal against the record tables. *)
Inductive Event : Type :=
| EvAudit (action table userId : string)
| EvRemoteRead (key userId : string)
| EvRemoteWrite (key : string) (data : JSON) (userId : string)
| EvRemoteDelete (key userId : string)
| EvSyncStatus (table userId status : string)
| EvLocalSet (key : string) (data : JSON)
| EvLocalRemove (key : string)
| EvQueueForSync (key : string) (data : JSON) (userId : string)
| EvNotify (status : SyncStatus)
| EvReplay (id : string)
| EvMarkProcessed (id : string)
| EvErrorMessage (id msg : string).

(** The JavaScript heap of the services together with everything behind
    the Supabase client and [localStorage].

    - [auth_session], [auth_user]: what [supabase.auth.getSession()] and
      [supabase.auth.getUser()] resolve to (the id of the session's user);
    - [encryptionService]: the singleton of encryptionService.ts;
    - [remote_records]: the Remote Record Store, the rows of each record
      table by the name of the table;
    - [sync_status], [offline_changes_queue]: the rows of these two tables;
    - [remote_faults], [status_faults], [queue_faults]: the outcome of the
      next requests against the record tables, the [sync_status] table and
      the [offline_changes_queue] table ([None], or an exhausted script:
      the request is accepted); [local_faults]: the same for the next
      [localStorage] writes;
    - [now]: [new Date().toISOString()];
    - [trace]: the events so far, oldest first. *)
Record World : Type := {
  auth_session : Outcome (option string);
  auth_user : Outcome (option string);
  now : string;
  encryptionService : EncryptionService;
  remote_records : gmap string (list Row);
  remote_faults : list (option JsError);
  sync_status : list SyncStatusRow;
  status_faults : list (option JsError);
  offline_changes_queue : list OfflineChange;
  queue_faults : list (option JsError);
  localStorage : gmap string JSON;
  local_faults : list (option JsError);
  isOnline : bool;
  syncQueue : list (string * QueuedWrite);
  syncService : SyncService;
  trace : list Event
}.

Definition set_remote_records (f : gmap string (list Row) -> gmap string (list Row))
    (w : World) : World :=
  {| auth_session := auth_session w; auth_user := auth_user w; now := now w;
     encryptionService := encryptionService w;
     remote_records := f (remote_records w);
     remote_faults := remote_faults w; sync_status := sync_status w;
     status_faults := status_faults w;
     offline_changes_queue := offline_changes_queue w;
     queue_faults := queue_faults w; localStorage := localStorage w;
     local_faults := local_faults w; isOnline := isOnline w;
     syncQueue := syncQueue w; syncService := syncService w;
     trace := trace w |}.

Definition set_remote_faults (f : list (option JsError) -> list (option JsError))
    (w : World) : World :=
  {| auth_session := auth_session w; auth_user := auth_user w; now := now w;
     encryptionService := encryptionService w;
     remote_records := remote_records w;
     remote_faults := f (remote_faults w); sync_status := sync_status w;
     status_faults := status_faults w;
     offline_changes_queue := offline_changes_queue w;
     queue_faults := queue_faults w; localStorage := localStorage w;
     local_faults := local_faults w; isOnline := isOnline w;
     syncQueue := syncQueue w; syncService := syncService w;
     trace := trace w |}.

Definition set_sync_status (f : list SyncStatusRow -> list SyncStatusRow)
    (w : World) : World :=
  {| auth_session := auth_session w; auth_user := auth_user w; now := now w;
     encryptionService := encryptionService w;
     remote_records := remote_records w; remote_faults := remote_faults w;
     sync_status := f (sync_status w); status_faults := status_faults w;
     offline_changes_queue := offline_changes_queue w;
     queue_faults := queue_faults w; localStorage := localStorage w;
     local_faults := local_faults w; isOnline := isOnline w;
     syncQueue := syncQueue w; syncService := syncService w;
     trace := trace w |}.

Definition set_status_faults (f : list (option JsError) -> list (option JsError))
    (w : World) : World :=
  {| auth_session := auth_session w; auth_user := auth_user w; now := now w;
     encryptionService := encryptionService w;
     remote_records := remote_records w; remote_faults := remote_faults w;
     sync_status := sync_status w; status_faults := f (status_faults w);
     offline_changes_queue := offline_changes_queue w;
     queue_faults := queue_faults w; localStorage := localStorage w;
     local_faults := local_faults w; isOnline := isOnline w;
     syncQueue := syncQueue w; syncService := syncService w;
     trace := trace w |}.

Definition set_offline_changes_queue (f : list OfflineChange -> list OfflineChange)
    (w : World) : World :=
  {| auth_session := auth_session w; auth_user := auth_user w; now := now w;
     encryptionService := encryptionService w;
     remote_records := remote_records w; remote_faults := remote_faults w;
     sync_status := sync_status w; status_faults := status_faults w;
     offline_changes_queue := f (offline_changes_queue w);
     queue_faults := queue_faults w; localStorage := localStorage w;
     local_faults := local_faults w; isOnline := isOnline w;
     syncQueue := syncQueue w; syncService := syncService w;
     trace := trace w |}.

Definition set_queue_faults (f : list (option JsError) -> list (option JsError))
    (w : World) : World :=
  {| auth_session := auth_session w; auth_user := auth_user w; now := now w;
     encryptionService := encryptionService w;
     remote_records := remote_records w; remote_faults := remote_faults w;
     sync_status := sync_status w; status_faults := status_faults w;
     offline_changes_queue := offline_changes_queue w;
     queue_faults := f (queue_faults w); localStorage := localStorage w;
     local_faults := local_faults w; isOnline := isOnline w;
     syncQueue := syncQueue w; syncService := syncService w;
     trace := trace w |}.

Definition set_localStorage (f : gmap string JSON -> gmap string JSON)
    (w : World) : World :=
  {| auth_session := auth_session w; auth_user := auth_user w; now := now w;
     encryptionService := encryptionService w;
     remote_records := remote_records w; remote_faults := remote_faults w;
     sync_status := sync_status w; status_faults := status_faults w;
     offline_changes_queue := offline_changes_queue w;
     queue_faults := queue_faults w; localStorage := f (localStorage w);
     local_faults := local_faults w; isOnline := isOnline w;
     syncQueue := syncQueue w; syncService := syncService w;
     trace := trace w |}.

Definition set_local_faults (f : list (option JsError) -> list (option JsError))
    (w : World) : World :=
  {| auth_session := auth_session w; auth_user := auth_user w; now := now w;
     encryptionService := encryptionService w;
     remote_records := remote_records w; remote_faults := remote_faults w;
     sync_status := sync_status w; status_faults := status_faults w;
     offline_changes_queue := offline_changes_queue w;
     queue_faults := queue_faults w; localStorage := localStorage w;
     local_faults := f (local_faults w); isOnline := isOnline w;
     syncQueue := syncQueue w; syncService := syncService w;
     trace := trace w |}.

Definition set_syncQueue (f : list (string * QueuedWrite) -> list (string * QueuedWrite))
    (w : World) : World :=
  {| auth_session := auth_session w; auth_user := auth_user w; now := now w;
     encryptionService := encryptionService w;
     remote_records := remote_records w; remote_faults := remote_faults w;
     sync_status := sync_status w; status_faults := status_faults w;
     offline_changes_queue := offline_changes_queue w;
     queue_faults := queue_faults w; localStorage := localStorage w;
     local_faults := local_faults w; isOnline := isOnline w;
     syncQueue := f (syncQueue w); syncService := syncService w;
     trace := trace w |}.

Definition set_sync (f : SyncService -> SyncService)
    (w : World) : World :=
  {| auth_session := auth_session w; auth_user := auth_user w; now := now w;
     encryptionService := encryptionService w;
     remote_records := remote_records w; remote_faults := remote_faults w;
     sync_status := sync_status w; status_faults := status_faults w;
     offline_changes_queue := offline_changes_queue w;
     queue_faults := queue_faults w; localStorage := localStorage w;
     local_faults := local_faults w; isOnline := isOnline w;
     syncQueue := syncQueue w; syncService := f (syncService w);
     trace := trace w |}.

Definition set_trace (f : list Event -> list Event)
    (w : World) : World :=
  {| auth_session := auth_session w; auth_user := auth_user w; now := now w;
     encryptionService := encryptionService w;
     remote_records := remote_records w; remote_faults := remote_faults w;
     sync_status := sync_status w; status_faults := status_faults w;
     offline_changes_queue := offline_changes_queue w;
     queue_faults := queue_faults w; localStorage := localStorage w;
     local_faults := local_faults w; isOnline := isOnline w;
     syncQueue := syncQueue w; syncService := syncService w;
     trace := f (trace w) |}.

(** Records an event at the end of the trace. *)
Definition emit (ev : Event) : M World unit :=
  modify (set_trace (fun t => t ++ [ev])).

(** [await supabase.auth.getSession()], as the id of the session's user. *)
Definition getSession : M World (option string) :=
  fun w => (auth_session w, w).

(** [await supabase.auth.getUser()], as the id of the user. *)
Definition getUser : M World (option string) :=
  fun w => (auth_user w, w).

(** The outcome of the next request against the record tables. *)
Definition next_remote_fault : M World (option JsError) :=
  fun w =>
    match remote_faults w with
    | [] => (Ok None, w)
    | f :: rest => (Ok f, set_remote_faults (fun _ => rest) w)
    end.

(** The outcome of the next request against the [sync_status] table. *)
Definition next_status_fault : M World (option JsError) :=
  fun w =>
    match status_faults w with
    | [] => (Ok None, w)
    | f :: rest => (Ok f, set_status_faults (fun _ => rest) w)
    end.

(** The outcome of the next request against the [offline_changes_queue]
    table. *)
Definition next_queue_fault : M World (option JsError) :=
  fun w =>
    match queue_faults w with
    | [] => (Ok None, w)
    | f :: rest => (Ok f, set_queue_faults (fun _ => rest) w)
    end.

(** The outcome of the next [localStorage] write. *)
Definition next_local_fault : M World (option JsError) :=
  fun w =>
    match local_faults w with
    | [] => (Ok None, w)
    | f :: rest => (Ok f, set_local_faults (fun _ => rest) w)
    end.

(* --------------------------------------------------------------------- *)
(** *** storageService (src/services/storageService.ts)                    *)
(* --------------------------------------------------------------------- *)

(** Modelled from the spec: storageService.ts is not among the sources; its
    callers use [get], [set] and [remove] on string keys.  The spec's Local
    Cache Store is a key-value persistence that is always there; [get] of a
    key that holds nothing is [null].  A write may still be refused by the
    browser, which [local_faults] scripts. *)
Definition storageService_get (key : string) : M World JSON :=
  gets (fun w => default JNull (localStorage w !! key)).

(** Modelled from the spec: see [storageService_get]. *)
Definition storageService_set (key : string) (data : JSON) : M World unit :=
  emit (EvLocalSet key data) >>
  let! fault := next_local_fault in
  match fault with
  | Some e => throw e
  | None => modify (set_localStorage (fun m => <[key := data]> m))
  end.

(** Modelled from the spec: see [storageService_get]. *)
Definition storageService_remove (key : string) : M World unit :=
  emit (EvLocalRemove key) >>
  modify (set_localStorage (fun m => base.delete key m)).

(* --------------------------------------------------------------------- *)
(** *** The Supabase client (src/utils/supabase.ts)                        *)
(* --------------------------------------------------------------------- *)

(** What a request resolves to, [{ data, error }]. *)
Inductive Response (A : Type) : Type :=
| Data (data : A)
| Error (e : JsError).
Arguments Data {A} data.
Arguments Error {A} e.

(** The error of [.single()] and [.maybeSingle()]. *)
Definition PGRST116 : JsError :=
  mkJsError None "JSON object requested, multiple (or no) rows returned".

(** [row.c] on a row the client hands back. *)
Definition column (c : string) (row : Row) : JSON :=
  default JNull (Map_get c row).

(** The SQL comparison [a = b] on the values that columns hold: NULL is
    equal to nothing. *)
Definition sql_eq (a b : JSON) : bool :=
  negb (is_null a) && sameValueZero a b.

(** [.eq(c1, v1).eq(c2, v2)...] *)
Definition matches (filters : list (string * JSON)) (row : Row) : bool :=
  forallb (fun f => sql_eq (column (fst f) row) (snd f)) filters.

Definition table (name : string) (w : World) : list Row :=
  default [] (remote_records w !! name).

Definition set_table (name : string) (f : list Row -> list Row)
  : World -> World :=
  set_remote_records (fun db => <[name := f (default [] (db !! name))]> db).

(** The columns of [changes] are written over those of [row]. *)
Definition set_columns (changes row : Row) : Row :=
  List.fold_left (fun r c => Map_set (fst c) (snd c) r) changes row.

(** Modelled from the spec: the client (src/utils/supabase.ts) and the
    database are not among the sources.  The Remote Record Store organises
    records per table; a request resolves to [{ data, error }] and does
    not reject.  A table is the list of its rows and holds the columns the
    services name; what the database may refuse (a constraint, a type, a
    policy, the network) is scripted by [remote_faults].
    [supabase.from(name).select('*').eq(...)]: the rows that pass the
    filters. *)
Definition from_select (name : string) (filters : list (string * JSON))
  : M World (Response (list Row)) :=
  let! fault := next_remote_fault in
  match fault with
  | Some e => ret (Error e)
  | None => gets (fun w => Data (List.filter (matches filters) (table name w)))
  end.

(** Modelled from the spec: see [from_select].
    [supabase.from(name).update(changes).eq(...)] *)
Definition from_update (name : string) (changes : Row)
    (filters : list (string * JSON)) : M World (Response unit) :=
  let! fault := next_remote_fault in
  match fault with
  | Some e => ret (Error e)
  | None =>
      modify (set_table name (List.map (fun row =>
        if matches filters row then set_columns changes row else row))) >>
      ret (Data tt)
  end.

(** The defaults of database/schema.sql that the services read:
    [is_deleted BOOLEAN DEFAULT FALSE] and
    [created_at TIMESTAMP WITH TIME ZONE DEFAULT NOW()]. *)
Definition column_defaults (stamp : string) : Row :=
  [("is_deleted", JBool false); ("created_at", JStr stamp)].

(** Modelled from the spec: see [from_select].
    [supabase.from(name).insert(rows)] *)
Definition from_insert (name : string) (rows : list Row)
  : M World (Response unit) :=
  let! fault := next_remote_fault in
  match fault with
  | Some e => ret (Error e)
  | None =>
      let! stamp := gets now in
      modify (set_table name (fun old =>
        old ++ List.map (fun row => set_columns row (column_defaults stamp))
                        rows)) >>
      ret (Data tt)
  end.

(** Two rows agree on the columns of a unique constraint. *)
Definition same_key (cols : list string) (a b : Row) : bool :=
  forallb (fun c => sql_eq (column c a) (column c b)) cols.

(** [INSERT ... ON CONFLICT (cols) DO UPDATE] for one row: the row with
    the same key takes the columns of the new one, and a row is added
    where there is none. *)
Definition upsert_row (stamp : string) (cols : list string) (old : list Row)
    (new : Row) : list Row :=
  if existsb (same_key cols new) old
  then List.map (fun row => if same_key cols new row
                            then set_columns new row else row) old
  else old ++ [set_columns new (column_defaults stamp)].

(** Two rows of one request agree on the key: the database refuses the
    request. *)
Fixpoint key_twice (cols : list string) (rows : list Row) : bool :=
  match rows with
  | [] => false
  | row :: rest => existsb (same_key cols row) rest || key_twice cols rest
  end.

Definition cardinality_violation : JsError :=
  mkJsError None "ON CONFLICT DO UPDATE command cannot affect row a second time".

(** Modelled from the spec: see [from_select].
    [supabase.from(name).upsert(rows, { onConflict: cols,
    ignoreDuplicates: false })] *)
Definition from_upsert (name : string) (rows : list Row) (cols : list string)
  : M World (Response unit) :=
  let! fault := next_remote_fault in
  match fault with
  | Some e => ret (Error e)
  | None =>
      if key_twice cols rows then ret (Error cardinality_violation)
      else
        let! stamp := gets now in
        modify (set_table name (fun old =>
          List.fold_left (upsert_row stamp cols) rows old)) >>
        ret (Data tt)
  end.

(** [.single()] *)
Definition single (response : Response (list Row)) : Response Row :=
  match response with
  | Data [row] => Data row
  | Data _ => Error PGRST116
  | Error e => Error e
  end.

(** [.maybeSingle()] *)
Definition maybeSingle (response : Response (list Row))
  : Response (option Row) :=
  match response with
  | Data [] => Data None
  | Data [row] => Data (Some row)
  | Data _ => Error PGRST116
  | Error e => Error e
  end.

Definition created_at_of (row : Row) : Z :=
  match column "created_at" row with
  | JStr s => default 0%Z (Date_getTime s)
  | _ => 0%Z
  end.

(** [.order('created_at', { ascending: false })] *)
Definition newest_first (rows : list Row) : list Row :=
  sort_by (fun row => (- created_at_of row)%Z) rows.

(* --------------------------------------------------------------------- *)
(** *** dataService.ts: SupabaseStorageBackend                             *)
(* --------------------------------------------------------------------- *)

Definition session_mismatch : JsError :=
  new_Error "Session user ID mismatch - potential cross-user data access attempt".

(** [session?.user?.id !== userId] *)
Definition session_differs (session : option string) (userId : string) : bool :=
  match session with
  | Some id => negb (String.eqb id userId)
  | None => true
  end.

(** The insert into [audit_logs] is not checked for an error; the audit
    sink is the trace. *)
Definition logDataAccess (action tableName userId : string) : M World unit :=
  try_catch
    (let! session := getSession in
     if session_differs session userId then throw session_mismatch
     else emit (EvAudit action tableName userId))
    (fun err =>
       if is_Error err && includes "Session user ID mismatch" (message err)
       then throw err
       else ret tt).

Definition getTableName (key : string) : string :=
  if String.eqb key "goals" then "user_goals"
  else if String.eqb key "achievements" then "user_achievements"
  else if String.eqb key "skills" then "user_skills"
  else if String.eqb key "skillsList" then "user_skills"
  else if String.eqb key "skillsCompleted" then "user_skills"
  else if String.eqb key "calendarNotes" then "user_calendar_notes"
  else if String.eqb key "symptoms" then "user_symptoms"
  else if String.eqb key "wordFiles" then "user_word_files"
  else "user_profiles".

(** What reading a property of [null] throws. *)
Definition TypeError_null (k : string) : JsError :=
  new_TypeError ("Cannot read properties of null (reading '" +:+ k +:+ "')").

(** [if (error) throw error] *)
Definition throw_on_error {A : Type} (response : Response A) : M World A :=
  match response with
  | Error e => throw e
  | Data data => ret data
  end.

Definition getUserProfileData (key userId : string) : M World JSON :=
  emit (EvRemoteRead key userId) >>
  let! response := from_select "user_profiles" [("user_id", JStr userId)] in
  let! data := throw_on_error (maybeSingle response) in
  match data with
  | None => ret JNull
  | Some data =>
      let! svc := gets encryptionService in
      if String.eqb key "username" then
        if negb (falsy (column "encrypted_username" data)) then
          lift (match decryptField svc (column "encrypted_username" data)
                        userId with
                | Ok s => Ok (JStr s)
                | Throw e => Throw e
                end)
        else ret JNull
      else if String.eqb key "points" then ret (column "points" data)
      else if String.eqb key "favorites" then
        if negb (falsy (column "encrypted_preferences" data)) then
          lift (match decryptData svc (column "encrypted_preferences" data)
                        userId with
                | Throw e => Throw e
                | Ok JNull => Throw (TypeError_null "favorites")
                | Ok preferences =>
                    match property "favorites" preferences with
                    | Some favorites =>
                        Ok (if falsy favorites then JNull else favorites)
                    | None => Ok JNull
                    end
                end)
        else ret JNull
      else ret JNull
  end.

(** [typeof x === 'boolean' ? x : false] *)
Definition boolean_or_false (x : option JSON) : JSON :=
  match x with
  | Some (JBool b) => JBool b
  | _ => JBool false
  end.

(** The callback of [data.map] for a row of [user_goals]. *)
Definition goal_of_row (svc : EncryptionService) (userId : string) (row : Row)
  : Outcome JSON :=
  match decryptData svc (column "encrypted_goal_data" row) userId with
  | Throw e => Throw e
  | Ok JNull => Throw (TypeError_null "id")
  | Ok goal =>
      Ok (JObj
        (object_set "completed" (boolean_or_false (property "completed" goal))
        (object_set "title" (string_or "" (property "title" goal))
        (object_set "text" (string_or "" (property "text" goal))
        (object_set "id" (string_or "" (property "id" goal))
           (own_properties goal))))))
  end.

(** The callback of [data.map] for a row of [user_achievements]. *)
Definition achievement_of_row (svc : EncryptionService) (userId : string)
    (row : Row) : Outcome JSON :=
  match decryptData svc (column "encrypted_achievement_data" row) userId with
  | Throw e => Throw e
  | Ok JNull => Throw (TypeError_null "id")
  | Ok achievement =>
      Ok (JObj
        (object_set "type" (string_or "achievement" (property "type" achievement))
        (object_set "date" (string_or "" (property "date" achievement))
        (object_set "title" (string_or "" (property "title" achievement))
        (object_set "text" (string_or "" (property "text" achievement))
        (object_set "id" (string_or "" (property "id" achievement))
           (own_properties achievement)))))))
  end.

(** [data.map(async row => { obj[row[date]] = await this.decryptData(
    row[payload], userId) })] under [Promise.all]: the entries are added in
    the order of the rows, which is the order the callbacks settle in when
    the rows take the same decoding path. *)
Fixpoint by_date (svc : EncryptionService) (userId date payload : string)
    (rows : list Row) (obj : list (string * JSON))
  : Outcome (list (string * JSON)) :=
  match rows with
  | [] => Ok obj
  | row :: rest =>
      match decryptData svc (column payload row) userId with
      | Throw e => Throw e
      | Ok entry =>
          by_date svc userId date payload rest
            (object_set (String_of (column date row)) entry obj)
      end
  end.

(** The callback of [data.map] for a row of [user_word_files]. *)
Definition wordFile_of_row (svc : EncryptionService) (userId : string)
    (row : Row) : Outcome JSON :=
  match decryptField svc (column "encrypted_file_name" row) userId with
  | Throw e => Throw e
  | Ok name =>
      Ok (JObj [("id", column "file_id" row); ("name", JStr name);
                ("url", column "file_url" row); ("file", JNull)])
  end.

Definition getUserDataFromTable (_key tableName userId : string)
  : M World JSON :=
  emit (EvRemoteRead _key userId) >>
  let! response :=
    from_select tableName [("user_id", JStr userId);
                           ("is_deleted", JBool false)] in
  let! rows := throw_on_error response in
  let data := newest_first rows in
  if (List.length data =? 0)%nat then ret JNull
  else
    let! svc := gets encryptionService in
    if String.eqb tableName "user_goals" then
      let! goals := lift (for_all (goal_of_row svc userId) data) in
      ret (JArr goals)
    else if String.eqb tableName "user_achievements" then
      let! achievements := lift (for_all (achievement_of_row svc userId) data) in
      ret (JArr achievements)
    else if String.eqb tableName "user_skills" then
      let first := default [] (head data) in
      if String.eqb _key "skillsList"
         && negb (falsy (column "encrypted_skills_data" first))
      then lift (decryptData svc (column "encrypted_skills_data" first) userId)
      else if String.eqb _key "skillsCompleted"
              && negb (falsy (column "encrypted_skills_completed" first))
      then lift (decryptData svc (column "encrypted_skills_completed" first)
                             userId)
      else ret JNull
    else if String.eqb tableName "user_calendar_notes" then
      let! calendarNotes :=
        lift (by_date svc userId "note_date" "encrypted_note_data" data []) in
      ret (JObj calendarNotes)
    else if String.eqb tableName "user_symptoms" then
      let! symptoms :=
        lift (by_date svc userId "symptom_date" "encrypted_symptom_data"
                      data []) in
      ret (JObj symptoms)
    else if String.eqb tableName "user_word_files" then
      let! wordFiles := lift (for_all (wordFile_of_row svc userId) data) in
      ret (JArr wordFiles)
    else ret JNull.

(** The upsert into [sync_status] names no key column and adds a row
    ([id] is the primary key, [last_sync_at] defaults to [NOW()]); its
    result is not looked at. *)
Definition updateSyncStatus (tableName userId status : string)
    (errorMessage : option string) : M World unit :=
  emit (EvSyncStatus tableName userId status) >>
  let! fault := next_status_fault in
  match fault with
  | Some _ => ret tt
  | None =>
      let! stamp := gets now in
      modify (set_sync_status (fun rows =>
        rows ++ [ {| ss_user_id := userId; ss_table_name := tableName;
                     ss_sync_status := status;
                     ss_error_message :=
                       match errorMessage with
                       | Some msg => if String.eqb msg "" then None else Some msg
                       | None => None
                       end;
                     last_sync_at := stamp |} ]))
  end.

Definition SupabaseStorageBackend_get (key userId : string) : M World JSON :=
  try_catch
    (if trim_is_empty userId
     then throw (new_Error "Invalid userId provided for data access")
     else
       let tableName := getTableName key in
       logDataAccess "DATA_ACCESS" tableName userId >>
       if String.eqb tableName "user_profiles"
       then getUserProfileData key userId
       else getUserDataFromTable key tableName userId)
    (fun err =>
       logDataAccess "DATA_ACCESS_ERROR" (getTableName key) userId >>
       throw err).

(** A promise that is stored instead of being awaited: an object without
    own properties, which a store serialises as [{}]. *)
Definition pending_promise : JSON := JObj [].

(** A property of an object literal: it is left out of the request when
    its value is [undefined]. *)
Definition optional (k : string) (x : option JSON) : Row :=
  match x with
  | Some v => [(k, v)]
  | None => []
  end.

(** The upsert of [setUserProfileData]. *)
Definition upsert_profile (userId : string) (updateData : Row) : M World unit :=
  let! response :=
    from_upsert "user_profiles"
      [ [("user_id", JStr userId)] ++ updateData
        ++ [("device_fingerprint", JStr "SERVER-SIDE-SUPABASE")] ]
      ["user_id"] in
  throw_on_error response.

(** For [username], [encryptField] is called without [await]: what the
    request carries is the promise. *)
Definition setUserProfileData (key : string) (data : JSON) (userId : string)
  : M World unit :=
  if String.eqb key "username" then
    emit (EvRemoteWrite key data userId) >>
    upsert_profile userId [("encrypted_username", pending_promise)]
  else if String.eqb key "points" then
    emit (EvRemoteWrite key data userId) >>
    upsert_profile userId [("points", data)]
  else if String.eqb key "favorites" then
    emit (EvRemoteWrite key data userId) >>
    let! response := from_select "user_profiles" [("user_id", JStr userId)] in
    let! svc := gets encryptionService in
    let stored :=
      match single response with
      | Data existingProfile => column "encrypted_preferences" existingProfile
      | Error _ => JNull
      end in
    let preferences :=
      if negb (falsy stored) then
        match decryptData svc stored userId with
        | Ok (JObj fields) => JObj fields
        | Ok (JArr items) => JArr items
        | _ => JObj []
        end
      else JObj [] in
    let preferences :=
      match preferences with
      | JObj fields => JObj (object_set "favorites" data fields)
      | other => other
      end in
    let! encrypted := lift (encrypt svc preferences userId) in
    upsert_profile userId [("encrypted_preferences", JStr encrypted)]
  else ret tt.

(** [item && typeof item.id === 'string' && item.id.trim() !== ''] *)
Definition has_id (item : JSON) : bool :=
  negb (falsy item)
  && match property "id" item with
     | Some (JStr id) => negb (trim_is_empty id)
     | _ => false
     end.

(** [{ ...goal, text: ..., title: ... }] *)
Definition with_text_and_title (item : JSON) : list (string * JSON) :=
  object_set "title" (string_or "" (property "title" item))
    (object_set "text" (string_or "" (property "text" item))
       (own_properties item)).

(** The callback of [validGoals.map] that builds a row. *)
Definition row_of_goal (svc : EncryptionService) (userId : string)
    (goal : JSON) : Outcome Row :=
  match encrypt svc goal userId with
  | Throw e => Throw e
  | Ok encrypted =>
      Ok ([("user_id", JStr userId)]
          ++ optional "goal_id" (property "id" goal)
          ++ [("encrypted_goal_data", JStr encrypted)]
          ++ optional "completed" (property "completed" goal)
          ++ [("version", JNum 1); ("is_deleted", JBool false)])
  end.

(** [x || d] for a string [d] *)
Definition or_else (d : string) (x : option JSON) : JSON :=
  match x with
  | Some v => if falsy v then JStr d else v
  | None => JStr d
  end.

(** The callback of [validAchievements.map] that builds a row. *)
Definition row_of_achievement (svc : EncryptionService) (userId : string)
    (achievement : JSON) : Outcome Row :=
  match encrypt svc achievement userId with
  | Throw e => Throw e
  | Ok encrypted =>
      Ok ([("user_id", JStr userId)]
          ++ optional "achievement_id" (property "id" achievement)
          ++ [("encrypted_achievement_data", JStr encrypted)]
          ++ optional "achievement_date" (property "date" achievement)
          ++ [("achievement_type", or_else "general" (property "type" achievement));
              ("version", JNum 1); ("is_deleted", JBool false)])
  end.

(** [Array.isArray(v) ? v.length : 0] *)
Definition length_if_array (v : JSON) : JSON :=
  match v with
  | JArr items => JNum (Z.of_nat (List.length items))
  | _ => JNum 0
  end.

(** The callback over [Object.entries(calendarNotes)]. *)
Definition row_of_note (svc : EncryptionService) (userId : string)
    (entry : string * JSON) : Outcome Row :=
  match encrypt svc (snd entry) userId with
  | Throw e => Throw e
  | Ok encrypted =>
      Ok [("user_id", JStr userId); ("note_date", JStr (fst entry));
          ("encrypted_note_data", JStr encrypted); ("version", JNum 1)]
  end.

(** The callback over [Object.entries(symptoms)]. *)
Definition row_of_symptoms (svc : EncryptionService) (userId : string)
    (entry : string * JSON) : Outcome Row :=
  match encrypt svc (snd entry) userId with
  | Throw e => Throw e
  | Ok encrypted =>
      Ok [("user_id", JStr userId); ("symptom_date", JStr (fst entry));
          ("encrypted_symptom_data", JStr encrypted);
          ("symptom_count", length_if_array (snd entry)); ("version", JNum 1)]
  end.

(** The callback of [wordFiles.map]. *)
Definition row_of_wordFile (svc : EncryptionService) (userId : string)
    (file : JSON) : Outcome Row :=
  if is_null file then Throw (TypeError_null "id")
  else
    match encryptField svc (default JNull (property "name" file)) userId with
    | Throw e => Throw e
    | Ok encrypted =>
        Ok ([("user_id", JStr userId)]
            ++ optional "file_id" (property "id" file)
            ++ [("encrypted_file_name", JStr encrypted)]
            ++ optional "file_url" (property "url" file)
            ++ [("version", JNum 1)])
    end.

(** [new Date().toISOString().split('T')[0]] *)
Fixpoint before_T (s : string) : string :=
  match s with
  | EmptyString => EmptyString
  | String c rest => if Ascii.eqb c "T" then EmptyString
                     else String c (before_T rest)
  end.

(** [x > 0] for what [x] may be here: a number, a boolean, or
    [undefined]. *)
Definition positive_number (x : option JSON) : bool :=
  match x with
  | Some (JNum n) => (0 <? n)%Z
  | Some (JBool b) => b
  | _ => false
  end.

(** The soft deletion that comes before the upsert of goals and of
    achievements; its result is not looked at. *)
Definition mark_replaced (tableName userId : string) : M World unit :=
  let! stamp := gets now in
  let! _ := from_update tableName
    [("is_deleted", JBool true); ("deleted_at", JStr stamp);
     ("deletion_reason", JStr "replaced_by_update")]
    [("user_id", JStr userId); ("is_deleted", JBool false)] in
  ret tt.

(** [xs.filter(...)] on a value that is handed in as an array. *)
Definition not_an_array (what method : string) (data : JSON) : JsError :=
  if is_null data
  then new_TypeError ("Cannot read properties of null (reading '"
                      +:+ method +:+ "')")
  else new_TypeError (what +:+ "." +:+ method +:+ " is not a function").

Definition setUserDataInTable (_key : string) (data : JSON)
    (tableName userId : string) : M World unit :=
  let! svc := gets encryptionService in
  if String.eqb tableName "user_goals" then
    match data with
    | JArr goals =>
        let validGoals :=
          List.map (fun goal => JObj (with_text_and_title goal))
                   (List.filter has_id goals) in
        emit (EvRemoteWrite _key data userId) >>
        mark_replaced "user_goals" userId >>
        if (0 <? List.length validGoals)%nat then
          let! goalRows := lift (for_all (row_of_goal svc userId) validGoals) in
          let! response :=
            from_upsert "user_goals" goalRows ["user_id"; "goal_id"] in
          throw_on_error response
        else ret tt
    | _ => throw (not_an_array "goals" "filter" data)
    end
  else if String.eqb tableName "user_achievements" then
    match data with
    | JArr achievements =>
        let! stamp := gets now in
        let validAchievements :=
          List.map (fun achievement =>
            JObj (object_set "date"
                    (match property "date" achievement with
                     | Some (JStr date) => JStr date
                     | _ => JStr (before_T stamp)
                     end)
                    (with_text_and_title achievement)))
            (List.filter has_id achievements) in
        emit (EvRemoteWrite _key data userId) >>
        mark_replaced "user_achievements" userId >>
        if (0 <? List.length validAchievements)%nat then
          let! achievementRows :=
            lift (for_all (row_of_achievement svc userId) validAchievements) in
          let! response :=
            from_upsert "user_achievements" achievementRows
                        ["user_id"; "achievement_id"] in
          throw_on_error response
        else ret tt
    | _ => throw (not_an_array "achievements" "filter" data)
    end
  else if String.eqb tableName "user_skills" then
    if String.eqb _key "skillsList" then
      if negb (falsy data) then
        let! encrypted := lift (encrypt svc data userId) in
        emit (EvRemoteWrite _key data userId) >>
        let! response :=
          from_upsert "user_skills"
            [ [("user_id", JStr userId);
               ("encrypted_skills_data", JStr encrypted);
               ("skills_count", length_if_array data);
               ("version", JNum 1)] ]
            ["user_id"] in
        throw_on_error response
      else ret tt
    else if String.eqb _key "skillsCompleted" then
      if negb (falsy data) then
        let! encrypted := lift (encrypt svc data userId) in
        emit (EvRemoteWrite _key data userId) >>
        let! response :=
          from_upsert "user_skills"
            [ [("user_id", JStr userId);
               ("encrypted_skills_data", JStr (JSON_stringify (JArr [])));
               ("encrypted_skills_completed", JStr encrypted);
               ("skills_count",
                JNum (Z.of_nat (List.length (own_properties data))));
               ("version", JNum 1)] ]
            ["user_id"] in
        throw_on_error response
      else ret tt
    else ret tt
  else if String.eqb tableName "user_calendar_notes" then
    if negb (falsy data) && (0 <? List.length (own_properties data))%nat then
      let! noteRows :=
        lift (for_all (row_of_note svc userId) (own_properties data)) in
      emit (EvRemoteWrite _key data userId) >>
      let! response :=
        from_upsert "user_calendar_notes" noteRows ["user_id"; "note_date"] in
      throw_on_error response
    else ret tt
  else if String.eqb tableName "user_symptoms" then
    if negb (falsy data) && (0 <? List.length (own_properties data))%nat then
      let! symptomRows :=
        lift (for_all (row_of_symptoms svc userId) (own_properties data)) in
      emit (EvRemoteWrite _key data userId) >>
      let! response :=
        from_upsert "user_symptoms" symptomRows ["user_id"; "symptom_date"] in
      throw_on_error response
    else ret tt
  else if String.eqb tableName "user_word_files" then
    match data with
    | JArr wordFiles =>
        if (0 <? List.length wordFiles)%nat then
          let! fileRows :=
            lift (for_all (row_of_wordFile svc userId) wordFiles) in
          emit (EvRemoteWrite _key data userId) >>
          let! response := from_insert "user_word_files" fileRows in
          throw_on_error response
        else ret tt
    | JStr s =>
        if String.eqb s "" then ret tt
        else throw (not_an_array "wordFiles" "map" data)
    | JObj fields =>
        if positive_number (Map_get "length" fields)
        then throw (not_an_array "wordFiles" "map" data)
        else ret tt
    | _ => ret tt
    end
  else ret tt.

Definition SupabaseStorageBackend_set (key : string) (data : JSON)
    (userId : string) : M World unit :=
  try_catch
    (let tableName := getTableName key in
     logDataAccess "DATA_MODIFY" tableName userId >>
     (if String.eqb tableName "user_profiles"
      then setUserProfileData key data userId
      else setUserDataInTable key data tableName userId) >>
     updateSyncStatus tableName userId "completed" None)
    (fun err =>
       logDataAccess "DATA_MODIFY_ERROR" (getTableName key) userId >>
       updateSyncStatus (getTableName key) userId "failed"
                        (Some (String_of_error err)) >>
       throw err).

Definition SupabaseStorageBackend_remove (key userId : string) : M World unit :=
  try_catch
    (let tableName := getTableName key in
     logDataAccess "DATA_DELETE" tableName userId >>
     emit (EvRemoteDelete key userId) >>
     let! stamp := gets now in
     let! response := from_update tableName
       [("is_deleted", JBool true); ("deleted_at", JStr stamp);
        ("deletion_reason", JStr "user_request")]
       [("user_id", JStr userId)] in
     throw_on_error response >>
     updateSyncStatus tableName userId "completed" None)
    (fun err =>
       logDataAccess "DATA_DELETE_ERROR" (getTableName key) userId >>
       throw err).

(* --------------------------------------------------------------------- *)
(** *** dataService.ts: LocalStorageBackend                                *)
(* --------------------------------------------------------------------- *)

Definition LocalStorageBackend_get (key _userId : string) : M World JSON :=
  storageService_get key.

Definition LocalStorageBackend_set (key : string) (data : JSON)
    (_userId : string) : M World unit :=
  storageService_set key data.

Definition LocalStorageBackend_remove (key _userId : string) : M World unit :=
  storageService_remove key.

(* --------------------------------------------------------------------- *)
(** *** dataService.ts: HybridDataService                                  *)
(* --------------------------------------------------------------------- *)

(** [!userId || typeof userId !== 'string' || userId.trim() === ''];
    [None] is a [userId] that is no string ([undefined], [null]). *)
Definition invalid_userId (userId : option string) : bool :=
  match userId with
  | None => true
  | Some s => trim_is_empty s
  end.

(** [`${userId}`] *)
Definition show_userId (userId : option string) : string :=
  match userId with
  | None => "undefined"
  | Some s => s
  end.

(** The test both [catch] blocks of the coordinator apply to what was
    thrown. *)
Definition is_critical_auth_error (error : JsError) : bool :=
  is_Error error
  && (includes "Session user ID mismatch" (message error)
      || includes "Invalid userId" (message error)).

Definition getData (key : string) (userId : option string) : M World JSON :=
  if invalid_userId userId then
    throw (new_Error ("Invalid userId provided for getData: " +:+ show_userId userId))
  else
    let uid := show_userId userId in
    try_catch
      (let! online := gets isOnline in
       let! cached :=
         (if online then
            let! supabaseData := SupabaseStorageBackend_get key uid in
            if negb (is_null supabaseData) then
              LocalStorageBackend_set key supabaseData uid >>
              ret (Some supabaseData)
            else ret None
          else ret None) in
       match cached with
       | Some supabaseData => ret supabaseData
       | None => LocalStorageBackend_get key uid
       end)
      (fun error =>
         if is_critical_auth_error error then throw error
         else LocalStorageBackend_get key uid).

Definition getDataSafe (key : string) (userId : option string)
    (defaultValue : JSON) : M World JSON :=
  try_catch
    (let! data := getData key userId in
     match data, defaultValue with
     | JArr items, JArr defaults =>
         if String.eqb key "skillsList" then
           if (List.length items =? 0)%nat then ret defaultValue
           else ret (JArr (Array_from_Set (defaults ++ items)))
         else ret data
     | _, _ => ret (if is_null data then defaultValue else data)
     end)
    (fun error =>
       if is_critical_auth_error error then throw error
       else ret defaultValue).

Definition queueForSync (key : string) (data : JSON) (userId : string)
  : M World unit :=
  emit (EvQueueForSync key data userId) >>
  let! stamp := gets now in
  modify (set_syncQueue (Map_set (userId +:+ ":" +:+ key)
    {| qw_key := key; qw_data := data; qw_userId := userId;
       qw_timestamp := stamp |})).

Definition setData (key : string) (data : JSON) (userId : string)
  : M World unit :=
  let! online := gets isOnline in
  if online then
    try_catch
      (SupabaseStorageBackend_set key data userId >>
       LocalStorageBackend_set key data userId)
      (fun _ =>
         LocalStorageBackend_set key data userId >>
         queueForSync key data userId)
  else
    LocalStorageBackend_set key data userId >>
    queueForSync key data userId.

Definition removeData (key userId : string) : M World unit :=
  LocalStorageBackend_remove key userId >>
  let! online := gets isOnline in
  if online then
    try_catch (SupabaseStorageBackend_remove key userId) (fun _ => ret tt)
  else ret tt.

(* --------------------------------------------------------------------- *)
(** *** syncService.ts: SyncService                                        *)
(* --------------------------------------------------------------------- *)

Record SyncResult : Type := {
  success : list string;
  failed : list (string * string);
  conflicts : list SyncConflict;
  totalSynced : nat;
  sr_lastSyncTime : string;
  syncDuration : Z
}.

(** [new Date(0).toISOString()] *)
Definition epoch_ISO : string := "1970-01-01T00:00:00.000Z".

Definition set_syncStatus (st : SyncStatus) (svc : SyncService) : SyncService :=
  {| syncSettings := syncSettings svc; syncStatus := st;
     lastSyncTime := lastSyncTime svc; sync_isOnline := sync_isOnline svc;
     pendingConflicts := pendingConflicts svc |}.

Definition set_lastSyncTime (t : option string) (svc : SyncService) : SyncService :=
  {| syncSettings := syncSettings svc; syncStatus := syncStatus svc;
     lastSyncTime := t; sync_isOnline := sync_isOnline svc;
     pendingConflicts := pendingConflicts svc |}.

Definition set_pendingConflicts (m : list (string * SyncConflict))
    (svc : SyncService) : SyncService :=
  {| syncSettings := syncSettings svc; syncStatus := syncStatus svc;
     lastSyncTime := lastSyncTime svc; sync_isOnline := sync_isOnline svc;
     pendingConflicts := m |}.

Definition notifyListeners (status : SyncStatus) : M World unit :=
  emit (EvNotify status).

Definition SyncService_getTableName (key : string) : string :=
  if String.eqb key "goals" then "user_goals"
  else if String.eqb key "achievements" then "user_achievements"
  else if String.eqb key "skills" then "user_skills"
  else if String.eqb key "skillsList" then "user_skills"
  else if String.eqb key "calendarNotes" then "user_calendar_notes"
  else if String.eqb key "symptoms" then "user_symptoms"
  else if String.eqb key "wordFiles" then "user_word_files"
  else "user_profiles".

(** [Math.abs(localTime.getTime() - remoteTime.getTime())]; [None] is [NaN]. *)
Definition timeDiff (localTimestamp remoteTimestamp : string) : option Z :=
  match Date_getTime localTimestamp, Date_getTime remoteTimestamp with
  | Some l, Some r => Some (Z.abs (l - r))
  | _, _ => None
  end.

Definition detectConflict (key : string) (localData remoteData : JSON)
    (localTimestamp remoteTimestamp : string) : option SyncConflict :=
  if negb (String.eqb (JSON_stringify localData) (JSON_stringify remoteData))
  then
    let kind :=
      match timeDiff localTimestamp remoteTimestamp with
      | Some d => if (d <? 60000)%Z then concurrent_edit else update
      | None => update
      end in
    Some {| sc_key := key; sc_table := SyncService_getTableName key;
            localData := localData; remoteData := remoteData;
            localTimestamp := localTimestamp;
            remoteTimestamp := remoteTimestamp;
            conflictType := kind |}
  else None.

(** [localTime >= remoteTime] on two [Date]s: false when either is invalid. *)
Definition Date_ge (a b : string) : bool :=
  match Date_getTime a, Date_getTime b with
  | Some x, Some y => (y <=? x)%Z
  | _, _ => false
  end.

(** The side a policy picks: [None] when resolution is left to the user. *)
Definition winning_side (policy : ConflictResolution) (c : SyncConflict)
  : option (JSON * string) :=
  match policy with
  | local_wins => Some (localData c, localTimestamp c)
  | remote_wins => Some (remoteData c, remoteTimestamp c)
  | latest_timestamp =>
      if Date_ge (localTimestamp c) (remoteTimestamp c)
      then Some (localData c, localTimestamp c)
      else Some (remoteData c, remoteTimestamp c)
  | manual => None
  end.

Definition resolveConflict (c : SyncConflict) (userId : string) : M World bool :=
  try_catch
    (let! policy := gets (fun w => conflictResolution (syncSettings (syncService w))) in
     match winning_side policy c with
     | None => ret false
     | Some (winningData, winningTimestamp) =>
         setData (sc_key c) winningData userId >>
         storageService_set (sc_key c +:+ "_timestamp") (JStr winningTimestamp) >>
         ret true
     end)
    (fun _ => ret false).

Definition getRemoteData (key userId : string) : M World JSON :=
  try_catch (getData key (Some userId)) (fun _ => ret JNull).

(** [.single()] yields the row when exactly one matches and an error
    otherwise; an upsert without a key column adds a row. *)
Definition getRemoteTimestamp (key userId : string) : M World string :=
  let tableName := SyncService_getTableName key in
  let! fault := next_status_fault in
  match fault with
  | Some _ => ret epoch_ISO
  | None =>
      let! rows := gets (fun w =>
        List.filter (fun r => String.eqb (ss_user_id r) userId
                              && String.eqb (ss_table_name r) tableName)
                    (sync_status w)) in
      match rows with
      | [row] => ret (last_sync_at row)
      | _ => ret epoch_ISO
      end
  end.

Definition pullData (key : string) (data : JSON) (timestamp : string)
  : M World unit :=
  storageService_set key data >>
  storageService_set (key +:+ "_timestamp") (JStr timestamp).

Definition pushData (key : string) (data : JSON) (userId : string)
  : M World unit :=
  setData key data userId >>
  let! stamp := gets now in
  storageService_set (key +:+ "_timestamp") (JStr stamp).

(** The result is the [conflict] field of what the source returns:
    [None] for [{ success: true }]. *)
Definition syncDataType (dataType userId : string)
  : M World (option SyncConflict) :=
  let! local := storageService_get dataType in
  let! localTimestampRaw := storageService_get (dataType +:+ "_timestamp") in
  let localTs :=
    match localTimestampRaw with JStr s => s | _ => epoch_ISO end in
  let! remote := getRemoteData dataType userId in
  let! remoteTs := getRemoteTimestamp dataType userId in
  if is_null local then
    (if negb (is_null remote) then
       setData dataType remote userId >>
       storageService_set (dataType +:+ "_timestamp") (JStr remoteTs)
     else ret tt) >>
    ret None
  else if is_null remote then
    setData dataType local userId >>
    let! stamp := gets now in
    storageService_set (dataType +:+ "_timestamp") (JStr stamp) >>
    ret None
  else
    match detectConflict dataType local remote localTs remoteTs with
    | Some c =>
        let! policy := gets (fun w => conflictResolution (syncSettings (syncService w))) in
        match policy with
        | manual => ret (Some c)
        | _ =>
            let! resolved := resolveConflict c userId in
            if resolved then ret None else ret (Some c)
        end
    | None =>
        (if String.ltb localTs remoteTs then pullData dataType remote remoteTs
         else if String.ltb remoteTs localTs then pushData dataType local userId
         else ret tt) >>
        ret None
    end.

Definition prioritizeHealthcareData (dataTypes : list string) : list string :=
  let healthcareTypes := ["symptoms"; "calendarNotes"; "goals"] in
  let member := fun (l : list string) (x : string) => existsb (String.eqb x) l in
  let regularTypes := List.filter (fun t => negb (member healthcareTypes t)) dataTypes in
  List.filter (member dataTypes) healthcareTypes ++ regularTypes.

Definition tracked_dataTypes : list string :=
  ["username"; "points"; "favorites"; "goals"; "achievements"; "skills";
   "skillsList"; "calendarNotes"; "symptoms"; "wordFiles"].

Definition empty_results : SyncResult :=
  {| success := []; failed := []; conflicts := []; totalSynced := 0;
     sr_lastSyncTime := ""; syncDuration := 0 |}.

(** One member of a batch: the callback handed to [batch.map]. *)
Definition sync_one (userId : string) (results : SyncResult) (dataType : string)
  : M World SyncResult :=
  try_catch
    (let! result := syncDataType dataType userId in
     match result with
     | Some c =>
         ret {| success := success results; failed := failed results;
                conflicts := conflicts results ++ [c];
                totalSynced := totalSynced results;
                sr_lastSyncTime := sr_lastSyncTime results;
                syncDuration := syncDuration results |}
     | None =>
         ret {| success := success results ++ [dataType];
                failed := failed results; conflicts := conflicts results;
                totalSynced := S (totalSynced results);
                sr_lastSyncTime := sr_lastSyncTime results;
                syncDuration := syncDuration results |}
     end)
    (fun e =>
       ret {| success := success results;
              failed := failed results ++
                        [(dataType, if is_Error e then message e else "Unknown error")];
              conflicts := conflicts results;
              totalSynced := totalSynced results;
              sr_lastSyncTime := sr_lastSyncTime results;
              syncDuration := syncDuration results |}).

Fixpoint sync_each (userId : string) (results : SyncResult) (batch : list string)
  : M World SyncResult :=
  match batch with
  | [] => ret results
  | dataType :: rest =>
      let! results' := sync_one userId results dataType in
      sync_each userId results' rest
  end.

(** The batching loop, [for (let i = 0; i < prioritizedTypes.length;
    i += batchSize)], run for at most [fuel] rounds: [None] when the loop
    has not ended within them.  The members of a batch start together and
    interleave at their awaits; the embedding runs them to completion one
    after the other, in the order of the batch. *)
Fixpoint sync_batches (fuel : nat) (userId : string) (batchSize : Z)
    (prioritizedTypes : list string) (i : Z) (results : SyncResult)
  : World -> option (Outcome SyncResult * World) :=
  match fuel with
  | O => fun _ => None
  | S fuel' => fun w =>
      if (i <? Z.of_nat (List.length prioritizedTypes))%Z then
        let batch := Array_slice i (i + batchSize) prioritizedTypes in
        match sync_each userId results batch w with
        | (Ok results', w') =>
            sync_batches fuel' userId batchSize prioritizedTypes
                         (i + batchSize) results' w'
        | (Throw e, w') => Some (Throw e, w')
        end
      else Some (Ok results, w)
  end.

Definition syncAllDataTypes (fuel : nat) (userId : string)
  : World -> option (Outcome SyncResult * World) :=
  fun w =>
    let settings := syncSettings (syncService w) in
    let prioritizedTypes :=
      if healthcareDataPriority settings
      then prioritizeHealthcareData tracked_dataTypes
      else tracked_dataTypes in
    sync_batches fuel userId (batchSize settings) prioritizedTypes 0
                 empty_results w.

(** [{ processed: true, processed_at: new Date().toISOString() }] *)
Definition mark_processed (stamp : string) (r : OfflineChange) : OfflineChange :=
  {| oc_id := oc_id r; oc_user_id := oc_user_id r;
     table_name := table_name r; operation := operation r;
     encrypted_data := encrypted_data r; queued_at := queued_at r;
     processed := true; processed_at := Some stamp;
     error_message := error_message r |}.

(** [{ error_message: ... }] *)
Definition record_error_message (msg : string) (r : OfflineChange)
  : OfflineChange :=
  {| oc_id := oc_id r; oc_user_id := oc_user_id r;
     table_name := table_name r; operation := operation r;
     encrypted_data := encrypted_data r; queued_at := queued_at r;
     processed := processed r; processed_at := processed_at r;
     error_message := Some msg |}.

(** Modelled from the spec: see [from_select].
    [await supabase.from('offline_changes_queue').update(changes)
    .eq('id', id)]; the caller does not look at the result, so a request
    that is refused changes nothing and goes unnoticed. *)
Definition update_change (id : string) (changes : OfflineChange -> OfflineChange)
  : M World unit :=
  let! fault := next_queue_fault in
  match fault with
  | Some _ => ret tt
  | None =>
      modify (set_offline_changes_queue (List.map (fun r =>
        if String.eqb (oc_id r) id then changes r else r)))
  end.

(** The rows the select of [processOfflineQueue] yields. *)
Definition pending_changes (userId : string) (rows : list OfflineChange)
  : list OfflineChange :=
  sort_by queued_at
    (List.filter (fun r => String.eqb (oc_user_id r) userId && negb (processed r))
                 rows).

(** The [switch (change.operation)] of [processOfflineQueue].
    [encryptionService.decrypt(...)] is called without [await]: what is
    handed to [setData] is the promise, whatever the entry holds. *)
Definition replay_change (userId : string) (change : OfflineChange)
  : M World unit :=
  let decryptedData := pending_promise in
  let key := replace_first "user_" "" (table_name change) in
  if String.eqb (operation change) "insert"
     || String.eqb (operation change) "update"
  then setData key decryptedData userId
  else if String.eqb (operation change) "delete"
  then removeData key userId
  else ret tt.

(** The body of the loop of [processOfflineQueue]. *)
Definition process_change (userId : string) (change : OfflineChange)
  : M World unit :=
  emit (EvReplay (oc_id change)) >>
  try_catch
    (replay_change userId change >>
     let! stamp := gets now in
     emit (EvMarkProcessed (oc_id change)) >>
     update_change (oc_id change) (mark_processed stamp))
    (fun e =>
       let msg := if is_Error e then message e else String_of_error e in
       emit (EvErrorMessage (oc_id change) msg) >>
       update_change (oc_id change) (record_error_message msg)).

(** Modelled from the spec: see [from_select]; the select of the pending
    entries of the owner, in the order of [queued_at]. *)
Definition processOfflineQueue (userId : string) : M World unit :=
  let! fault := next_queue_fault in
  match fault with
  | Some _ => ret tt
  | None =>
      let! offlineChanges := gets (fun w =>
        pending_changes userId (offline_changes_queue w)) in
      for_each offlineChanges (process_change userId)
  end.

Definition saveSyncState (userId : string) : M World unit :=
  let! svc := gets syncService in
  storageService_set "sync_state"
    (JObj [("lastSyncTime",
            match lastSyncTime svc with Some t => JStr t | None => JNull end);
           ("userId", JStr userId);
           ("pendingConflicts", JNum (Z.of_nat (List.length (pendingConflicts svc))))]).

(** [userId || user?.id] *)
Definition currentUserId_of (userId user : option string) : option string :=
  match userId with
  | Some s => if String.eqb s "" then user else Some s
  | None => user
  end.

(** [performSync] up to its first [await]: the two guards, then the
    status is set to [syncing]. *)
Definition performSync_begin : M World unit :=
  let! svc := gets syncService in
  if negb (sync_isOnline svc) then
    throw (new_Error "Cannot sync while offline")
  else if match syncStatus svc with syncing => true | _ => false end then
    throw (new_Error "Sync already in progress")
  else
    modify (set_sync (set_syncStatus syncing)) >>
    notifyListeners syncing.

(** The [try] block up to the reconciliation: the user id, then the drain
    of the Offline Change Queue. *)
Definition performSync_drain (userId : option string) : M World string :=
  let! user := getUser in
  match currentUserId_of userId user with
  | None => throw (new_Error "No authenticated user found")
  | Some s =>
      if String.eqb s "" then throw (new_Error "No authenticated user found")
      else processOfflineQueue s >> ret s
  end.

(** The [try] block after the reconciliation. *)
Definition performSync_finish (s : string) (syncResult : SyncResult)
  : M World SyncResult :=
  (match conflicts syncResult with
   | [] =>
       modify (set_sync (set_syncStatus idle)) >>
       notifyListeners idle
   | _ =>
       modify (set_sync (set_pendingConflicts
         (List.fold_left (fun m c => Map_set (sc_key c) c m)
                         (conflicts syncResult) []))) >>
       modify (set_sync (set_syncStatus conflict)) >>
       notifyListeners conflict
   end) >>
  let! stamp := gets now in
  modify (set_sync (set_lastSyncTime (Some stamp))) >>
  saveSyncState s >>
  ret {| success := success syncResult; failed := failed syncResult;
         conflicts := conflicts syncResult;
         totalSynced := totalSynced syncResult;
         sr_lastSyncTime := stamp; syncDuration := 0 |}.

(** The [catch] block. *)
Definition performSync_failed (e : JsError) : M World SyncResult :=
  modify (set_sync (set_syncStatus error)) >>
  notifyListeners error >>
  throw e.

(** [None]: the batching loop has not ended within [fuel] rounds. *)
Definition performSync (fuel : nat) (userId : option string)
  : World -> option (Outcome SyncResult * World) :=
  fun w =>
    match performSync_begin w with
    | (Throw e, w0) => Some (Throw e, w0)
    | (Ok _, w0) =>
        match performSync_drain userId w0 with
        | (Throw e, w1) => Some (performSync_failed e w1)
        | (Ok s, w1) =>
            match syncAllDataTypes fuel s w1 with
            | None => None
            | Some (Throw e, w2) => Some (performSync_failed e w2)
            | Some (Ok syncResult, w2) =>
                Some (try_catch (performSync_finish s syncResult)
                                performSync_failed w2)
            end
        end
    end.

(* --------------------------------------------------------------------- *)
(** *** errorHandlingService.ts: ErrorHandlingService                      *)
(* --------------------------------------------------------------------- *)

Inductive ErrorSeverity : Type :=
| low | medium | high | critical.

Inductive ErrorCategory : Type :=
| network | authentication | encryption | storage | validation
| sync | compliance | user_action | system.

Definition ErrorCategory_eqb (a b : ErrorCategory) : bool :=
  match a, b with
  | network, network | authentication, authentication
  | encryption, encryption | storage, storage | validation, validation
  | sync, sync | compliance, compliance | user_action, user_action
  | system, system => true
  | _, _ => false
  end.

(** The [_context] argument: its JSON entries and, when it carries one,
    what calling its [retryFunction] resolves to. *)
Record Context : Type := {
  entries : list (string * JSON);
  retryFunction : option (Outcome JSON)
}.

Record ErrorInfo : Type := {
  ei_id : string;
  ei_message : string;
  ei_category : ErrorCategory;
  ei_severity : ErrorSeverity;
  ei_timestamp : string;
  ei_userId : JSON;
  ei_context : option Context;
  ei_resolved : bool;
  ei_retryCount : Z;
  ei_maxRetries : Z
}.

Record RecoveryAction : Type := {
  ra_name : string;
  description : string;
  isDestructive : bool;
  requiresConfirmation : bool
}.

(** The fields of the ErrorHandlingService instance and what it reaches.
    [ErrorInfo] objects live in [objects] and are held by reference (their
    index) in [errorLog] and [retryQueue], as the maps of the source hold
    the one object [handleError] keeps mutating. *)
Record ErrorHandlingService : Type := {
  objects : list ErrorInfo;
  errorLog : list (string * nat);
  retryQueue : list (string * (nat * string));
  maxLogSize : nat;
  eh_isOnline : bool;
  next_error_ids : list string;
  eh_now : string;
  refreshSession : Outcome JSON;
  saved_error_log : list (string * ErrorInfo);
  localStorage_keys : list string
}.

Record FallbackStrategy : Type := {
  name : string;
  category : ErrorCategory;
  handler : JsError -> option Context -> M ErrorHandlingService JSON;
  canRetry : bool;
  maxRetries : Z;
  priority : Z
}.

(** What [handleError] resolves to when no strategy succeeded: the object
    literal of [escalateError] / [handleCriticalError], field by field
    ([None]: the field is not there). *)
Record Escalation : Type := {
  r_error : bool;
  r_critical : option bool;
  r_message : option string;
  r_canRetry : option bool;
  r_silent : option bool;
  r_recoveryActions : option (list RecoveryAction);
  r_errorId : option string
}.

Inductive HandleResult : Type :=
| Resolved (result : JSON)
| Escalated (result : Escalation).

Definition set_objects (f : list ErrorInfo -> list ErrorInfo)
    (svc : ErrorHandlingService) : ErrorHandlingService :=
  {| objects := f (objects svc); errorLog := errorLog svc;
     retryQueue := retryQueue svc; maxLogSize := maxLogSize svc;
     eh_isOnline := eh_isOnline svc; next_error_ids := next_error_ids svc;
     eh_now := eh_now svc; refreshSession := refreshSession svc;
     saved_error_log := saved_error_log svc; localStorage_keys := localStorage_keys svc |}.

Definition set_errorLog (f : list (string * nat) -> list (string * nat))
    (svc : ErrorHandlingService) : ErrorHandlingService :=
  {| objects := objects svc; errorLog := f (errorLog svc);
     retryQueue := retryQueue svc; maxLogSize := maxLogSize svc;
     eh_isOnline := eh_isOnline svc; next_error_ids := next_error_ids svc;
     eh_now := eh_now svc; refreshSession := refreshSession svc;
     saved_error_log := saved_error_log svc; localStorage_keys := localStorage_keys svc |}.

Definition set_retryQueue
    (f : list (string * (nat * string)) -> list (string * (nat * string)))
    (svc : ErrorHandlingService) : ErrorHandlingService :=
  {| objects := objects svc; errorLog := errorLog svc;
     retryQueue := f (retryQueue svc); maxLogSize := maxLogSize svc;
     eh_isOnline := eh_isOnline svc; next_error_ids := next_error_ids svc;
     eh_now := eh_now svc; refreshSession := refreshSession svc;
     saved_error_log := saved_error_log svc; localStorage_keys := localStorage_keys svc |}.

Definition set_next_error_ids (f : list string -> list string)
    (svc : ErrorHandlingService) : ErrorHandlingService :=
  {| objects := objects svc; errorLog := errorLog svc;
     retryQueue := retryQueue svc; maxLogSize := maxLogSize svc;
     eh_isOnline := eh_isOnline svc; next_error_ids := f (next_error_ids svc);
     eh_now := eh_now svc; refreshSession := refreshSession svc;
     saved_error_log := saved_error_log svc; localStorage_keys := localStorage_keys svc |}.

Definition set_saved_error_log (l : list (string * ErrorInfo))
    (svc : ErrorHandlingService) : ErrorHandlingService :=
  {| objects := objects svc; errorLog := errorLog svc;
     retryQueue := retryQueue svc; maxLogSize := maxLogSize svc;
     eh_isOnline := eh_isOnline svc; next_error_ids := next_error_ids svc;
     eh_now := eh_now svc; refreshSession := refreshSession svc;
     saved_error_log := l; localStorage_keys := localStorage_keys svc |}.

Definition set_localStorage_keys (f : list string -> list string)
    (svc : ErrorHandlingService) : ErrorHandlingService :=
  {| objects := objects svc; errorLog := errorLog svc;
     retryQueue := retryQueue svc; maxLogSize := maxLogSize svc;
     eh_isOnline := eh_isOnline svc; next_error_ids := next_error_ids svc;
     eh_now := eh_now svc; refreshSession := refreshSession svc;
     saved_error_log := saved_error_log svc; localStorage_keys := f (localStorage_keys svc) |}.

(** Reads the object a reference points to. *)
Definition deref (ref : nat) (svc : ErrorHandlingService) : option ErrorInfo :=
  objects svc !! ref.

(** Assigns to fields of the object a reference points to. *)
Definition mutate (ref : nat) (f : ErrorInfo -> ErrorInfo)
  : M ErrorHandlingService unit :=
  modify (set_objects (alter f ref)).

(** [generateErrorId()]: the clock and [Math.random()] are the boundary's. *)
Definition generateErrorId : M ErrorHandlingService string :=
  fun svc =>
    match next_error_ids svc with
    | [] => (Ok "error_0_000000000", svc)
    | i :: rest => (Ok i, set_next_error_ids (fun _ => rest) svc)
    end.

Definition is_sensitive_key (key : string) : bool :=
  let k := toLowerCase key in
  includes "password" k || includes "token" k || includes "secret" k
  || includes "key" k.

Definition sanitize_entry (kv : string * JSON) : string * JSON :=
  let (key, value) := kv in
  if is_sensitive_key key then (key, JStr "[REDACTED]")
  else match value with
       | JStr str =>
           if (1000 <? String.length str)%nat
           then (key, JStr (substring_to 1000 str +:+ "...[TRUNCATED]"))
           else (key, value)
       | _ => (key, value)
       end.

Definition sanitizeContext (_context : option Context) : option Context :=
  match _context with
  | None => None
  | Some c => Some {| entries := List.map sanitize_entry (entries c);
                      retryFunction := retryFunction c |}
  end.

(** [categoryRetries[category] || 1] *)
Definition getMaxRetriesForCategory (c : ErrorCategory) : Z :=
  match c with
  | network => 3 | authentication => 2 | encryption => 1 | storage => 2
  | validation => 1 | sync => 3 | compliance => 1
  | user_action => 1
  | system => 2
  end.

(** [_context?.[key]] *)
Definition context_get (_context : option Context) (key : string) : JSON :=
  match _context with
  | None => JNull
  | Some c =>
      match List.find (fun kv => String.eqb (fst kv) key) (entries c) with
      | Some kv => snd kv
      | None => JNull
      end
  end.

(** Builds the [ErrorInfo] object and yields the reference to it. *)
Definition createErrorInfo (error : JsError) (cat : ErrorCategory)
    (sev : ErrorSeverity) (_context : option Context)
  : M ErrorHandlingService nat :=
  let! id := generateErrorId in
  let! stamp := gets eh_now in
  let! ref := gets (fun svc => List.length (objects svc)) in
  modify (set_objects (fun objs => objs ++
    [ {| ei_id := id; ei_message := message error; ei_category := cat;
         ei_severity := sev; ei_timestamp := stamp;
         ei_userId := context_get _context "userId";
         ei_context := sanitizeContext _context;
         ei_resolved := false; ei_retryCount := 0;
         ei_maxRetries := getMaxRetriesForCategory cat |} ])) >>
  ret ref.

(** [Array.from(this.errorLog.entries()).slice(-100)], by value. *)
Definition saveErrorLog : M ErrorHandlingService unit :=
  modify (fun svc =>
    let all :=
      omap (fun p => match deref (snd p) svc with
                     | Some info => Some (fst p, info)
                     | None => None
                     end) (errorLog svc) in
    set_saved_error_log (skipn (List.length all - 100) all) svc).

Definition timestamp_of (svc : ErrorHandlingService) (p : string * nat) : Z :=
  match deref (snd p) svc with
  | Some info => default 0%Z (Date_getTime (ei_timestamp info))
  | None => 0%Z
  end.

Definition logError (ref : nat) : M ErrorHandlingService unit :=
  let! info := gets (deref ref) in
  match info with
  | None => ret tt
  | Some errorInfo =>
      modify (set_errorLog (Map_set (ei_id errorInfo) ref)) >>
      modify (fun svc =>
        let size := List.length (errorLog svc) in
        if (maxLogSize svc <? size)%nat then
          let oldestEntries :=
            firstn (size - maxLogSize svc)
                   (sort_by (timestamp_of svc) (errorLog svc)) in
          set_errorLog (fun log =>
            List.fold_left (fun l p => Map_delete (fst p) l) oldestEntries log) svc
        else svc) >>
      saveErrorLog
  end.

Definition updateErrorInfo (ref : nat) : M ErrorHandlingService unit :=
  let! info := gets (deref ref) in
  match info with
  | None => ret tt
  | Some errorInfo =>
      modify (set_errorLog (Map_set (ei_id errorInfo) ref)) >>
      saveErrorLog
  end.

Definition queueForRetry (ref : nat) (strategy : FallbackStrategy)
  : M ErrorHandlingService unit :=
  mutate ref (fun e =>
    {| ei_id := ei_id e; ei_message := ei_message e;
       ei_category := ei_category e; ei_severity := ei_severity e;
       ei_timestamp := ei_timestamp e; ei_userId := ei_userId e;
       ei_context := ei_context e; ei_resolved := ei_resolved e;
       ei_retryCount := (ei_retryCount e + 1)%Z;
       ei_maxRetries := ei_maxRetries e |}) >>
  let! info := gets (deref ref) in
  match info with
  | None => ret tt
  | Some errorInfo =>
      modify (set_retryQueue (Map_set (ei_id errorInfo) (ref, name strategy)))
  end.

(** [errorInfo.resolved = true] *)
Definition mark_resolved (ref : nat) : M ErrorHandlingService unit :=
  mutate ref (fun e =>
    {| ei_id := ei_id e; ei_message := ei_message e;
       ei_category := ei_category e; ei_severity := ei_severity e;
       ei_timestamp := ei_timestamp e; ei_userId := ei_userId e;
       ei_context := ei_context e; ei_resolved := true;
       ei_retryCount := ei_retryCount e;
       ei_maxRetries := ei_maxRetries e |}).

Definition restart_app : RecoveryAction :=
  {| ra_name := "restart_app"; description := "Restart the application";
     isDestructive := false; requiresConfirmation := true |}.

Definition generateRecoveryActions (errorInfo : ErrorInfo) : list RecoveryAction :=
  match ei_category errorInfo with
  | encryption =>
      [ {| ra_name := "reset_encryption";
           description := "Reset encryption keys (will require re-login)";
           isDestructive := true; requiresConfirmation := true |} ]
  | storage =>
      [ {| ra_name := "clear_cache"; description := "Clear application cache";
           isDestructive := false; requiresConfirmation := false |} ]
  | sync =>
      [ {| ra_name := "force_resync";
           description := "Force complete data resynchronization";
           isDestructive := false; requiresConfirmation := true |} ]
  | network =>
      [ {| ra_name := "retry_connection";
           description := "Retry network connection";
           isDestructive := false; requiresConfirmation := false |} ]
  | _ => []
  end ++ [restart_app].

Definition handleCriticalError (errorInfo : ErrorInfo) : Escalation :=
  {| r_error := true; r_critical := Some true;
     r_message := Some (ei_message errorInfo);
     r_canRetry := None; r_silent := None;
     r_recoveryActions := Some (generateRecoveryActions errorInfo);
     r_errorId := Some (ei_id errorInfo) |}.

Definition escalateError (errorInfo : ErrorInfo) : Escalation :=
  match ei_severity errorInfo with
  | critical => handleCriticalError errorInfo
  | high =>
      {| r_error := true; r_critical := None;
         r_message := Some (ei_message errorInfo);
         r_canRetry := Some true; r_silent := None;
         r_recoveryActions := None; r_errorId := None |}
  | medium =>
      {| r_error := true; r_critical := None;
         r_message := Some (ei_message errorInfo);
         r_canRetry := None; r_silent := Some true;
         r_recoveryActions := None; r_errorId := None |}
  | low =>
      {| r_error := true; r_critical := None; r_message := None;
         r_canRetry := None; r_silent := Some true;
         r_recoveryActions := None; r_errorId := None |}
  end.

(** The loop over the applicable strategies.  Besides what the source
    returns ([Some result] when a strategy succeeded), it yields the names
    of the strategies whose handler it called, in call order. *)
Fixpoint try_strategies (ref : nat) (error : JsError) (_context : option Context)
    (strategies : list FallbackStrategy) (tried : list string)
  : M ErrorHandlingService (list string * option JSON) :=
  match strategies with
  | [] => ret (tried, None)
  | strategy :: rest =>
      let! outcome :=
        try_catch
          (let! result := handler strategy error _context in
           mark_resolved ref >>
           updateErrorInfo ref >>
           ret (Some result))
          (fun _strategyError =>
             let! info := gets (deref ref) in
             (match info with
              | Some errorInfo =>
                  if canRetry strategy
                     && (ei_retryCount errorInfo <? maxRetries strategy)%Z
                  then queueForRetry ref strategy
                  else ret tt
              | None => ret tt
              end) >>
             ret None) in
      match outcome with
      | Some result => ret (tried ++ [name strategy], Some result)
      | None => try_strategies ref error _context rest (tried ++ [name strategy])
      end
  end.

(** [this.fallbackStrategies.filter(...).sort(...)] *)
Definition applicable_strategies (fallbackStrategies : list FallbackStrategy)
    (cat : ErrorCategory) : list FallbackStrategy :=
  sort_by priority
    (List.filter (fun strategy => ErrorCategory_eqb (category strategy) cat)
                 fallbackStrategies).

(** A registered listener: a callback on the error record. *)
Definition Listener : Type := nat -> M ErrorHandlingService unit.

(** [this.listeners.forEach(callback => { try { callback(errorInfo) }
    catch (error) { console.error(...) } })] *)
Definition ErrorHandlingService_notifyListeners (listeners : list Listener)
    (ref : nat) : M ErrorHandlingService unit :=
  for_each listeners (fun callback => try_catch (callback ref) (fun _ => ret tt)).

(** [handleError], with the names of the strategies it tried. *)
Definition handleError_tried (fallbackStrategies : list FallbackStrategy)
    (listeners : list Listener)
    (error : JsError) (cat : ErrorCategory) (sev : ErrorSeverity)
    (_context : option Context)
  : M ErrorHandlingService (list string * HandleResult) :=
  let! ref := createErrorInfo error cat sev _context in
  logError ref >>
  ErrorHandlingService_notifyListeners listeners ref >>
  let strategies := applicable_strategies fallbackStrategies cat in
  let! run := try_strategies ref error _context strategies [] in
  match snd run with
  | Some result => ret (fst run, Resolved result)
  | None =>
      let! info := gets (deref ref) in
      match info with
      | Some errorInfo => ret (fst run, Escalated (escalateError errorInfo))
      | None => throw (new_Error "Cannot read properties of undefined")
      end
  end.

Definition handleError (fallbackStrategies : list FallbackStrategy)
    (listeners : list Listener)
    (error : JsError) (cat : ErrorCategory) (sev : ErrorSeverity)
    (_context : option Context) : M ErrorHandlingService HandleResult :=
  let! r := handleError_tried fallbackStrategies listeners error cat sev _context in
  ret (snd r).

(** [errorDate < weekAgo] on two [Date]s. *)
Definition older_than_a_week (nowStamp stamp : string) : bool :=
  match Date_getTime stamp, Date_getTime nowStamp with
  | Some t, Some n => (t <? n - 7 * 24 * 60 * 60 * 1000)%Z
  | _, _ => false
  end.

Definition cleanupStorageSpace : M ErrorHandlingService unit :=
  modify (fun svc =>
    let is_old := fun (p : string * nat) =>
      match deref (snd p) svc with
      | Some info => older_than_a_week (eh_now svc) (ei_timestamp info)
                     && ei_resolved info
      | None => false
      end in
    let oldErrors := List.filter is_old (errorLog svc) in
    set_errorLog (fun log =>
      List.fold_left (fun l p => Map_delete (fst p) l) oldErrors log) svc) >>
  modify (set_localStorage_keys (List.filter (fun key =>
    negb (String.prefix "cache_" key || String.prefix "temp_" key)))).

(** [initializeFallbackStrategies]: the registry of the service. *)
Definition initializeFallbackStrategies : list FallbackStrategy :=
  [ {| name := "network_retry"; category := network; canRetry := true;
       maxRetries := 3; priority := 1;
       handler := fun _error __context =>
         match __context with
         | Some c => match retryFunction c with
                     | Some o => fun svc => (o, svc)
                     | None => ret JNull
                     end
         | None => ret JNull
         end |};
    {| name := "offline_mode"; category := network; canRetry := false;
       maxRetries := 0; priority := 2;
       handler := fun _error __context =>
         ret (JObj [("mode", JStr "offline");
                    ("data", context_get __context "fallbackData")]) |};
    {| name := "token_refresh"; category := authentication; canRetry := true;
       maxRetries := 2; priority := 1;
       handler := fun _error _ =>
         try_catch (fun svc => (refreshSession svc, svc))
                   (fun _ => throw (new_Error "Token refresh failed")) |};
    {| name := "reauth_required"; category := authentication; canRetry := false;
       maxRetries := 0; priority := 2;
       handler := fun _error _ => ret (JObj [("requiresReauth", JBool true)]) |};
    {| name := "encryption_key_regenerate"; category := encryption;
       canRetry := true; maxRetries := 1; priority := 1;
       handler := fun _error _ => ret (JObj [("keyRegenerated", JBool true)]) |};
    {| name := "encryption_fallback"; category := encryption; canRetry := false;
       maxRetries := 0; priority := 2;
       handler := fun _error __context =>
         ret (JObj [("encryptionDisabled", JBool true);
                    ("data", context_get __context "plainData")]) |};
    {| name := "storage_cleanup"; category := storage; canRetry := true;
       maxRetries := 1; priority := 1;
       handler := fun _error _ =>
         cleanupStorageSpace >> ret (JObj [("storageCleanedUp", JBool true)]) |};
    {| name := "localStorage_fallback"; category := storage; canRetry := false;
       maxRetries := 0; priority := 2;
       handler := fun _error _ => ret (JObj [("useLocalStorageOnly", JBool true)]) |};
    {| name := "partial_sync"; category := sync; canRetry := true;
       maxRetries := 2; priority := 1;
       handler := fun _error _ => ret (JObj [("partialSyncAttempted", JBool true)]) |};
    {| name := "queue_for_later"; category := sync; canRetry := false;
       maxRetries := 0; priority := 2;
       handler := fun _error _ => ret (JObj [("queuedForLater", JBool true)]) |} ].

(* --------------------------------------------------------------------- *)
(** *** dataService.ts: HybridDataService, the sync queue                  *)
(* --------------------------------------------------------------------- *)

(** The body of the loop of [processSyncQueue]. *)
Definition sync_queued (entry : string * QueuedWrite) : M World unit :=
  let (queueKey, queueData) := entry in
  try_catch
    (SupabaseStorageBackend_set (qw_key queueData) (qw_data queueData)
                                (qw_userId queueData) >>
     modify (set_syncQueue (Map_delete queueKey)))
    (fun _ => ret tt).

Definition processSyncQueue : M World unit :=
  let! online := gets isOnline in
  let! queue := gets syncQueue in
  if negb online || (List.length queue =? 0)%nat then ret tt
  else
    let entries := queue in
    for_each entries sync_queued.

(** The keys [syncAllData] goes through. *)
Definition dataKeys : list string :=
  ["username"; "goals"; "achievements"; "skills"; "skillsList";
   "skillsCompleted"; "calendarNotes"; "symptoms"; "wordFiles"; "favorites";
   "points"].

(** [{ success: string[]; failed: string[] }] *)
Record SyncAllResult : Type := {
  sa_success : list string;
  sa_failed : list string
}.

(** The body of the loop of [syncAllData]. *)
Definition sync_key (userId : string) (results : SyncAllResult) (key : string)
  : M World SyncAllResult :=
  try_catch
    (let! localData := LocalStorageBackend_get key userId in
     if negb (is_null localData) then
       SupabaseStorageBackend_set key localData userId >>
       ret {| sa_success := sa_success results ++ [key];
              sa_failed := sa_failed results |}
     else ret results)
    (fun _ =>
       ret {| sa_success := sa_success results;
              sa_failed := sa_failed results ++ [key] |}).

Fixpoint sync_keys (userId : string) (results : SyncAllResult)
    (keys : list string) : M World SyncAllResult :=
  match keys with
  | [] => ret results
  | key :: rest =>
      let! results' := sync_key userId results key in
      sync_keys userId results' rest
  end.

Definition syncAllData (userId : string) : M World SyncAllResult :=
  sync_keys userId {| sa_success := []; sa_failed := [] |} dataKeys.

(* --------------------------------------------------------------------- *)
(** *** syncService.ts: manual conflict resolution                         *)
(* --------------------------------------------------------------------- *)

Inductive ManualResolution : Type :=
| use_local | use_remote | merge.

(** [mergedData] is [JNull] when the argument is left out. *)
Definition resolveConflictManually (conflictKey : string)
    (resolution : ManualResolution) (mergedData : JSON) : M World bool :=
  let! pending := gets (fun w => pendingConflicts (syncService w)) in
  match Map_get conflictKey pending with
  | None =>
      throw (new_Error ("No pending conflict found for key: " +:+ conflictKey))
  | Some c =>
      try_catch
        (let! user := getUser in
         match user with
         | None => throw (new_Error "No authenticated user")
         | Some user_id =>
             let! timestamp := gets now in
             let! finalData :=
               match resolution with
               | use_local => ret (localData c)
               | use_remote => ret (remoteData c)
               | merge =>
                   if falsy mergedData
                   then throw (new_Error "Merged data required for merge resolution")
                   else ret mergedData
               end in
             setData (sc_key c) finalData user_id >>
             storageService_set (sc_key c +:+ "_timestamp") (JStr timestamp) >>
             modify (set_sync (fun svc =>
               set_pendingConflicts (Map_delete conflictKey (pendingConflicts svc))
                                    svc)) >>
             let! remaining := gets (fun w => pendingConflicts (syncService w)) in
             (if (List.length remaining =? 0)%nat then
                modify (set_sync (set_syncStatus idle)) >>
                notifyListeners idle
              else ret tt) >>
             ret true
         end)
        (fun _ => ret false)
  end.

(** [Array.from(this.pendingConflicts.values())] *)
Definition getPendingConflicts : M World (list SyncConflict) :=
  gets (fun w => List.map snd (pendingConflicts (syncService w))).

(* --------------------------------------------------------------------- *)
(** *** complianceService.ts: ComplianceService, tables and scores         *)
(* --------------------------------------------------------------------- *)

Definition ComplianceService_getTableName (dataType : string) : string :=
  if String.eqb dataType "goals" then "user_goals"
  else if String.eqb dataType "achievements" then "user_achievements"
  else if String.eqb dataType "skills" then "user_skills"
  else if String.eqb dataType "calendarNotes" then "user_calendar_notes"
  else if String.eqb dataType "symptoms" then "user_symptoms"
  else if String.eqb dataType "wordFiles" then "user_word_files"
  else "user_profiles".

(** [ComplianceViolation]; its [severity] ranges over the four literals
    of [ErrorSeverity]. *)
Record ComplianceViolation : Type := {
  cv_type : string;
  cv_severity : ErrorSeverity;
  cv_description : string;
  affectedData : list string;
  remediationSteps : list string;
  requiredBy : string
}.

Definition calculateRiskScore (violations : list ComplianceViolation) : Z :=
  let score :=
    List.fold_left (fun score violation =>
      match cv_severity violation with
      | critical => score + 25
      | high => score + 15
      | medium => score + 5
      | low => score + 1
      end)%Z violations 0%Z in
  Z.min 100 score.

(** [set.add(x)] on a [Set] of strings, kept in insertion order. *)
Definition Set_add (x : string) (set : list string) : list string :=
  if existsb (String.eqb x) set then set else set ++ [x].

Definition generateRecommendations (violations : list ComplianceViolation)
  : list string :=
  let recommendations :=
    List.fold_left (fun recommendations violation =>
      List.fold_left (fun recommendations step => Set_add step recommendations)
                     (remediationSteps violation) recommendations)
      violations [] in
  if (0 <? List.length violations)%nat then
    Set_add "Train staff on data protection requirements"
      (Set_add "Implement compliance monitoring dashboard"
         (Set_add "Schedule regular compliance audits" recommendations))
  else recommendations.

(* --------------------------------------------------------------------- *)
(** *** errorHandlingService.ts: statistics                                *)
(* --------------------------------------------------------------------- *)

(** [{ low: 0, medium: 0, high: 0, critical: 0 }] *)
Record SeverityCounts : Type := {
  n_low : nat;
  n_medium : nat;
  n_high : nat;
  n_critical : nat
}.

Record ErrorStatistics : Type := {
  st_total : nat;
  st_bySeverity : SeverityCounts;
  st_byCategory : list (ErrorCategory * nat);
  st_resolved : nat;
  st_unresolved : nat
}.

(** [stats.bySeverity[error.severity]++] *)
Definition count_severity (sev : ErrorSeverity) (c : SeverityCounts)
  : SeverityCounts :=
  match sev with
  | low => {| n_low := S (n_low c); n_medium := n_medium c;
              n_high := n_high c; n_critical := n_critical c |}
  | medium => {| n_low := n_low c; n_medium := S (n_medium c);
                 n_high := n_high c; n_critical := n_critical c |}
  | high => {| n_low := n_low c; n_medium := n_medium c;
               n_high := S (n_high c); n_critical := n_critical c |}
  | critical => {| n_low := n_low c; n_medium := n_medium c;
                   n_high := n_high c; n_critical := S (n_critical c) |}
  end.

(** [stats.byCategory[cat] = (stats.byCategory[cat] || 0) + 1] on an object
    that starts empty: a key is added when it is first met. *)
Fixpoint count_category (cat : ErrorCategory) (m : list (ErrorCategory * nat))
  : list (ErrorCategory * nat) :=
  match m with
  | [] => [(cat, 1%nat)]
  | (c, n) :: rest =>
      if ErrorCategory_eqb c cat then (c, S n) :: rest
      else (c, n) :: count_category cat rest
  end.

(** The body of [errors.forEach] in [getErrorStatistics]. *)
Definition count_error (stats : ErrorStatistics) (e : ErrorInfo)
  : ErrorStatistics :=
  {| st_total := st_total stats;
     st_bySeverity := count_severity (ei_severity e) (st_bySeverity stats);
     st_byCategory := count_category (ei_category e) (st_byCategory stats);
     st_resolved := if ei_resolved e then S (st_resolved stats)
                    else st_resolved stats;
     st_unresolved := if ei_resolved e then st_unresolved stats
                      else S (st_unresolved stats) |}.

(** [Array.from(this.errorLog.values())] *)
Definition logged_errors (svc : ErrorHandlingService) : list ErrorInfo :=
  omap (fun p => deref (snd p) svc) (errorLog svc).

Definition getErrorStatistics : M ErrorHandlingService ErrorStatistics :=
  gets (fun svc =>
    let errors := logged_errors svc in
    List.fold_left count_error errors
      {| st_total := List.length errors;
         st_bySeverity := {| n_low := 0; n_medium := 0; n_high := 0;
                             n_critical := 0 |};
         st_byCategory := [];
         st_resolved := 0;
         st_unresolved := 0 |}).

(* --------------------------------------------------------------------- *)
(** *** Concrete worlds and inputs                                         *)
(* --------------------------------------------------------------------- *)

(** [loadSyncSettings]: the defaults. *)
Definition default_settings : SyncSettings :=
  {| autoSync := true; syncInterval := 300000;
     conflictResolution := latest_timestamp; maxRetries_setting := 3;
     batchSize := 5; healthcareDataPriority := true |}.

Definition idle_syncService : SyncService :=
  {| syncSettings := default_settings; syncStatus := idle;
     lastSyncTime := None; sync_isOnline := true; pendingConflicts := [] |}.

(** What [fetch] throws when the network is down. *)
Definition network_error : JsError := new_Error "Failed to fetch".

(** A plain error object, as the Supabase client hands back. *)
Definition postgrest_error : JsError :=
  mkJsError None "JSON object requested, multiple (or no) rows returned".

(** What [localStorage.setItem] throws when the quota is used up. *)
Definition quota_error : JsError := new_Error "QuotaExceededError".

(** No session has reached the encryption service, and its remote
    procedures are out of reach: it encodes with the fallback. *)
Definition unauthenticated : EncryptionService :=
  {| currentSession := None; env_MODE := "test";
     rpc_encrypt_data := fun _ _ => Throw network_error;
     rpc_decrypt_data := fun _ _ => Throw network_error |}.

(** The session of [u1] has reached the encryption service; the
    server-side procedures answer with an error, as they do where the
    migration is not deployed: the service encodes with the fallback. *)
Definition signed_in : EncryptionService :=
  {| currentSession := Some "u1"; env_MODE := "test";
     rpc_encrypt_data := fun _ _ =>
       Ok (RpcError "function encrypt_data does not exist");
     rpc_decrypt_data := fun _ _ =>
       Ok (RpcError "function decrypt_data does not exist") |}.

(** User [u1] is signed in and online; both stores are empty. *)
Definition world_online : World :=
  {| auth_session := Ok (Some "u1"); auth_user := Ok (Some "u1");
     now := "2025-01-14T00:00:00.000Z";
     encryptionService := signed_in;
     remote_records := ∅; remote_faults := [];
     sync_status := []; status_faults := [];
     offline_changes_queue := []; queue_faults := [];
     localStorage := ∅; local_faults := [];
     isOnline := true; syncQueue := []; syncService := idle_syncService;
     trace := [] |}.

(** One goal, in two versions, with the fields the backend gives a goal
    it reads. *)
Definition goals_A : JSON :=
  JArr [JObj [("id", JStr "g1"); ("text", JStr "A"); ("title", JStr "");
              ("completed", JBool false)]].
Definition goals_B : JSON :=
  JArr [JObj [("id", JStr "g1"); ("text", JStr "B"); ("title", JStr "");
              ("completed", JBool false)]].

(** The instants 100 s and 140 s after the epoch. *)
Definition t100 : string := "1970-01-01T00:01:40.000Z".
Definition t140 : string := "1970-01-01T00:02:20.000Z".

(** The row of [user_goals] that holds a version of the goal: the
    fallback encoding of its JSON text. *)
Definition goal_row (encrypted created : string) : Row :=
  [("is_deleted", JBool false); ("created_at", JStr created);
   ("user_id", JStr "u1"); ("goal_id", JStr "g1");
   ("encrypted_goal_data", JStr encrypted); ("completed", JBool false);
   ("version", JNum 1)].

Definition rows_A : list Row :=
  [goal_row
     "fallback:eyJpZCI6ImcxIiwidGV4dCI6IkEiLCJ0aXRsZSI6IiIsImNvbXBsZXRlZCI6ZmFsc2V9"
     t100].
Definition rows_B : list Row :=
  [goal_row
     "fallback:eyJpZCI6ImcxIiwidGV4dCI6IkIiLCJ0aXRsZSI6IiIsImNvbXBsZXRlZCI6ZmFsc2V9"
     t140].

Definition with_localStorage (m : gmap string JSON) (w : World) : World :=
  set_localStorage (fun _ => m) w.

Definition with_remote_records (m : gmap string (list Row)) (w : World)
  : World :=
  set_remote_records (fun _ => m) w.

Definition with_remote_faults (l : list (option JsError)) (w : World) : World :=
  set_remote_faults (fun _ => l) w.


Definition with_local_faults (l : list (option JsError)) (w : World) : World :=
  set_local_faults (fun _ => l) w.

Definition with_session (s : Outcome (option string)) (w : World) : World :=
  {| auth_session := s; auth_user := auth_user w; now := now w;
     encryptionService := encryptionService w;
     remote_records := remote_records w; remote_faults := remote_faults w;
     sync_status := sync_status w; status_faults := status_faults w;
     offline_changes_queue := offline_changes_queue w;
     queue_faults := queue_faults w; localStorage := localStorage w;
     local_faults := local_faults w; isOnline := isOnline w;
     syncQueue := syncQueue w; syncService := syncService w;
     trace := trace w |}.

Definition with_isOnline (b : bool) (w : World) : World :=
  {| auth_session := auth_session w; auth_user := auth_user w; now := now w;
     encryptionService := encryptionService w;
     remote_records := remote_records w; remote_faults := remote_faults w;
     sync_status := sync_status w; status_faults := status_faults w;
     offline_changes_queue := offline_changes_queue w;
     queue_faults := queue_faults w; localStorage := localStorage w;
     local_faults := local_faults w; isOnline := b; syncQueue := syncQueue w;
     syncService := syncService w; trace := trace w |}.

(** The one [sync_status] row of the goals table, stamped [t]. *)
Definition goals_synced_at (t : string) : list SyncStatusRow :=
  [ {| ss_user_id := "u1"; ss_table_name := "user_goals";
       ss_sync_status := "completed"; ss_error_message := None;
       last_sync_at := t |} ].

(** Local holds version A stamped 100 s, remote holds version B stamped
    140 s. *)
Definition world_diverged : World :=
  set_sync_status (fun _ => goals_synced_at t140)
  (with_remote_records (<["user_goals" := rows_B]> ∅)
  (with_localStorage (<["goals" := goals_A]> (<["goals_timestamp" := JStr t100]> ∅))
   world_online)).

(** Both stores hold version A; the local copy is stamped 100 s, the
    remote one 140 s. *)
Definition world_same_value : World :=
  with_remote_records (<["user_goals" := rows_A]> ∅) world_diverged.

(** Both stores hold version A, both stamped 140 s. *)
Definition world_in_sync : World :=
  with_localStorage (<["goals" := goals_A]> (<["goals_timestamp" := JStr t140]> ∅))
    world_same_value.

Definition conflict_A_B : SyncConflict :=
  {| sc_key := "goals"; sc_table := "user_goals";
     localData := goals_A; remoteData := goals_B;
     localTimestamp := t100; remoteTimestamp := t140;
     conflictType := concurrent_edit |}.

(** Two pending entries of [u1]; the earlier one cannot be stored locally. *)
Definition change_1 : OfflineChange :=
  {| oc_id := "c1"; oc_user_id := "u1"; table_name := "user_goals";
     operation := "update"; encrypted_data := "fallback:W10=";
     queued_at := 1000; processed := false; processed_at := None;
     error_message := None |}.

Definition change_2 : OfflineChange :=
  {| oc_id := "c2"; oc_user_id := "u1"; table_name := "user_goals";
     operation := "delete"; encrypted_data := "fallback:W10=";
     queued_at := 2000; processed := false; processed_at := None;
     error_message := None |}.

Definition world_queued : World :=
  with_local_faults [Some quota_error; Some quota_error]
    (set_offline_changes_queue (fun _ => [change_2; change_1]) world_online).




Definition fresh_errorHandler : ErrorHandlingService :=
  {| objects := []; errorLog := []; retryQueue := []; maxLogSize := 1000;
     eh_isOnline := true; next_error_ids := ["error_1736812800000_k3x9q2m1z"];
     eh_now := "2025-01-14T00:00:00.000Z";
     refreshSession := Throw network_error;
     saved_error_log := []; localStorage_keys := [] |}.



(** The cache holds version A; the remote read fails. *)
Definition world_cached_remote_down : World :=
  with_remote_faults [Some postgrest_error]
    (with_localStorage (<["goals" := goals_A]> ∅) world_online).

(** Offline, with one custom skill cached. *)
Definition world_offline_skills : World :=
  with_isOnline false
    (with_localStorage (<["skillsList" := JArr [JStr "c"]]> ∅) world_online).

Definition world_offline_no_skills : World :=
  with_isOnline false
    (with_localStorage (<["skillsList" := JArr []]> ∅) world_online).

Definition default_skills : list JSON := [JStr "a"; JStr "b"].

(** A listener that throws. *)
Definition throwing_listener : Listener :=
  fun _ => throw (new_Error "listener failed").

(** The session of [u2] is open while data of [u1] is asked for. *)
Definition world_foreign_session : World :=
  with_session (Ok (Some "u2")) world_online.

(** The session lookup itself fails. *)
Definition world_session_lookup_down : World :=
  with_session (Throw network_error) world_online.

(** [world_diverged] under the manual policy. *)
Definition world_diverged_manual : World :=
  set_sync (fun svc =>
    {| syncSettings :=
         {| autoSync := true; syncInterval := 300000;
            conflictResolution := manual; maxRetries_setting := 3;
            batchSize := 5; healthcareDataPriority := true |};
       syncStatus := syncStatus svc; lastSyncTime := lastSyncTime svc;
       sync_isOnline := sync_isOnline svc;
       pendingConflicts := pendingConflicts svc |}) world_diverged.

(** The conflict on the goals is pending, the status is [conflict]. *)
Definition world_conflict_pending : World :=
  set_sync (fun svc =>
    set_syncStatus conflict (set_pendingConflicts [("goals", conflict_A_B)] svc))
    world_diverged_manual.

(** A registry whose first strategy for [validation] throws and whose
    second one succeeds. *)
Definition recovering_registry : list FallbackStrategy :=
  [ {| name := "use_defaults"; category := validation; canRetry := false;
       maxRetries := 0; priority := 3;
       handler := fun _ _ => ret (JObj [("defaults", JBool true)]) |};
    {| name := "revalidate"; category := validation; canRetry := true;
       maxRetries := 1; priority := 2;
       handler := fun _ _ => ret (JObj [("valid", JBool true)]) |};
    {| name := "sanitize_input"; category := validation; canRetry := false;
       maxRetries := 0; priority := 1;
       handler := fun _ _ => throw (new_Error "cannot sanitize") |} ].

(** Two error records; the older one fills a log of size one. *)
Definition old_error : ErrorInfo :=
  {| ei_id := "error_100000_aaaaaaaaa"; ei_message := "Failed to fetch";
     ei_category := network; ei_severity := medium; ei_timestamp := t100;
     ei_userId := JNull; ei_context := None; ei_resolved := true;
     ei_retryCount := 0; ei_maxRetries := 3 |}.

Definition new_error : ErrorInfo :=
  {| ei_id := "error_140000_bbbbbbbbb"; ei_message := "QuotaExceededError";
     ei_category := storage; ei_severity := high; ei_timestamp := t140;
     ei_userId := JNull; ei_context := None; ei_resolved := false;
     ei_retryCount := 0; ei_maxRetries := 1 |}.

Definition full_errorHandler : ErrorHandlingService :=
  {| objects := [old_error; new_error];
     errorLog := [("error_100000_aaaaaaaaa", 0%nat)];
     retryQueue := []; maxLogSize := 1;
     eh_isOnline := true; next_error_ids := [];
     eh_now := "2025-01-14T00:00:00.000Z";
     refreshSession := Throw network_error;
     saved_error_log := []; localStorage_keys := [] |}.

(** A handler that leaves a key in the browser's storage and throws. *)
Definition failing_after (key : string)
  : JsError -> option Context -> M ErrorHandlingService JSON :=
  fun _ _ =>
    modify (set_localStorage_keys (fun keys => keys ++ [key])) >>
    throw (new_Error "failed").

(** Three strategies for [validation] that all throw; the first and the
    third one registered have the same priority. *)
Definition tied_registry : list FallbackStrategy :=
  [ {| name := "revalidate"; category := validation; canRetry := true;
       maxRetries := 1; priority := 2;
       handler := failing_after "tried_revalidate" |};
    {| name := "sanitize_input"; category := validation; canRetry := false;
       maxRetries := 0; priority := 1;
       handler := failing_after "tried_sanitize_input" |};
    {| name := "ask_again"; category := validation; canRetry := false;
       maxRetries := 0; priority := 2;
       handler := failing_after "tried_ask_again" |} ].
(* ===================================================================== *)
(** ** Vocabulary of the statements                                       *)
(* ===================================================================== *)

(** Every run of [m] relates the state it starts in to the one it ends in. *)
Definition respects {S A : Type} (R : S -> S -> Prop) (m : M S A) : Prop :=
  forall w o w', m w = (o, w') -> R w w'.

(** [f] reads the same before and after. *)
Definition keeps {S X : Type} (f : S -> X) (w w' : S) : Prop := f w' = f w.

(** The trace grew by events that all satisfy [P]. *)
Definition emitted (P : Event -> bool) (w w' : World) : Prop :=
  exists evs, trace w' = trace w ++ evs /\ forallb P evs = true.


(** [x] comes no later than [y] under the key [k]. *)
Definition ascending {A : Type} (k : A -> Z) (x y : A) : Prop := (k x <= k y)%Z.





(** Events on the side of the Remote Record Store and the audit sink. *)
Definition is_remote_event (ev : Event) : bool :=
  match ev with
  | EvAudit _ _ _ | EvRemoteRead _ _ | EvRemoteWrite _ _ _
  | EvRemoteDelete _ _ | EvSyncStatus _ _ _ => true
  | _ => false
  end.

(** The local timestamp a pass compares: the stored string, or the epoch. *)
Definition local_timestamp_of (dataType : string) (w : World) : string :=
  match default JNull (localStorage w !! (dataType +:+ "_timestamp")) with
  | JStr s => s
  | _ => epoch_ISO
  end.

(** The severity an escalation result shows by its shape: the
    [critical] flag with recovery actions, [canRetry], a message with
    [silent], or [silent] alone. *)
Definition escalation_severity (r : Escalation) : ErrorSeverity :=
  match r_critical r, r_canRetry r, r_message r with
  | Some true, _, _ => critical
  | _, Some true, _ => high
  | _, _, Some _ => medium
  | _, _, None => low
  end.

(** The object behind [ref] is the record of this error. *)
Definition tracks (ref : nat) (error : JsError) (cat : ErrorCategory)
    (sev : ErrorSeverity) (svc : ErrorHandlingService) : Prop :=
  exists info,
    deref ref svc = Some info
    /\ ei_severity info = sev /\ ei_message info = message error
    /\ ei_category info = cat.

(** What the catch block of the strategy loop does after the handler of
    [strategy] threw in [svc1]: the error is queued for a retry while the
    strategy allows one more, and nothing else changes. *)
Definition after_throw (ref : nat) (strategy : FallbackStrategy)
    (svc1 svc2 : ErrorHandlingService) : Prop :=
  exists info,
    deref ref svc1 = Some info
    /\ if canRetry strategy && (ei_retryCount info <? maxRetries strategy)%Z
       then queueForRetry ref strategy svc1 = (Ok tt, svc2)
       else svc2 = svc1.

(** From [svc] to [svc']: the handler of each strategy of the list is
    called on the error, in the order of the list and in the state the
    strategy before it left; each call throws and is followed by the catch
    block. *)
Inductive called_in_turn (ref : nat) (error : JsError)
    (_context : option Context)
  : list FallbackStrategy -> ErrorHandlingService -> ErrorHandlingService
    -> Prop :=
| called_none (svc : ErrorHandlingService) :
    called_in_turn ref error _context [] svc svc
| called_next (strategy : FallbackStrategy) (rest : list FallbackStrategy)
    (svc svc1 svc2 svc' : ErrorHandlingService) (e : JsError) :
    handler strategy error _context svc = (Throw e, svc1) ->
    after_throw ref strategy svc1 svc2 ->
    called_in_turn ref error _context rest svc2 svc' ->
    called_in_turn ref error _context (strategy :: rest) svc svc'.

(** The Local Cache Store holds a value for the key. *)
Definition cached (w : World) (key : string) : bool :=
  negb (is_null (default JNull (localStorage w !! key))).

(** The kinds [prioritizeHealthcareData] puts first. *)
Definition healthcareTypes : list string := ["symptoms"; "calendarNotes"; "goals"].

(** [l1] is [l2] with some members left out, the others in their order. *)
Inductive subsequence {A : Type} : list A -> list A -> Prop :=
| subsequence_nil : subsequence [] []
| subsequence_keep (x : A) (l1 l2 : list A) :
    subsequence l1 l2 -> subsequence (x :: l1) (x :: l2)
| subsequence_drop (x : A) (l1 l2 : list A) :
    subsequence l1 l2 -> subsequence l1 (x :: l2).

(** The value a manual resolution applies. *)
Definition chosen_data (resolution : ManualResolution) (mergedData : JSON)
    (c : SyncConflict) : JSON :=
  match resolution with
  | use_local => localData c
  | use_remote => remoteData c
  | merge => mergedData
  end.

(** The rotation step of [logError]: when the log is over its bound, the
    oldest entries beyond it are dropped. *)
Definition rotate_log (svc : ErrorHandlingService) : ErrorHandlingService :=
  let size := List.length (errorLog svc) in
  if (maxLogSize svc <? size)%nat then
    let oldestEntries :=
      firstn (size - maxLogSize svc)
             (sort_by (timestamp_of svc) (errorLog svc)) in
    set_errorLog (fun log =>
      List.fold_left (fun l p => Map_delete (fst p) l) oldestEntries log) svc
  else svc.

(** What [saveErrorLog] stores: the last 100 entries of the log. *)
Definition persist_log (svc : ErrorHandlingService) : ErrorHandlingService :=
  let all :=
    omap (fun p => match deref (snd p) svc with
                   | Some info => Some (fst p, info)
                   | None => None
                   end) (errorLog svc) in
  set_saved_error_log (skipn (List.length all - 100) all) svc.

(** The number of errors a [SeverityCounts] stands for. *)
Definition severity_sum (c : SeverityCounts) : nat :=
  n_low c + n_medium c + n_high c + n_critical c.

(** The number of errors of a category among [errors]. *)
Definition errors_of (cat : ErrorCategory) (errors : list ErrorInfo) : nat :=
  List.length (List.filter (fun e => ErrorCategory_eqb (ei_category e) cat) errors).

(** [stats.byCategory[cat]], [0] where the key is absent. *)
Fixpoint category_count (cat : ErrorCategory) (m : list (ErrorCategory * nat))
  : nat :=
  match m with
  | [] => 0
  | (c, n) :: rest =>
      if ErrorCategory_eqb c cat then n else category_count cat rest
  end.


(** The recommendations [generateRecommendations] adds to those of the
    violations. *)
Definition general_recommendations : list string :=
  ["Schedule regular compliance audits";
   "Implement compliance monitoring dashboard";
   "Train staff on data protection requirements"].

(** What a violation adds to the risk score. *)
Definition weight (violation : ComplianceViolation) : Z :=
  match cv_severity violation with
  | critical => 25%Z
  | high => 15%Z
  | medium => 5%Z
  | low => 1%Z
  end.

(** The sum of the weights. *)
Fixpoint total_weight (violations : list ComplianceViolation) : Z :=
  match violations with
  | [] => 0%Z
  | violation :: rest => (weight violation + total_weight rest)%Z
  end.

(** Any event but an entry of the audit log. *)
Definition is_not_audit (ev : Event) : bool :=
  match ev with
  | EvAudit _ _ _ => false
  | _ => true
  end.

(* ===================================================================== *)
(** ** Properties                                                         *)
(* ===================================================================== *)

(** Propositional steps; the built-ins play no part in them. *)
Ltac forget_builtins :=
  try clear JSON_stringify; try clear JSON_parse; try clear btoa;
  try clear atob; try clear Date_getTime.
Ltac prop := forget_builtins; tauto.
Ltac prop_int := forget_builtins; intuition.

(* --------------------------------------------------------------------- *)
(** *** Strings                                                           *)
(* --------------------------------------------------------------------- *)

Lemma prefix_nil (s : string) : String.prefix "" s = true.
Proof. destruct s; reflexivity. Qed.

Lemma fallback_prefix (b : string) :
  String.prefix "fallback:" ("fallback:" +:+ b) = true.
Proof. simpl. apply prefix_nil. Qed.

Lemma fallback_payload (b : string) :
  substring_from 9 ("fallback:" +:+ b) = b.
Proof. reflexivity. Qed.

Lemma detectDataFormat_fallback (b : string) :
  detectDataFormat ("fallback:" +:+ b) = fallback.
Proof.
  unfold detectDataFormat.
  replace (String.eqb ("fallback:" +:+ b) "") with false by reflexivity.
  now rewrite fallback_prefix.
Qed.

(* --------------------------------------------------------------------- *)
(** *** EncryptionService                                                  *)
(* --------------------------------------------------------------------- *)

(** C10 (amended).  Without an authenticated session, for every value [v]
    other than [null] whose JSON text [btoa] accepts and the built-ins carry
    back ([atob] inverts [btoa] on it, [JSON.parse] inverts
    [JSON.stringify] on [v]): [encrypt] yields ['fallback:'] followed by the
    Base64 text, [detectDataFormat] classifies that as [fallback], and
    [decrypt] (whatever the session then is) yields [v]. *)
Theorem fallback_roundtrip (svc svc' : EncryptionService) (v : JSON)
    (userId b64 : string) :
  currentSession svc = None ->
  v <> JNull ->
  btoa (JSON_stringify v) = Ok b64 ->
  atob b64 = Ok (JSON_stringify v) ->
  JSON_parse (JSON_stringify v) = Ok v ->
  encrypt svc v userId = Ok ("fallback:" +:+ b64)
  /\ detectDataFormat ("fallback:" +:+ b64) = fallback
  /\ decrypt svc' ("fallback:" +:+ b64) userId = Ok v.
Proof.
  intros Hsession Hnull Hbtoa Hatob Hparse.
  split; [| split].
  - unfold encrypt, isAuthenticated, fallback_encoding, validateHealthcareData.
    rewrite Hsession, Hbtoa.
    destruct v; [congruence | reflexivity ..].
  - apply detectDataFormat_fallback.
  - unfold decrypt.
    replace (String.eqb ("fallback:" +:+ b64) "") with false by reflexivity.
    rewrite detectDataFormat_fallback.
    unfold decrypt_try.
    rewrite fallback_payload, Hatob, Hparse.
    reflexivity.
Qed.

(* --------------------------------------------------------------------- *)
(** *** SyncService: conflict detection                                    *)
(* --------------------------------------------------------------------- *)

(** C4.  For two values of a kind whose serialisations differ, with
    timestamps at the instants [tl] and [tr] (milliseconds), the conflict
    that [detectConflict] builds is [concurrent_edit] exactly when
    [|tl - tr|] is below 60 seconds, and [update] otherwise. *)
Theorem detectConflict_classification (key : string) (l r : JSON)
    (lts rts : string) (tl tr : Z) :
  JSON_stringify l <> JSON_stringify r ->
  Date_getTime lts = Some tl ->
  Date_getTime rts = Some tr ->
  exists c,
    detectConflict key l r lts rts = Some c
    /\ sc_key c = key /\ localData c = l /\ remoteData c = r
    /\ localTimestamp c = lts /\ remoteTimestamp c = rts
    /\ (conflictType c = concurrent_edit <-> (Z.abs (tl - tr) < 60 * 1000)%Z)
    /\ (conflictType c = update <-> (60 * 1000 <= Z.abs (tl - tr))%Z).
Proof.
  intros Hdiff Hl Hr.
  unfold detectConflict, timeDiff.
  rewrite Hl, Hr.
  destruct (String.eqb_spec (JSON_stringify l) (JSON_stringify r)) as [E | _];
    [contradiction |].
  simpl negb. cbv iota.
  eexists. split; [reflexivity |]. simpl.
  repeat (split; [reflexivity |]).
  destruct (Z.ltb_spec (Z.abs (tl - tr)) 60000) as [Hlt | Hge]; split; split;
    intros H; try reflexivity; try discriminate; lia.
Qed.

(* --------------------------------------------------------------------- *)
(** *** [Array.from(new Set(...))]                                         *)
(* --------------------------------------------------------------------- *)

Lemma sameValueZero_eq (x y : JSON) : sameValueZero x y = true -> x = y.
Proof.
  destruct x, y; simpl; try discriminate; intros H.
  - reflexivity.
  - apply Bool.eqb_prop in H. now subst.
  - apply Z.eqb_eq in H. now subst.
  - apply String.eqb_eq in H. now subst.
Qed.

Lemma sameValueZero_refl (x : JSON) : is_primitive x = true -> sameValueZero x x = true.
Proof.
  destruct x; simpl; try discriminate; intros _.
  - reflexivity.
  - apply Bool.eqb_reflx.
  - apply Z.eqb_refl.
  - apply String.eqb_refl.
Qed.

Lemma seen_In (x : JSON) (seen : list JSON) :
  existsb (sameValueZero x) seen = true -> In x seen.
Proof.
  intros H. apply existsb_exists in H as (y & Hy & E).
  apply sameValueZero_eq in E. now subst.
Qed.

Lemma In_seen (x : JSON) (seen : list JSON) :
  is_primitive x = true -> In x seen -> existsb (sameValueZero x) seen = true.
Proof.
  intros Hp Hin. apply existsb_exists. exists x. split; [assumption |].
  now apply sameValueZero_refl.
Qed.

Lemma Set_insert_all_app (xs ys seen : list JSON) :
  Set_insert_all seen (xs ++ ys) = Set_insert_all (Set_insert_all seen xs) ys.
Proof.
  revert seen. induction xs as [| x xs IH]; intros seen; simpl.
  - reflexivity.
  - destruct (existsb (sameValueZero x) seen); apply IH.
Qed.

Lemma Set_insert_all_extends (xs seen : list JSON) :
  exists extra,
    Set_insert_all seen xs = seen ++ extra
    /\ forall x, In x extra -> In x xs /\ existsb (sameValueZero x) seen = false.
Proof.
  revert seen. induction xs as [| x xs IH]; intros seen; simpl.
  - exists []. split; [now rewrite app_nil_r | intros x []].
  - destruct (existsb (sameValueZero x) seen) eqn:Hx.
    + destruct (IH seen) as (extra & E & Hextra).
      exists extra. split; [assumption |].
      intros y Hy. destruct (Hextra y Hy). auto.
    + destruct (IH (seen ++ [x])) as (extra & E & Hextra).
      exists (x :: extra). split.
      * rewrite E, <- app_assoc. reflexivity.
      * intros y [<- | Hy]; [auto |].
        destruct (Hextra y Hy) as [Hin Hnot]. split; [auto |].
        rewrite existsb_app in Hnot. now apply orb_false_elim in Hnot.
Qed.

Lemma Set_insert_all_In (xs seen : list JSON) (x : JSON) :
  In x (Set_insert_all seen xs) <-> In x seen \/ In x xs.
Proof.
  revert seen. induction xs as [| y xs IH]; intros seen; simpl.
  - prop.
  - destruct (existsb (sameValueZero y) seen) eqn:Hy; rewrite IH.
    + apply seen_In in Hy. split; [prop |].
      intros [H | [<- | H]]; auto.
    + rewrite in_app_iff. simpl. prop.
Qed.

Lemma NoDup_snoc {A : Type} (l : list A) (x : A) :
  List.NoDup l -> ~ In x l -> List.NoDup (l ++ [x]).
Proof.
  induction l as [| y l IH]; simpl; intros Hnd Hx.
  - constructor; [intros [] | constructor].
  - inversion Hnd as [| ? ? Hy Hl]; subst. constructor.
    + rewrite in_app_iff. simpl. intros [H | [H | []]]; [auto |].
      subst. apply Hx. now left.
    + apply IH; [assumption |]. intros H. apply Hx. now right.
Qed.

Lemma Set_insert_all_NoDup (xs seen : list JSON) :
  forallb is_primitive xs = true ->
  List.NoDup seen -> List.NoDup (Set_insert_all seen xs).
Proof.
  revert seen. induction xs as [| x xs IH]; intros seen Hp Hseen; simpl.
  - assumption.
  - simpl in Hp. apply andb_prop in Hp as [Hx Hxs].
    destruct (existsb (sameValueZero x) seen) eqn:E.
    + now apply IH.
    + apply IH; [assumption |].
      apply NoDup_snoc; [assumption |].
      intros Hin. apply (In_seen _ _ Hx) in Hin. congruence.
Qed.

Lemma Set_insert_all_id (xs seen : list JSON) :
  forallb is_primitive xs = true ->
  List.NoDup (seen ++ xs) -> Set_insert_all seen xs = seen ++ xs.
Proof.
  revert seen. induction xs as [| x xs IH]; intros seen Hp Hnd; simpl.
  - now rewrite app_nil_r.
  - simpl in Hp. apply andb_prop in Hp as [Hx Hxs].
    destruct (existsb (sameValueZero x) seen) eqn:E.
    + apply seen_In in E. apply List.NoDup_remove_2 in Hnd.
      exfalso. apply Hnd. rewrite in_app_iff. now left.
    + rewrite IH; [now rewrite <- app_assoc | assumption |].
      now rewrite <- app_assoc.
Qed.

(* --------------------------------------------------------------------- *)
(** *** Frames: what a computation leaves alone                            *)
(* --------------------------------------------------------------------- *)

Lemma respects_ret {S A : Type} (R : S -> S -> Prop) `{!Reflexive R} (a : A) :
  respects R (ret a).
Proof. intros w o w' H. inversion H. reflexivity. Qed.

Lemma respects_throw {S A : Type} (R : S -> S -> Prop) `{!Reflexive R} (e : JsError) :
  respects R (@throw S A e).
Proof. intros w o w' H. inversion H. reflexivity. Qed.

Lemma respects_gets {S A : Type} (R : S -> S -> Prop) `{!Reflexive R} (f : S -> A) :
  respects R (gets f).
Proof. intros w o w' H. inversion H. reflexivity. Qed.

Lemma respects_modify {S : Type} (R : S -> S -> Prop) (f : S -> S) :
  (forall w, R w (f w)) -> respects R (modify f).
Proof. intros Hf w o w' H. inversion H. apply Hf. Qed.

Lemma respects_bind {S A B : Type} (R : S -> S -> Prop) `{!Transitive R}
    (m : M S A) (k : A -> M S B) :
  respects R m -> (forall a, respects R (k a)) -> respects R (bind m k).
Proof.
  intros Hm Hk w o w'. unfold bind.
  destruct (m w) as [[a | e] w1] eqn:E; intros H.
  - transitivity w1; [eapply Hm | eapply Hk]; eassumption.
  - inversion H; subst. eapply Hm; eassumption.
Qed.

Lemma respects_try_catch {S A : Type} (R : S -> S -> Prop) `{!Transitive R}
    (m : M S A) (h : JsError -> M S A) :
  respects R m -> (forall e, respects R (h e)) -> respects R (try_catch m h).
Proof.
  intros Hm Hh w o w'. unfold try_catch.
  destruct (m w) as [[a | e] w1] eqn:E; intros H.
  - inversion H; subst. eapply Hm; eassumption.
  - transitivity w1; [eapply Hm | eapply Hh]; eassumption.
Qed.

Lemma respects_lift {S A : Type} (R : S -> S -> Prop) `{!Reflexive R}
    (o : Outcome A) :
  respects R (@lift S A o).
Proof. intros w o' w' H. inversion H. reflexivity. Qed.

Lemma respects_for_each {S A : Type} (R : S -> S -> Prop) `{!PreOrder R}
    (xs : list A) (body : A -> M S unit) :
  (forall x, respects R (body x)) -> respects R (for_each xs body).
Proof.
  intros Hbody. induction xs as [| x xs IH]; simpl.
  - apply respects_ret; typeclasses eauto.
  - apply respects_bind; [typeclasses eauto | apply Hbody | intros _; apply IH].
Qed.

#[local] Instance keeps_PreOrder {S X : Type} (f : S -> X) : PreOrder (keeps f).
Proof.
  split.
  - intros w. reflexivity.
  - intros a b c Hab Hbc. unfold keeps in *. congruence.
Qed.

#[local] Instance emitted_PreOrder (P : Event -> bool) : PreOrder (emitted P).
Proof.
  split.
  - intros w. exists []. split; [now rewrite app_nil_r | reflexivity].
  - intros a b c (e1 & H1 & P1) (e2 & H2 & P2). exists (e1 ++ e2). split.
    + rewrite H2, H1. now rewrite app_assoc.
    + rewrite forallb_app. now rewrite P1, P2.
Qed.

(** The operations the services are built from. *)
Ltac respects_base :=
  unfold respects, keeps, emitted, emit, modify, getSession, getUser,
         next_remote_fault, next_status_fault, next_queue_fault,
         next_local_fault;
  let w := fresh "w" in let H := fresh "H" in
  intros w ? ? H;
  repeat match type of H with
         | context [match ?x with _ => _ end] => destruct x
         end;
  inversion H; subst; simpl;
  first [ reflexivity
        | exists []; split; [now rewrite app_nil_r | reflexivity]
        | eexists; split; reflexivity ].

Ltac respects_step :=
  match goal with
  | |- respects _ (ret _) => apply respects_ret; typeclasses eauto
  | |- respects _ (throw _) => apply respects_throw; typeclasses eauto
  | |- respects _ (gets _) => apply respects_gets; typeclasses eauto
  | |- respects _ (lift _) => apply respects_lift; typeclasses eauto
  | |- respects _ (bind _ _) =>
      apply respects_bind; [typeclasses eauto | | intros ?]
  | |- respects _ (try_catch _ _) =>
      apply respects_try_catch; [typeclasses eauto | | intros ?]
  | |- respects _ (for_each _ _) =>
      apply respects_for_each; [typeclasses eauto | intros ?]
  | |- respects _ (if ?b then _ else _) => destruct b
  | |- respects _ (match ?x with _ => _ end) => destruct x
  | |- respects _ (modify _) => respects_base
  | |- respects _ (emit _) => respects_base
  | |- respects _ getSession => respects_base
  | |- respects _ getUser => respects_base
  | |- respects _ next_remote_fault => respects_base
  | |- respects _ next_status_fault => respects_base
  | |- respects _ next_queue_fault => respects_base
  | |- respects _ next_local_fault => respects_base
  end.

Create HintDb services discriminated.
#[local] Hint Unfold logDataAccess from_select from_update from_insert
  from_upsert throw_on_error getUserProfileData
  getUserDataFromTable updateSyncStatus SupabaseStorageBackend_get
  upsert_profile mark_replaced setUserProfileData setUserDataInTable
  SupabaseStorageBackend_set SupabaseStorageBackend_remove
  LocalStorageBackend_get LocalStorageBackend_set LocalStorageBackend_remove
  storageService_get storageService_set storageService_remove
  getData getDataSafe queueForSync setData removeData : services.

Ltac respects_tac :=
  repeat first [ respects_step | progress autounfold with services ].





(* --------------------------------------------------------------------- *)
(** *** Sorting by a key                                                  *)
(* --------------------------------------------------------------------- *)

Lemma insert_by_In {A : Type} (k : A -> Z) (x y : A) (l : list A) :
  In y (insert_by k x l) <-> y = x \/ In y l.
Proof.
  induction l as [| z l IH]; simpl.
  - prop_int.
  - destruct (k x <=? k z)%Z; simpl; [prop_int |]. rewrite IH. prop_int.
Qed.

Lemma sort_by_In {A : Type} (k : A -> Z) (y : A) (l : list A) :
  In y (sort_by k l) <-> In y l.
Proof.
  induction l as [| x l IH]; simpl; [prop |].
  rewrite insert_by_In, IH. prop_int.
Qed.

Lemma insert_by_Permutation {A : Type} (k : A -> Z) (x : A) (l : list A) :
  Permutation (x :: l) (insert_by k x l).
Proof.
  induction l as [| z l IH]; simpl; [reflexivity |].
  destruct (k x <=? k z)%Z; [reflexivity |].
  rewrite perm_swap. now apply perm_skip.
Qed.

Lemma sort_by_Permutation {A : Type} (k : A -> Z) (l : list A) :
  Permutation l (sort_by k l).
Proof.
  induction l as [| x l IH]; simpl; [reflexivity |].
  rewrite <- insert_by_Permutation. now apply perm_skip.
Qed.

Lemma insert_by_sorted {A : Type} (k : A -> Z) (x : A) (l : list A) :
  StronglySorted (ascending k) l -> StronglySorted (ascending k) (insert_by k x l).
Proof.
  induction l as [| z l IH]; simpl; intros Hs.
  - constructor; [constructor | constructor].
  - inversion Hs as [| ? ? Hl Hz]; subst.
    destruct (Z.leb_spec (k x) (k z)) as [Hlt | Hge].
    + constructor; [assumption |]. constructor; [unfold ascending; lia |].
      rewrite List.Forall_forall in Hz. apply List.Forall_forall. intros y Hy.
      specialize (Hz y Hy). unfold ascending in *. lia.
    + constructor; [now apply IH |].
      apply List.Forall_forall. intros y Hy. apply insert_by_In in Hy as [-> | Hy].
      * unfold ascending; lia.
      * rewrite List.Forall_forall in Hz. now apply Hz.
Qed.

Lemma sort_by_sorted {A : Type} (k : A -> Z) (l : list A) :
  StronglySorted (ascending k) (sort_by k l).
Proof.
  induction l as [| x l IH]; simpl; [constructor | now apply insert_by_sorted].
Qed.

(** The sort is stable: the elements under one key come out in the order
    they went in. *)
Lemma insert_by_stable {A : Type} (k : A -> Z) (c : Z) (x : A) (l : list A) :
  List.filter (fun y => (k y =? c)%Z) (insert_by k x l)
  = List.filter (fun y => (k y =? c)%Z) (x :: l).
Proof.
  induction l as [| z l IH]; [reflexivity |].
  cbn [insert_by]. destruct (Z.leb_spec (k x) (k z)) as [Hle | Hgt];
    [reflexivity |].
  cbn [List.filter] in *. rewrite IH.
  destruct (Z.eqb_spec (k z) c) as [Hz | Hz];
    destruct (Z.eqb_spec (k x) c) as [Hx | Hx]; try reflexivity.
  lia.
Qed.

Lemma sort_by_stable {A : Type} (k : A -> Z) (c : Z) (l : list A) :
  List.filter (fun y => (k y =? c)%Z) (sort_by k l)
  = List.filter (fun y => (k y =? c)%Z) l.
Proof.
  induction l as [| x l IH]; [reflexivity |].
  cbn [sort_by List.fold_right]. fold (sort_by k l).
  rewrite insert_by_stable. cbn [List.filter]. now rewrite IH.
Qed.


(* --------------------------------------------------------------------- *)
(** *** SyncService: draining the Offline Change Queue                     *)
(* --------------------------------------------------------------------- *)















(* --------------------------------------------------------------------- *)
(** *** SyncService: single flight                                         *)
(* --------------------------------------------------------------------- *)

(* --------------------------------------------------------------------- *)
(** *** HybridDataService: reads                                           *)
(* --------------------------------------------------------------------- *)

Lemma invalid_userId_message (userId : option string) :
  is_critical_auth_error
    (new_Error ("Invalid userId provided for getData: " +:+ show_userId userId))
  = true.
Proof. unfold is_critical_auth_error. simpl. apply orb_true_r. Qed.

Lemma logDataAccess_mismatch (action tableName userId : string) (w : World)
    (session : option string) :
  auth_session w = Ok session -> session_differs session userId = true ->
  logDataAccess action tableName userId w = (Throw session_mismatch, w).
Proof.
  intros Hs Hd. unfold logDataAccess, try_catch, bind, getSession.
  rewrite Hs, Hd. reflexivity.
Qed.

Lemma SupabaseStorageBackend_get_mismatch (key userId : string) (w : World)
    (session : option string) :
  auth_session w = Ok session -> session_differs session userId = true ->
  SupabaseStorageBackend_get key userId w = (Throw session_mismatch, w).
Proof.
  intros Hs Hd. unfold SupabaseStorageBackend_get, try_catch.
  destruct (trim_is_empty userId).
  - unfold throw at 1, bind. now rewrite (logDataAccess_mismatch _ _ _ _ _ Hs Hd).
  - unfold bind. now rewrite !(logDataAccess_mismatch _ _ _ _ _ Hs Hd).
Qed.

Lemma SupabaseStorageBackend_get_keeps_localStorage (key userId : string) :
  respects (keeps localStorage) (SupabaseStorageBackend_get key userId).
Proof. respects_tac. Qed.

(** C2.  A read

    - with an absent or invalid owner id throws at once and touches
      nothing;
    - made online under a session whose user is not the requested owner
      (or under no session) throws the mismatch error of the remote
      attempt and touches nothing: the Local Cache Store is not read;
    - whose remote attempt fails with any other error (one that
      [is_critical_auth_error] does not recognise) resolves to what the
      Local Cache Store holds for the kind ([null] when nothing) and does
      not throw. *)
Theorem getData_propagates_or_falls_back (key : string) (w : World) :
  (forall userId, invalid_userId userId = true ->
     exists e, getData key userId w = (Throw e, w)
               /\ is_critical_auth_error e = true)
  /\ (forall uid session,
        invalid_userId (Some uid) = false -> isOnline w = true ->
        auth_session w = Ok session -> session_differs session uid = true ->
        getData key (Some uid) w = (Throw session_mismatch, w))
  /\ (forall uid e w1,
        invalid_userId (Some uid) = false -> isOnline w = true ->
        SupabaseStorageBackend_get key uid w = (Throw e, w1) ->
        is_critical_auth_error e = false ->
        getData key (Some uid) w = (Ok (default JNull (localStorage w !! key)), w1)
        /\ localStorage w1 = localStorage w).
Proof.
  split; [| split].
  - intros userId Hinv. eexists. unfold getData. rewrite Hinv.
    split; [reflexivity | apply invalid_userId_message].
  - intros uid session Hvalid Honline Hs Hd.
    unfold getData. rewrite Hvalid.
    unfold try_catch, bind, gets. rewrite Honline. simpl show_userId.
    now rewrite (SupabaseStorageBackend_get_mismatch _ _ _ _ Hs Hd).
  - intros uid e w1 Hvalid Honline Hget Hother.
    pose proof (SupabaseStorageBackend_get_keeps_localStorage _ _ _ _ _ Hget) as Hkeep.
    unfold keeps in Hkeep. split; [| assumption].
    unfold getData. rewrite Hvalid.
    unfold try_catch, bind, gets. rewrite Honline. simpl show_userId.
    rewrite Hget, Hother.
    unfold LocalStorageBackend_get, storageService_get, gets. now rewrite Hkeep.
Qed.

(* --------------------------------------------------------------------- *)
(** *** HybridDataService: writes                                          *)
(* --------------------------------------------------------------------- *)

Lemma SupabaseStorageBackend_set_emits (key : string) (data : JSON) (userId : string) :
  respects (emitted is_remote_event) (SupabaseStorageBackend_set key data userId).
Proof. respects_tac. Qed.

Lemma SupabaseStorageBackend_set_keeps_localStorage (key : string) (data : JSON)
    (userId : string) :
  respects (keeps localStorage) (SupabaseStorageBackend_set key data userId).
Proof. respects_tac. Qed.

Lemma SupabaseStorageBackend_set_keeps_syncQueue (key : string) (data : JSON)
    (userId : string) :
  respects (keeps syncQueue) (SupabaseStorageBackend_set key data userId).
Proof. respects_tac. Qed.

Lemma SupabaseStorageBackend_set_keeps_local_faults (key : string) (data : JSON)
    (userId : string) :
  respects (keeps local_faults) (SupabaseStorageBackend_set key data userId).
Proof. respects_tac. Qed.

(** The local write when the browser accepts it. *)
Lemma storageService_set_ok (key : string) (data : JSON) (w : World) :
  hd None (local_faults w) = None ->
  exists w',
    storageService_set key data w = (Ok tt, w')
    /\ trace w' = trace w ++ [EvLocalSet key data]
    /\ localStorage w' = <[key := data]> (localStorage w)
    /\ syncQueue w' = syncQueue w
    /\ remote_records w' = remote_records w
    /\ sync_status w' = sync_status w
    /\ local_faults w' = tl (local_faults w).
Proof.
  intros Hok. unfold storageService_set, bind, emit, modify, next_local_fault.
  simpl. destruct (local_faults w) as [| f rest] eqn:E; simpl in *.
  - eexists. split; [reflexivity |]. simpl. now rewrite E.
  - subst f. eexists. split; [reflexivity |]. simpl. prop.
Qed.

(** Online, the coordinator's write is the remote attempt followed, in the
    state that attempt ends in, by the local write. *)
Lemma setData_online (key : string) (data : JSON) (userId : string)
    (w : World) (o1 : Outcome unit) (w1 : World) :
  isOnline w = true ->
  SupabaseStorageBackend_set key data userId w = (o1, w1) ->
  setData key data userId w =
    match o1 with
    | Ok _ =>
        try_catch (LocalStorageBackend_set key data userId)
          (fun _ => LocalStorageBackend_set key data userId >>
                    queueForSync key data userId) w1
    | Throw _ =>
        (LocalStorageBackend_set key data userId >>
         queueForSync key data userId) w1
    end.
Proof.
  intros Honline Hset.
  unfold setData. unfold bind at 1, gets. rewrite Honline.
  unfold try_catch at 1, bind at 1. rewrite Hset.
  destruct o1 as [[] | e]; [| reflexivity].
  unfold try_catch.
  destruct (LocalStorageBackend_set key data userId w1) as [[[] | e] w2];
    reflexivity.
Qed.

(** C1 (amended).  When online, a write first makes the Remote Record
    Store attempt, which emits only remote-side events and leaves the Local
    Cache Store and the sync queue alone; the value is written to the Local
    Cache Store in the state that attempt ends in: after its success, and
    then nothing further happens (nothing is queued, the remote is not
    touched again), or after its failure, followed by queueing for sync.
    When offline, the write is the local write followed by queueing, with
    no remote attempt. *)
Theorem setData_remote_attempt_first (key : string) (data : JSON)
    (userId : string) (w : World) :
  (isOnline w = true ->
     exists o1 w1,
       SupabaseStorageBackend_set key data userId w = (o1, w1)
       /\ emitted is_remote_event w w1
       /\ localStorage w1 = localStorage w
       /\ syncQueue w1 = syncQueue w
       /\ setData key data userId w =
            match o1 with
            | Ok _ =>
                try_catch (LocalStorageBackend_set key data userId)
                  (fun _ => LocalStorageBackend_set key data userId >>
                            queueForSync key data userId) w1
            | Throw _ =>
                (LocalStorageBackend_set key data userId >>
                 queueForSync key data userId) w1
            end
       /\ (o1 = Ok tt -> hd None (local_faults w) = None ->
           exists w2,
             setData key data userId w = (Ok tt, w2)
             /\ trace w2 = trace w1 ++ [EvLocalSet key data]
             /\ localStorage w2 = <[key := data]> (localStorage w)
             /\ syncQueue w2 = syncQueue w
             /\ remote_records w2 = remote_records w1
             /\ sync_status w2 = sync_status w1))
  /\ (isOnline w = false ->
        setData key data userId w =
          (LocalStorageBackend_set key data userId >>
           queueForSync key data userId) w).
Proof.
  split; intros Honline.
  - destruct (SupabaseStorageBackend_set key data userId w) as [o1 w1] eqn:Hset.
    pose proof (SupabaseStorageBackend_set_emits _ _ _ _ _ _ Hset) as Hev.
    pose proof (SupabaseStorageBackend_set_keeps_localStorage _ _ _ _ _ _ Hset) as Hls.
    pose proof (SupabaseStorageBackend_set_keeps_syncQueue _ _ _ _ _ _ Hset) as Hq.
    pose proof (SupabaseStorageBackend_set_keeps_local_faults _ _ _ _ _ _ Hset) as Hlf.
    unfold keeps in *.
    pose proof (setData_online _ _ _ _ _ _ Honline Hset) as Hrun.
    exists o1, w1. repeat (split; [assumption || reflexivity |]).
    intros -> Hok. rewrite <- Hlf in Hok.
    destruct (storageService_set_ok key data w1 Hok)
      as (w2 & Hlocal & Ht & Hl & Hq2 & Hr & Hs & _).
    exists w2. rewrite Hrun. unfold try_catch, LocalStorageBackend_set.
    rewrite Hlocal. rewrite Hl, Hls, Hq2, Hq. prop.
  - unfold setData. unfold bind at 1, gets. now rewrite Honline.
Qed.

Lemma storageService_set_result (key : string) (data : JSON) (w : World)
    (o : Outcome unit) (w' : World) :
  storageService_set key data w = (o, w') ->
  (o = Ok tt /\ localStorage w' = <[key := data]> (localStorage w))
  \/ (exists e, o = Throw e /\ localStorage w' = localStorage w).
Proof.
  unfold storageService_set, bind, emit, modify, next_local_fault, throw. simpl.
  destruct (local_faults w) as [| [e |] rest]; intros H; inversion H; subst; simpl;
    eauto.
Qed.

Lemma queueForSync_keeps_localStorage (key : string) (data : JSON) (userId : string) :
  respects (keeps localStorage) (queueForSync key data userId).
Proof. respects_tac. Qed.

Lemma queueForSync_ok (key : string) (data : JSON) (userId : string) (w : World) :
  exists w', queueForSync key data userId w = (Ok tt, w').
Proof. eexists. reflexivity. Qed.

(** A write that resolves leaves the value in the Local Cache Store. *)
Lemma setData_ok_local (key : string) (data : JSON) (userId : string)
    (w w' : World) :
  setData key data userId w = (Ok tt, w') ->
  localStorage w' !! key = Some data.
Proof.
  assert (forall w0 w1,
            (LocalStorageBackend_set key data userId >>
             queueForSync key data userId) w0 = (Ok tt, w1) ->
            localStorage w1 !! key = Some data) as Hqueued.
  { intros w0 w1. unfold bind, LocalStorageBackend_set.
    destruct (storageService_set key data w0) as [[[] | e] w2] eqn:E;
      [| discriminate].
    intros Hq.
    apply queueForSync_keeps_localStorage in Hq. unfold keeps in Hq.
    apply storageService_set_result in E as [[_ E] | (e & E & _)];
      [| discriminate].
    rewrite Hq, E. apply lookup_insert_eq. }
  unfold setData. unfold bind at 1, gets.
  destruct (isOnline w); [| apply Hqueued].
  unfold try_catch, bind at 1.
  destruct (SupabaseStorageBackend_set key data userId w) as [[[] | e] w1];
    [| apply Hqueued].
  unfold LocalStorageBackend_set at 1.
  destruct (storageService_set key data w1) as [[[] | e] w2] eqn:E.
  - intros H. inversion H; subst.
    apply storageService_set_result in E as [[_ E] | (e & E & _)];
      [| discriminate].
    rewrite E. apply lookup_insert_eq.
  - apply Hqueued.
Qed.

Lemma append_neq (key suffix : string) :
  suffix <> "" -> key <> key +:+ suffix.
Proof.
  intros Hs. induction key as [| c key IH]; intros H.
  - change ("" = suffix) in H. congruence.
  - change (String c key = String c (key +:+ suffix)) in H.
    injection H as H. now apply IH.
Qed.

Lemma logDataAccess_keeps_remote_records (action tableName userId : string) :
  respects (keeps remote_records) (logDataAccess action tableName userId).
Proof. respects_tac. Qed.

Lemma updateSyncStatus_run (tableName userId status : string)
    (msg : option string) (w : World) :
  exists w', updateSyncStatus tableName userId status msg w = (Ok tt, w')
             /\ remote_records w' = remote_records w.
Proof.
  unfold updateSyncStatus, bind, emit, modify, gets, next_status_fault. simpl.
  destruct (status_faults w) as [| [e |] rest]; eexists; split; reflexivity.
Qed.




(* --------------------------------------------------------------------- *)
(** *** SyncService: automatic resolution                                  *)
(* --------------------------------------------------------------------- *)


(* --------------------------------------------------------------------- *)
(** *** SyncService: one pass over a kind                                  *)
(* --------------------------------------------------------------------- *)

(** What a read that resolves did to the Local Cache Store: nothing, and
    the value is the cached one; or the read-through mirror of the remote
    value it resolves to. *)
Lemma getData_local_effect (key uid : string) (w w1 : World) (v : JSON) :
  getData key (Some uid) w = (Ok v, w1) ->
  (localStorage w1 = localStorage w
   /\ v = default JNull (localStorage w !! key))
  \/ localStorage w1 = <[key := v]> (localStorage w).
Proof.
  unfold getData. destruct (invalid_userId (Some uid)); [discriminate |].
  simpl show_userId.
  assert (forall w0,
            localStorage w0 = localStorage w ->
            LocalStorageBackend_get key uid w0 = (Ok v, w1) ->
            localStorage w1 = localStorage w
            /\ v = default JNull (localStorage w !! key)) as Hcached.
  { intros w0 Hsame H.
    unfold LocalStorageBackend_get, storageService_get, gets in H.
    inversion H; subst. now rewrite Hsame. }
  unfold try_catch, bind at 1, gets. destruct (isOnline w).
  - unfold bind at 1, bind at 1.
    destruct (SupabaseStorageBackend_get key uid w) as [[sv | e] w0] eqn:Hget;
      apply SupabaseStorageBackend_get_keeps_localStorage in Hget;
      unfold keeps in Hget.
    + destruct (is_null sv); cbv [negb]; cbv beta iota.
      * unfold ret at 1. intros H. left. now apply (Hcached w0).
      * unfold bind at 1, LocalStorageBackend_set.
        destruct (storageService_set key sv w0) as [[[] | e] w2] eqn:Hmirror;
          apply storageService_set_result in Hmirror
            as [[Ho Hmirror] | (e' & Ho & Hmirror)]; try discriminate.
        -- unfold ret. intros H. inversion H; subst. right.
           now rewrite Hmirror, Hget.
        -- destruct (is_critical_auth_error e); [discriminate |].
           intros H. left. apply (Hcached w2); [congruence | assumption].
    + destruct (is_critical_auth_error e); [discriminate |].
      intros H. left. now apply (Hcached w0).
  - unfold bind, ret. intros H. left. now apply (Hcached w).
Qed.

Lemma getData_keeps_remote_records (key : string) (userId : option string) :
  respects (keeps remote_records) (getData key userId).
Proof. respects_tac. Qed.

Lemma getData_keeps_sync_status (key : string) (userId : option string) :
  respects (keeps sync_status) (getData key userId).
Proof. respects_tac. Qed.

Lemma getRemoteData_run (key userId : string) (w : World) :
  exists v w1,
    getRemoteData key userId w = (Ok v, w1)
    /\ remote_records w1 = remote_records w
    /\ sync_status w1 = sync_status w
    /\ (is_null v = false -> getData key (Some userId) w = (Ok v, w1)).
Proof.
  unfold getRemoteData, try_catch.
  destruct (getData key (Some userId) w) as [[v | e] w1] eqn:Hget.
  - exists v, w1. split; [reflexivity |].
    split; [exact (getData_keeps_remote_records _ _ _ _ _ Hget) |].
    split; [exact (getData_keeps_sync_status _ _ _ _ _ Hget) | reflexivity].
  - exists JNull, w1. split; [reflexivity |].
    split; [exact (getData_keeps_remote_records _ _ _ _ _ Hget) |].
    split; [exact (getData_keeps_sync_status _ _ _ _ _ Hget) | discriminate].
Qed.

Lemma getRemoteTimestamp_run (key userId : string) (w : World) :
  exists stamp w1,
    getRemoteTimestamp key userId w = (Ok stamp, w1)
    /\ remote_records w1 = remote_records w
    /\ sync_status w1 = sync_status w
    /\ localStorage w1 = localStorage w.
Proof.
  unfold getRemoteTimestamp, bind, next_status_fault, gets, ret.
  destruct (status_faults w) as [| [e |] rest]; simpl;
    repeat match goal with
           | |- context [match ?l with _ => _ end] => destruct l
           end;
    eexists _, _; split; try reflexivity; auto.
Qed.

Lemma ltb_irrefl (s : string) : String.ltb s s = false.
Proof.
  unfold String.ltb. pose proof (String.compare_antisym s s) as H.
  destruct (String.compare s s); simpl in H; congruence.
Qed.

(** C9 (amended).  For a kind whose local value and remote value (as the
    pass reads it) are both present and serialise to equal strings, the
    pass goes on to compare the two recorded timestamps as strings:

    - equal: nothing is pulled or pushed; the Remote Record Store, the
      sync-status rows and the local timestamp are as before, and the local
      value still serialises to the same string;
    - local older: the pass pulls (the local value and the local timestamp
      become the remote ones);
    - local newer: the pass pushes (the coordinator's write of the local
      value, then the local timestamp becomes the current time). *)
Theorem syncDataType_equal_values (dataType userId : string) (w w1 w2 : World)
    (local remote : JSON) (remoteTs : string) :
  default JNull (localStorage w !! dataType) = local ->
  is_null local = false ->
  getRemoteData dataType userId w = (Ok remote, w1) ->
  is_null remote = false ->
  getRemoteTimestamp dataType userId w1 = (Ok remoteTs, w2) ->
  JSON_stringify local = JSON_stringify remote ->
  let localTs := local_timestamp_of dataType w in
  syncDataType dataType userId w =
    ((if String.ltb localTs remoteTs then pullData dataType remote remoteTs
      else if String.ltb remoteTs localTs then pushData dataType local userId
      else ret tt) >> ret None) w2
  /\ (localTs = remoteTs ->
      syncDataType dataType userId w = (Ok None, w2)
      /\ remote_records w2 = remote_records w
      /\ sync_status w2 = sync_status w
      /\ localStorage w2 !! (dataType +:+ "_timestamp")
         = localStorage w !! (dataType +:+ "_timestamp")
      /\ JSON_stringify (default JNull (localStorage w2 !! dataType))
         = JSON_stringify local)
  /\ (String.ltb localTs remoteTs = true ->
      forall w3, pullData dataType remote remoteTs w2 = (Ok tt, w3) ->
        syncDataType dataType userId w = (Ok None, w3)
        /\ localStorage w3 !! dataType = Some remote
        /\ localStorage w3 !! (dataType +:+ "_timestamp") = Some (JStr remoteTs))
  /\ (String.ltb localTs remoteTs = false -> String.ltb remoteTs localTs = true ->
      forall w3, pushData dataType local userId w2 = (Ok tt, w3) ->
        syncDataType dataType userId w = (Ok None, w3)
        /\ localStorage w3 !! (dataType +:+ "_timestamp") = Some (JStr (now w2))).
Proof.
  intros Hlocal Hpresent Hremote Hrpresent Hstamp Hequal localTs.
  assert (syncDataType dataType userId w =
          ((if String.ltb localTs remoteTs then pullData dataType remote remoteTs
            else if String.ltb remoteTs localTs then pushData dataType local userId
            else ret tt) >> ret None) w2) as Hrun.
  { unfold syncDataType.
    unfold bind at 1, storageService_get at 1, gets. rewrite Hlocal.
    unfold bind at 1, storageService_get at 1, gets.
    unfold bind at 1. rewrite Hremote.
    unfold bind at 1. rewrite Hstamp.
    rewrite Hpresent, Hrpresent.
    unfold detectConflict. rewrite Hequal, String.eqb_refl. reflexivity. }
  split; [exact Hrun |].
  destruct (getRemoteData_run dataType userId w)
    as (v & w1' & Hrd & Hrr & Hss & Hget).
  rewrite Hremote in Hrd. inversion Hrd; subst v w1'. clear Hrd.
  specialize (Hget Hrpresent).
  destruct (getRemoteTimestamp_run dataType userId w1)
    as (stamp & w2' & Hrt & Hrr2 & Hss2 & Hls2).
  rewrite Hstamp in Hrt. inversion Hrt; subst stamp w2'. clear Hrt.
  split; [| split].
  - intros Heq. rewrite Hrun, Heq, ltb_irrefl.
    split; [reflexivity |].
    split; [congruence |]. split; [congruence |].
    rewrite Hls2.
    apply getData_local_effect in Hget as [[Hsame _] | Hmirror].
    + rewrite Hsame, Hlocal. split; reflexivity.
    + rewrite Hmirror. split.
      * apply lookup_insert_ne. now apply append_neq.
      * rewrite lookup_insert_eq. simpl. now symmetry.
  - intros Hlt w3 Hpull. rewrite Hrun, Hlt.
    unfold bind. rewrite Hpull. split; [reflexivity |].
    unfold pullData, bind in Hpull.
    destruct (storageService_set dataType remote w2) as [[[] | e] wa] eqn:Ha;
      [| discriminate].
    apply storageService_set_result in Ha as [[_ Ha] | (e & E & _)];
      [| discriminate].
    apply storageService_set_result in Hpull as [[_ Hb] | (e & E & _)];
      [| discriminate].
    rewrite Hb, Ha. split.
    + rewrite lookup_insert_ne; [apply lookup_insert_eq |].
      intros E. symmetry in E. revert E. now apply append_neq.
    + apply lookup_insert_eq.
  - intros Hnlt Hgt w3 Hpush. rewrite Hrun, Hnlt, Hgt.
    unfold bind at 1. rewrite Hpush. split; [reflexivity |].
    unfold pushData, bind, gets in Hpush.
    destruct (setData dataType local userId w2) as [[[] | e] wa] eqn:Ha;
      [| discriminate].
    apply storageService_set_result in Hpush as [[_ Hb] | (e & E & _)];
      [| discriminate].
    rewrite Hb.
    assert (now wa = now w2) as ->; [| apply lookup_insert_eq].
    assert (respects (keeps now) (setData dataType local userId)) as Hnow
      by respects_tac.
    exact (Hnow _ _ _ Ha).
Qed.

(* --------------------------------------------------------------------- *)
(** *** HybridDataService: reads with a default                            *)
(* --------------------------------------------------------------------- *)

(** C7.  For the skill-list kind with default list [D]: when the read
    yields the empty list the result is [D]; when it yields a non-empty
    list [R] the result is [D ++ R] with later duplicates dropped: it
    starts with the (de-duplicated) items of [D], the items that follow
    come from [R] and are not in [D], it holds exactly the items of [D] and
    of [R], and (skills being primitive values) it holds none twice. *)
Theorem getDataSafe_skillsList (userId : option string) (w w' : World)
    (D R : list JSON) :
  getData "skillsList" userId w = (Ok (JArr R), w') ->
  forallb is_primitive (D ++ R) = true ->
  (R = [] -> getDataSafe "skillsList" userId (JArr D) w = (Ok (JArr D), w'))
  /\ (R <> [] ->
      exists merged extra,
        getDataSafe "skillsList" userId (JArr D) w = (Ok (JArr merged), w')
        /\ merged = Array_from_Set D ++ extra
        /\ (List.NoDup D -> Array_from_Set D = D)
        /\ (forall x, In x extra -> In x R /\ ~ In x D)
        /\ (forall x, In x merged <-> In x D \/ In x R)
        /\ List.NoDup merged).
Proof.
  intros Hget Hprim.
  assert (getDataSafe "skillsList" userId (JArr D) w =
          (Ok (if (List.length R =? 0)%nat then JArr D
               else JArr (Array_from_Set (D ++ R))), w')) as Hrun.
  { unfold getDataSafe, try_catch, bind. rewrite Hget. simpl.
    now destruct (List.length R =? 0)%nat. }
  rewrite forallb_app in Hprim. apply andb_prop in Hprim as [HD HR].
  split.
  - intros ->. exact Hrun.
  - intros Hne. destruct R as [| r R]; [congruence |]. simpl in Hrun.
    unfold Array_from_Set in *. rewrite Set_insert_all_app in *.
    destruct (Set_insert_all_extends (r :: R) (Set_insert_all [] D))
      as (extra & Hsplit & Hextra).
    exists (Set_insert_all (Set_insert_all [] D) (r :: R)), extra.
    split; [exact Hrun |]. split; [exact Hsplit |]. split; [| split; [| split]].
    + intros Hnd. now apply (Set_insert_all_id D []).
    + intros x Hx. destruct (Hextra x Hx) as [Hin Hnot]. split; [assumption |].
      intros HinD.
      assert (is_primitive x = true) as Hp
        by (rewrite forallb_forall in HR; now apply HR).
      rewrite (In_seen x) in Hnot; [discriminate | assumption |].
      apply Set_insert_all_In. now right.
    + intros x. rewrite !Set_insert_all_In. simpl. prop.
    + apply Set_insert_all_NoDup; [assumption |].
      apply Set_insert_all_NoDup; [assumption | constructor].
Qed.

(* --------------------------------------------------------------------- *)
(** *** ErrorHandlingService                                               *)
(* --------------------------------------------------------------------- *)

Lemma escalateError_severity (errorInfo : ErrorInfo) :
  escalation_severity (escalateError errorInfo) = ei_severity errorInfo
  /\ r_error (escalateError errorInfo) = true.
Proof. unfold escalateError. destruct (ei_severity errorInfo); split; reflexivity. Qed.

Lemma createErrorInfo_run (error : JsError) (cat : ErrorCategory)
    (sev : ErrorSeverity) (_context : option Context) (svc : ErrorHandlingService) :
  exists ref svc1,
    createErrorInfo error cat sev _context svc = (Ok ref, svc1)
    /\ tracks ref error cat sev svc1.
Proof.
  unfold createErrorInfo, bind, generateErrorId, gets, modify, ret.
  destruct (next_error_ids svc) as [| i rest]; simpl;
    eexists _, _; (split; [reflexivity |]);
    eexists; (split; [apply list_lookup_middle; reflexivity |]); auto.
Qed.

Lemma logError_run (ref : nat) (svc : ErrorHandlingService) :
  exists svc1, logError ref svc = (Ok tt, svc1) /\ objects svc1 = objects svc.
Proof.
  unfold logError, bind, gets, modify, saveErrorLog.
  destruct (deref ref svc) as [info |]; [| now exists svc].
  eexists. split; [reflexivity |]. simpl.
  match goal with |- context [if ?b then _ else _] => destruct b end; reflexivity.
Qed.

Lemma queueForRetry_run (ref : nat) (strategy : FallbackStrategy)
    (error : JsError) (cat : ErrorCategory) (sev : ErrorSeverity)
    (svc : ErrorHandlingService) :
  tracks ref error cat sev svc ->
  exists svc1, queueForRetry ref strategy svc = (Ok tt, svc1)
               /\ tracks ref error cat sev svc1.
Proof.
  intros (info & Hinfo & Hsev & Hmsg & Hcat).
  unfold queueForRetry, bind, mutate, modify, gets. simpl.
  unfold deref in *. simpl. rewrite list_lookup_alter_eq, Hinfo. simpl.
  eexists. split; [reflexivity |].
  eexists. unfold deref. simpl. rewrite list_lookup_alter_eq, Hinfo. simpl.
  split; [reflexivity |]. simpl. auto.
Qed.

Lemma notifyListeners_run (listeners : list Listener) (ref : nat) :
  (forall callback, In callback listeners -> respects (keeps objects) (callback ref)) ->
  forall svc,
    exists svc', ErrorHandlingService_notifyListeners listeners ref svc = (Ok tt, svc')
                 /\ objects svc' = objects svc.
Proof.
  unfold ErrorHandlingService_notifyListeners.
  induction listeners as [| callback rest IH]; intros Hkeep svc; simpl.
  - now exists svc.
  - pose proof (Hkeep callback (or_introl eq_refl) svc) as Hcb.
    unfold bind at 1, try_catch.
    destruct (callback ref svc) as [[[] | e] svc1] eqn:Hrun;
      specialize (Hcb _ _ eq_refl); unfold keeps in Hcb;
      destruct (IH (fun cb Hin => Hkeep cb (or_intror Hin)) svc1)
        as (svc' & Hrest & Hobjs);
      exists svc'; (split; [exact Hrest | congruence]).
Qed.

Lemma try_strategies_all_fail (ref : nat) (error : JsError)
    (cat : ErrorCategory) (sev : ErrorSeverity) (_context : option Context)
    (strategies : list FallbackStrategy) :
  (forall strategy svc0, In strategy strategies ->
     exists e svc1, handler strategy error _context svc0 = (Throw e, svc1)) ->
  (forall strategy, In strategy strategies ->
     respects (keeps objects) (handler strategy error _context)) ->
  forall tried svc,
    tracks ref error cat sev svc ->
    exists svc',
      try_strategies ref error _context strategies tried svc
      = (Ok (tried ++ List.map name strategies, None), svc')
      /\ tracks ref error cat sev svc'
      /\ called_in_turn ref error _context strategies svc svc'.
Proof.
  intros Hfail Hkeep.
  induction strategies as [| strategy rest IH]; intros tried svc Htracks; simpl.
  - exists svc. rewrite app_nil_r. repeat split; [assumption | constructor].
  - destruct (Hfail strategy svc (or_introl eq_refl)) as (e & svc1 & Hrun).
    pose proof (Hkeep strategy (or_introl eq_refl) _ _ _ Hrun) as Hobjs.
    assert (tracks ref error cat sev svc1) as Htracks1.
    { destruct Htracks as (info & Hinfo & Hrest). exists info.
      unfold deref, keeps in *. now rewrite Hobjs. }
    assert (exists svc2,
              (let! info := gets (deref ref) in
               (match info with
                | Some errorInfo =>
                    if canRetry strategy
                       && (ei_retryCount errorInfo <? maxRetries strategy)%Z
                    then queueForRetry ref strategy
                    else ret tt
                | None => ret tt
                end) >> ret None) svc1 = (Ok (@None JSON), svc2)
              /\ tracks ref error cat sev svc2
              /\ after_throw ref strategy svc1 svc2)
      as (svc2 & Hcatch & Htracks2 & Hafter).
    { unfold bind at 1, gets. unfold after_throw.
      destruct Htracks1 as (info & Hinfo & Hrest). rewrite Hinfo.
      destruct (canRetry strategy && (ei_retryCount info <? maxRetries strategy)%Z)
        eqn:Hretry.
      - destruct (queueForRetry_run ref strategy error cat sev svc1)
          as (svc2 & Hq & Ht); [now exists info |].
        exists svc2. unfold bind. rewrite Hq.
        split; [reflexivity |]. split; [assumption |].
        exists info. now rewrite Hretry.
      - exists svc1. split; [reflexivity |]. split; [now exists info |].
        exists info. now rewrite Hretry. }
    destruct (IH (fun s svc0 Hin => Hfail s svc0 (or_intror Hin))
                 (fun s Hin => Hkeep s (or_intror Hin))
                 (tried ++ [name strategy]) svc2 Htracks2)
      as (svc' & Hloop & Htracks' & Hcalled).
    exists svc'. split; [| split; [assumption |]].
    + unfold bind at 1, try_catch, bind at 1. rewrite Hrun, Hcatch.
      rewrite Hloop, <- app_assoc. reflexivity.
    + exact (called_next _ _ _ _ _ _ _ _ _ _ Hrun Hafter Hcalled).
Qed.

(** C8.  For every category and severity, when each strategy registered
    for the category throws on the error (handlers and listeners leaving
    the error records themselves alone), [handleError] does not throw: it
    creates and logs the record of the error, notifies the listeners, and
    then calls the handler of every registered strategy of the category,
    each once, in ascending order of priority and, among equal priorities,
    in the order of registration; every call runs in the state the one
    before it left, followed by the catch block, and the state the last
    one leaves is the one [handleError] ends in.  It resolves to the
    escalation result of the error's record, whose shape shows the
    severity that was passed in. *)
Theorem handleError_escalates (fallbackStrategies : list FallbackStrategy)
    (listeners : list Listener)
    (error : JsError) (cat : ErrorCategory) (sev : ErrorSeverity)
    (_context : option Context) (svc : ErrorHandlingService) :
  (forall strategy svc0,
     In strategy fallbackStrategies -> category strategy = cat ->
     exists e svc1, handler strategy error _context svc0 = (Throw e, svc1)) ->
  (forall strategy,
     In strategy fallbackStrategies -> category strategy = cat ->
     respects (keeps objects) (handler strategy error _context)) ->
  (forall callback ref,
     In callback listeners -> respects (keeps objects) (callback ref)) ->
  exists tried escalation svc' ref svc1 svc2 svc3 info,
    handleError_tried fallbackStrategies listeners error cat sev _context svc
    = (Ok (tried, Escalated escalation), svc')
    /\ handleError fallbackStrategies listeners error cat sev _context svc
       = (Ok (Escalated escalation), svc')
    /\ createErrorInfo error cat sev _context svc = (Ok ref, svc1)
    /\ logError ref svc1 = (Ok tt, svc2)
    /\ ErrorHandlingService_notifyListeners listeners ref svc2 = (Ok tt, svc3)
    /\ called_in_turn ref error _context
         (applicable_strategies fallbackStrategies cat) svc3 svc'
    /\ tried = List.map name (applicable_strategies fallbackStrategies cat)
    /\ Permutation
         (List.filter (fun s => ErrorCategory_eqb (category s) cat) fallbackStrategies)
         (applicable_strategies fallbackStrategies cat)
    /\ StronglySorted (ascending priority)
         (applicable_strategies fallbackStrategies cat)
    /\ (forall p,
          List.filter (fun s => (priority s =? p)%Z)
            (applicable_strategies fallbackStrategies cat)
          = List.filter (fun s => (priority s =? p)%Z)
              (List.filter (fun s => ErrorCategory_eqb (category s) cat)
                           fallbackStrategies))
    /\ deref ref svc' = Some info
    /\ escalation = escalateError info
    /\ r_error escalation = true
    /\ escalation_severity escalation = sev
    /\ (sev <> low -> r_message escalation = Some (message error)).
Proof.
  intros Hfail Hkeep Hquiet.
  assert (forall s, In s (applicable_strategies fallbackStrategies cat) ->
                    In s fallbackStrategies /\ category s = cat) as Happ.
  { intros s Hs. unfold applicable_strategies in Hs.
    apply sort_by_In, filter_In in Hs as [Hin Hcat]. split; [assumption |].
    destruct (category s), cat; simpl in Hcat; congruence. }
  destruct (createErrorInfo_run error cat sev _context svc)
    as (ref & svc1 & Hcreate & Htracks1).
  destruct (logError_run ref svc1) as (svc1' & Hlog & Hobjs1).
  destruct (notifyListeners_run listeners ref
              (fun callback Hin => Hquiet callback ref Hin) svc1')
    as (svc2 & Hnotify & Hobjs2).
  assert (tracks ref error cat sev svc2) as Htracks2.
  { destruct Htracks1 as (info & Hinfo & Hrest). exists info.
    unfold deref in *. now rewrite Hobjs2, Hobjs1. }
  destruct (try_strategies_all_fail ref error cat sev _context
              (applicable_strategies fallbackStrategies cat)
              (fun s svc0 Hs => Hfail s svc0 (proj1 (Happ s Hs)) (proj2 (Happ s Hs)))
              (fun s Hs => Hkeep s (proj1 (Happ s Hs)) (proj2 (Happ s Hs)))
              [] svc2 Htracks2)
    as (svc' & Hloop & (info & Hinfo & Hsev & Hmsg & Hcat) & Hcalled).
  assert (handleError_tried fallbackStrategies listeners error cat sev _context svc
          = (Ok (List.map name (applicable_strategies fallbackStrategies cat),
                 Escalated (escalateError info)), svc')) as Hrun.
  { unfold handleError_tried. unfold bind at 1. rewrite Hcreate.
    unfold bind at 1. rewrite Hlog.
    unfold bind at 1. rewrite Hnotify.
    unfold bind at 1. rewrite Hloop. simpl.
    unfold bind, gets. now rewrite Hinfo. }
  exists (List.map name (applicable_strategies fallbackStrategies cat)),
         (escalateError info), svc', ref, svc1, svc1', svc2, info.
  split; [exact Hrun |].
  split; [unfold handleError, bind; now rewrite Hrun |].
  do 4 (split; [assumption |]).
  split; [reflexivity |].
  split; [apply sort_by_Permutation |].
  split; [apply sort_by_sorted |].
  split; [intros p; apply sort_by_stable |].
  split; [assumption |]. split; [reflexivity |].
  destruct (escalateError_severity info) as [Hshape Herr].
  split; [assumption |]. split; [congruence |].
  intros Hnotlow. unfold escalateError, handleCriticalError.
  rewrite Hsev, Hmsg. destruct sev; try reflexivity. congruence.
Qed.
(* ===================================================================== *)
(** ** Further properties                                                 *)
(* ===================================================================== *)

(* --------------------------------------------------------------------- *)
(** *** EncryptionService: errors and formats                              *)
(* --------------------------------------------------------------------- *)

Lemma eqb_empty_false (s : string) : s <> "" -> String.eqb s "" = false.
Proof. intros H. destruct s; [congruence | reflexivity]. Qed.

(** What the [catch] of [decrypt] lets through. *)
Lemma decrypt_throws (svc : EncryptionService) (data userId : string)
    (e : JsError) :
  data <> "" -> decrypt svc data userId = Throw e ->
  is_Error e = true
  /\ (includes "user_id" (message e) || includes "auth" (message e)) = true.
Proof.
  intros Hdata. unfold decrypt. rewrite (eqb_empty_false _ Hdata).
  destruct (decrypt_try svc (detectDataFormat data) data userId) as [v | err];
    [discriminate |].
  destruct (is_Error err
            && (includes "user_id" (message err) || includes "auth" (message err)))
    eqn:Hcritical; [| discriminate].
  intros H. injection H as <-.
  now apply andb_true_iff in Hcritical.
Qed.

(** X1.  For a non-empty input, [decrypt] yields what its decoding step
    yields; when that step fails, it throws the failure on only if it is an
    [Error] whose message mentions ['user_id'] or ['auth'], and every other
    failure ends in the safe fallback [{}].  So [decrypt] either yields a
    value or throws such an [Error].  In particular, data in one of the two
    server formats met without a session throws 'User must be
    authenticated for server-side decryption' (it is not replaced by the
    fallback), and data of unknown format yields [{}]. *)
Theorem decrypt_throws_only_auth_errors (svc : EncryptionService)
    (data userId : string) :
  data <> "" ->
  (forall e, decrypt svc data userId = Throw e ->
     is_Error e = true
     /\ (includes "user_id" (message e) = true
         \/ includes "auth" (message e) = true))
  /\ (forall v, decrypt_try svc (detectDataFormat data) data userId = Ok v ->
      decrypt svc data userId = Ok v)
  /\ (forall e, decrypt_try svc (detectDataFormat data) data userId = Throw e ->
      decrypt svc data userId
      = if is_Error e
           && (includes "user_id" (message e) || includes "auth" (message e))
        then Throw e
        else Ok createSafeFallback_object)
  /\ (currentSession svc = None ->
      detectDataFormat data = pgcrypto_base64 \/ detectDataFormat data = binary ->
      decrypt svc data userId
      = Throw (new_Error "User must be authenticated for server-side decryption"))
  /\ (detectDataFormat data = unknown ->
      decrypt svc data userId = Ok createSafeFallback_object).
Proof.
  intros Hdata. split; [| split; [| split; [| split]]].
  - intros e Hrun. destruct (decrypt_throws _ _ _ _ Hdata Hrun) as [Herr Hmsg].
    apply orb_true_iff in Hmsg. split; assumption.
  - intros v Hrun. unfold decrypt.
    now rewrite (eqb_empty_false _ Hdata), Hrun.
  - intros e Hrun. unfold decrypt.
    now rewrite (eqb_empty_false _ Hdata), Hrun.
  - unfold decrypt. rewrite (eqb_empty_false _ Hdata).
    intros Hsession Hformat.
    assert (decrypt_try svc (detectDataFormat data) data userId
            = Throw (new_Error "User must be authenticated for server-side decryption"))
      as ->.
    { unfold decrypt_try, isAuthenticated. rewrite Hsession.
      destruct Hformat as [-> | ->]; reflexivity. }
    reflexivity.
  - unfold decrypt. rewrite (eqb_empty_false _ Hdata). intros ->. reflexivity.
Qed.

(** X2.  Field encryption without a session, then field decryption
    (whatever the session then is), gives the field back: for a non-empty
    string that [btoa] accepts and [atob] carries back, [encryptField]
    yields ['fallback:'] followed by the Base64 text and [decryptField]
    yields the string.  [encryptField] refuses the empty string and what is
    no string. *)
Theorem field_fallback_roundtrip (svc svc' : EncryptionService)
    (value userId b64 : string) :
  currentSession svc = None ->
  value <> "" ->
  btoa value = Ok b64 ->
  atob b64 = Ok value ->
  encryptField svc (JStr value) userId = Ok ("fallback:" +:+ b64)
  /\ decryptField svc' (JStr ("fallback:" +:+ b64)) userId = Ok value
  /\ (forall v, (forall s, v = JStr s -> s = "") ->
        encryptField svc v userId
        = Throw (new_Error "Field value must be a non-empty string")).
Proof.
  intros Hsession Hvalue Hbtoa Hatob. split; [| split].
  - unfold encryptField, isAuthenticated, fallback_encoding.
    now rewrite (eqb_empty_false _ Hvalue), Hsession, Hbtoa.
  - unfold decryptField.
    replace (String.eqb ("fallback:" +:+ b64) "") with false by reflexivity.
    rewrite detectDataFormat_fallback. unfold decryptField_try.
    now rewrite fallback_payload, Hatob.
  - intros v Hv. destruct v; try reflexivity.
    rewrite (Hv s eq_refl). reflexivity.
Qed.

(** X3.  [decryptField] never throws: whatever the input, the session and
    the outcome of the remote procedure, it resolves to a string.  It
    resolves to the empty string for an empty or non-string input and for
    server-format data met without a session, and to its input when the
    format is JSON or unknown or when decoding throws. *)
Theorem decryptField_never_throws (svc : EncryptionService)
    (encryptedValue : JSON) (userId : string) :
  (exists s, decryptField svc encryptedValue userId = Ok s)
  /\ ((forall s, encryptedValue = JStr s -> s = "") ->
      decryptField svc encryptedValue userId = Ok "")
  /\ (forall s, encryptedValue = JStr s -> s <> "" ->
        (currentSession svc = None ->
         detectDataFormat s = pgcrypto_base64 \/ detectDataFormat s = binary ->
         decryptField svc encryptedValue userId = Ok "")
        /\ (detectDataFormat s = json \/ detectDataFormat s = unknown ->
            decryptField svc encryptedValue userId = Ok s)
        /\ (forall e, decryptField_try svc (detectDataFormat s) s userId = Throw e ->
              decryptField svc encryptedValue userId = Ok s)).
Proof.
  split; [| split].
  - unfold decryptField. destruct encryptedValue; try (now eexists).
    destruct (String.eqb s ""); [now eexists |].
    destruct (decryptField_try svc (detectDataFormat s) s userId); now eexists.
  - intros Hv. destruct encryptedValue; try reflexivity.
    rewrite (Hv s eq_refl). reflexivity.
  - intros s -> Hs. unfold decryptField. rewrite (eqb_empty_false _ Hs).
    split; [| split].
    + intros Hsession Hformat. unfold decryptField_try, isAuthenticated.
      rewrite Hsession. destruct Hformat as [-> | ->]; reflexivity.
    + intros [-> | ->]; reflexivity.
    + intros e ->. reflexivity.
Qed.

Lemma all_chars_prefix (p : ascii -> bool) (pre s : string) :
  String.prefix pre s = true -> all_chars p s = true -> all_chars p pre = true.
Proof.
  unfold all_chars. revert s.
  induction pre as [| c pre IH]; intros s Hpre Hall; [reflexivity |].
  destruct s as [| d s]; [discriminate |]. simpl in Hpre.
  destruct (Ascii.ascii_dec c d) as [-> | Hne]; [| discriminate].
  simpl in *. apply andb_true_iff in Hall as [Hd Hs].
  rewrite Hd. simpl. now apply (IH s).
Qed.

(** X4.  What [detectDataFormat] can answer for a string, by its length:
    [base64] only for a string over the Base64 alphabet whose length is a
    multiple of 4 between 21 and 40; [pgcrypto_base64] only for strings of
    more than 20 characters; and every string over the Base64 alphabet of
    more than 40 characters is [pgcrypto_base64], whatever it encodes. *)
Theorem detectDataFormat_by_length (data : string) :
  (detectDataFormat data = base64 ->
     all_chars is_base64_char data = true
     /\ (20 < String.length data <= 40)%nat
     /\ (String.length data mod 4 = 0)%nat)
  /\ (detectDataFormat data = pgcrypto_base64 -> (20 < String.length data)%nat)
  /\ (all_chars is_base64_char data = true -> (40 < String.length data)%nat ->
      detectDataFormat data = pgcrypto_base64).
Proof.
  unfold detectDataFormat. split; [| split].
  - destruct (String.eqb data ""); [discriminate |].
    destruct (String.prefix "fallback:" data); [discriminate |].
    destruct (String.prefix "\x" data && negb (String.eqb (substring_from 2 data) "")
              && all_chars is_hex_digit (substring_from 2 data)); [discriminate |].
    destruct (String.prefix "ww0ECQMC" data && (20 <? String.length data)%nat);
      [discriminate |].
    destruct (String.prefix "ww0" data && (40 <? String.length data)%nat);
      [discriminate |].
    destruct (all_chars is_base64_char data) eqn:Hall; cbn [andb orb].
    + destruct (20 <? String.length data)%nat eqn:H20; cbn [andb orb].
      * destruct (includes "ECQMC" data); cbn [andb orb]; [discriminate |].
        destruct (40 <? String.length data)%nat eqn:H40; [discriminate |].
        destruct (String.length data mod 4 =? 0)%nat eqn:Hmod.
        -- intros _. apply Nat.ltb_lt in H20. apply Nat.ltb_ge in H40.
           apply Nat.eqb_eq in Hmod. repeat split; assumption.
        -- destruct (JSON_parse data); cbv beta iota; discriminate.
      * destruct (JSON_parse data); cbv beta iota; discriminate.
    + destruct (JSON_parse data); cbv beta iota; discriminate.
  - destruct (String.eqb data ""); [discriminate |].
    destruct (String.prefix "fallback:" data); [discriminate |].
    destruct (String.prefix "\x" data && negb (String.eqb (substring_from 2 data) "")
              && all_chars is_hex_digit (substring_from 2 data)); [discriminate |].
    destruct (String.prefix "ww0ECQMC" data && (20 <? String.length data)%nat)
      eqn:H1.
    { intros _. apply andb_true_iff in H1 as [_ H1]. now apply Nat.ltb_lt in H1. }
    destruct (String.prefix "ww0" data && (40 <? String.length data)%nat) eqn:H2.
    { intros _. apply andb_true_iff in H2 as [_ H2]. apply Nat.ltb_lt in H2. lia. }
    destruct (all_chars is_base64_char data); cbn [andb orb].
    + destruct (20 <? String.length data)%nat eqn:H20; cbn [andb orb].
      * intros _. now apply Nat.ltb_lt in H20.
      * destruct (JSON_parse data); cbv beta iota; discriminate.
    + destruct (JSON_parse data); cbv beta iota; discriminate.
  - intros Hall Hlen.
    destruct (String.eqb data "") eqn:H0.
    { apply String.eqb_eq in H0. subst. simpl in Hlen. lia. }
    destruct (String.prefix "fallback:" data) eqn:Hf.
    { pose proof (all_chars_prefix _ _ _ Hf Hall) as H. vm_compute in H.
      discriminate H. }
    destruct (String.prefix "\x" data) eqn:Hx.
    { pose proof (all_chars_prefix _ _ _ Hx Hall) as H. vm_compute in H.
      discriminate H. }
    cbn [andb orb].
    destruct (String.prefix "ww0ECQMC" data && (20 <? String.length data)%nat);
      [reflexivity |].
    destruct (String.prefix "ww0" data && (40 <? String.length data)%nat);
      [reflexivity |].
    rewrite Hall.
    assert ((20 <? String.length data)%nat = true) as -> by (apply Nat.ltb_lt; lia).
    assert ((40 <? String.length data)%nat = true) as -> by (now apply Nat.ltb_lt).
    cbn [andb orb]. now rewrite orb_true_r.
Qed.

(** X5.  [decryptData] of the backend adds to [decrypt] only the handling
    of what is no string: [null] stays [null], a value of another type
    throws 'Invalid data type for decryption', and a non-empty string is
    treated exactly as [decrypt] treats it (its own [catch] never turns a
    failure of [decrypt] into [null]); the empty string gives [null]. *)
Theorem decryptData_is_decrypt (svc : EncryptionService) (userId : string) :
  decryptData svc JNull userId = Ok JNull
  /\ decryptData svc (JStr "") userId = Ok JNull
  /\ (forall s, s <> "" -> decryptData svc (JStr s) userId = decrypt svc s userId)
  /\ (forall v, v <> JNull -> (forall s, v <> JStr s) ->
        decryptData svc v userId
        = Throw (new_Error
            ("Invalid data type for decryption: expected encrypted string, got "
             +:+ typeof v))).
Proof.
  split; [reflexivity |]. split; [reflexivity |]. split.
  - intros s Hs. unfold decryptData.
    destruct (decrypt svc s userId) as [v | e] eqn:Hrun; [reflexivity |].
    destruct (decrypt_throws _ _ _ _ Hs Hrun) as [-> ->]. reflexivity.
  - intros v Hnull Hstr. destruct v; try reflexivity; [congruence |].
    now destruct (Hstr s).
Qed.

(* --------------------------------------------------------------------- *)
(** *** JavaScript maps                                                    *)
(* --------------------------------------------------------------------- *)

Lemma Map_has_get {V : Type} (k : string) (m : list (string * V)) :
  Map_has k m = true <-> exists v, Map_get k m = Some v.
Proof.
  unfold Map_has, Map_get. induction m as [| [k' v'] m IH]; simpl.
  - split; [discriminate | intros [v H]; discriminate].
  - destruct (String.eqb k' k); simpl; [| exact IH].
    split; [now exists v' | reflexivity].
Qed.

Lemma Map_get_set_eq {V : Type} (k : string) (v : V) (m : list (string * V)) :
  Map_get k (Map_set k v m) = Some v.
Proof.
  unfold Map_set. destruct (Map_has k m) eqn:Hhas.
  - unfold Map_get, Map_has in *. induction m as [| [k' v'] m IH]; simpl in *;
      [discriminate |].
    destruct (String.eqb k' k) eqn:E; simpl.
    + now rewrite String.eqb_refl.
    + rewrite E. now apply IH.
  - unfold Map_get, Map_has in *. induction m as [| [k' v'] m IH]; simpl in *.
    + now rewrite String.eqb_refl.
    + destruct (String.eqb k' k) eqn:E; simpl in *; [discriminate |].
      now apply IH.
Qed.

Lemma Map_get_set_ne {V : Type} (k k' : string) (v : V) (m : list (string * V)) :
  k' <> k -> Map_get k' (Map_set k v m) = Map_get k' m.
Proof.
  intros Hne. apply String.eqb_neq in Hne.
  unfold Map_set. destruct (Map_has k m).
  - unfold Map_get. induction m as [| [k0 v0] m IH]; simpl; [reflexivity |].
    destruct (String.eqb k0 k) eqn:E; simpl.
    + apply String.eqb_eq in E. subst k0.
      rewrite String.eqb_sym, Hne.
      destruct (List.find _ (List.map _ m)), (List.find _ m); simpl in *;
        congruence.
    + destruct (String.eqb k0 k'); [reflexivity |].
      destruct (List.find _ (List.map _ m)), (List.find _ m); simpl in *;
        congruence.
  - unfold Map_get. induction m as [| [k0 v0] m IH]; simpl.
    + now rewrite String.eqb_sym, Hne.
    + destruct (String.eqb k0 k'); [reflexivity | exact IH].
Qed.

Lemma Map_set_keys {V : Type} (k : string) (v : V) (m : list (string * V)) :
  List.map fst (Map_set k v m)
  = if Map_has k m then List.map fst m else List.map fst m ++ [k].
Proof.
  unfold Map_set. destruct (Map_has k m).
  - induction m as [| [k0 v0] m IH]; simpl; [reflexivity |].
    destruct (String.eqb k0 k) eqn:E; simpl; [| now rewrite IH].
    apply String.eqb_eq in E. now rewrite IH, E.
  - now rewrite List.map_app.
Qed.

Lemma Map_has_In {V : Type} (k : string) (m : list (string * V)) :
  Map_has k m = true <-> In k (List.map fst m).
Proof.
  unfold Map_has. rewrite existsb_exists, in_map_iff. split.
  - intros (p & Hp & E). apply String.eqb_eq in E. now exists p.
  - intros (p & E & Hp). exists p. split; [assumption |]. now apply String.eqb_eq.
Qed.

Lemma Map_set_NoDup {V : Type} (k : string) (v : V) (m : list (string * V)) :
  List.NoDup (List.map fst m) -> List.NoDup (List.map fst (Map_set k v m)).
Proof.
  intros Hnd. rewrite Map_set_keys. destruct (Map_has k m) eqn:Hhas; [assumption |].
  apply NoDup_snoc; [assumption |].
  intros Hin. apply Map_has_In in Hin. congruence.
Qed.

Lemma Map_get_delete_eq {V : Type} (k : string) (m : list (string * V)) :
  Map_get k (Map_delete k m) = None.
Proof.
  unfold Map_get, Map_delete. induction m as [| [k0 v0] m IH]; simpl; [reflexivity |].
  destruct (String.eqb k0 k) eqn:E; simpl; [exact IH |]. now rewrite E.
Qed.

Lemma Map_get_delete_ne {V : Type} (k k' : string) (m : list (string * V)) :
  k' <> k -> Map_get k' (Map_delete k m) = Map_get k' m.
Proof.
  intros Hne. apply String.eqb_neq in Hne.
  unfold Map_get, Map_delete. induction m as [| [k0 v0] m IH]; simpl; [reflexivity |].
  destruct (String.eqb k0 k) eqn:E; simpl.
  - apply String.eqb_eq in E. subst k0. rewrite String.eqb_sym, Hne. exact IH.
  - destruct (String.eqb k0 k'); [reflexivity | exact IH].
Qed.

Lemma Map_delete_In {V : Type} (k : string) (m : list (string * V))
    (p : string * V) :
  In p (Map_delete k m) <-> In p m /\ fst p <> k.
Proof.
  unfold Map_delete. rewrite filter_In, negb_true_iff, String.eqb_neq. reflexivity.
Qed.

(* --------------------------------------------------------------------- *)
(** *** SupabaseStorageBackend: the identity check                         *)
(* --------------------------------------------------------------------- *)

Lemma SupabaseStorageBackend_set_mismatch (key : string) (data : JSON)
    (userId : string) (w : World) (session : option string) :
  auth_session w = Ok session -> session_differs session userId = true ->
  SupabaseStorageBackend_set key data userId w = (Throw session_mismatch, w).
Proof.
  intros Hs Hd. unfold SupabaseStorageBackend_set, try_catch, bind.
  now rewrite !(logDataAccess_mismatch _ _ _ _ _ Hs Hd).
Qed.

Lemma SupabaseStorageBackend_remove_mismatch (key userId : string) (w : World)
    (session : option string) :
  auth_session w = Ok session -> session_differs session userId = true ->
  SupabaseStorageBackend_remove key userId w = (Throw session_mismatch, w).
Proof.
  intros Hs Hd. unfold SupabaseStorageBackend_remove, try_catch, bind.
  now rewrite !(logDataAccess_mismatch _ _ _ _ _ Hs Hd).
Qed.

(** X6.  Under a session that belongs to another user, or under no
    session, every operation of the remote backend throws the 'Session
    user ID mismatch' error and leaves everything as it was: no audit
    entry is written, no request is made against the record tables, no
    sync-status row is added. *)
Theorem backend_rejects_foreign_session (key : string) (data : JSON)
    (userId : string) (w : World) (session : option string) :
  auth_session w = Ok session -> session_differs session userId = true ->
  SupabaseStorageBackend_get key userId w = (Throw session_mismatch, w)
  /\ SupabaseStorageBackend_set key data userId w = (Throw session_mismatch, w)
  /\ SupabaseStorageBackend_remove key userId w = (Throw session_mismatch, w).
Proof.
  intros Hs Hd. split; [| split].
  - exact (SupabaseStorageBackend_get_mismatch _ _ _ _ Hs Hd).
  - exact (SupabaseStorageBackend_set_mismatch _ _ _ _ _ Hs Hd).
  - exact (SupabaseStorageBackend_remove_mismatch _ _ _ _ Hs Hd).
Qed.

Lemma logDataAccess_lookup_down (action tableName userId : string) (w : World)
    (e : JsError) :
  auth_session w = Throw e ->
  is_Error e && includes "Session user ID mismatch" (message e) = false ->
  logDataAccess action tableName userId w = (Ok tt, w).
Proof.
  intros Hs He. unfold logDataAccess, try_catch, bind, getSession.
  now rewrite Hs, He.
Qed.

Lemma table_write_keeps_auth_session (key : string) (data : JSON)
    (userId : string) :
  respects (keeps auth_session)
    ((if String.eqb (getTableName key) "user_profiles"
      then setUserProfileData key data userId
      else setUserDataInTable key data (getTableName key) userId) >>
     updateSyncStatus (getTableName key) userId "completed" None).
Proof. respects_tac. Qed.

Lemma table_write_emits_no_audit (key : string) (data : JSON)
    (userId : string) :
  respects (emitted is_not_audit)
    (try_catch
       ((if String.eqb (getTableName key) "user_profiles"
         then setUserProfileData key data userId
         else setUserDataInTable key data (getTableName key) userId) >>
        updateSyncStatus (getTableName key) userId "completed" None)
       (fun err =>
          updateSyncStatus (getTableName key) userId "failed"
                           (Some (String_of_error err)) >>
          throw err)).
Proof. respects_tac. Qed.

(** X7.  When the session lookup itself fails (with anything but the
    mismatch error), the audit step is given up and the operation goes on
    without it: the backend's write is the write to the table of the kind
    and the sync-status row, with no entry in the audit log and no check of
    whose session it is.  So a write of the points, the request being
    accepted, resolves with the owner's profile row upserted. *)
Theorem backend_write_survives_audit_failure (key : string) (data : JSON)
    (userId : string) (w : World) (e : JsError) :
  auth_session w = Throw e ->
  is_Error e && includes "Session user ID mismatch" (message e) = false ->
  SupabaseStorageBackend_set key data userId w
  = try_catch
      ((if String.eqb (getTableName key) "user_profiles"
        then setUserProfileData key data userId
        else setUserDataInTable key data (getTableName key) userId) >>
       updateSyncStatus (getTableName key) userId "completed" None)
      (fun err =>
         updateSyncStatus (getTableName key) userId "failed"
                          (Some (String_of_error err)) >>
         throw err) w
  /\ (forall o w',
        SupabaseStorageBackend_set key data userId w = (o, w') ->
        emitted is_not_audit w w')
  /\ (key = "points" -> hd None (remote_faults w) = None ->
      exists w',
        SupabaseStorageBackend_set key data userId w = (Ok tt, w')
        /\ trace w' = trace w ++ [EvRemoteWrite key data userId;
                                  EvSyncStatus "user_profiles" userId "completed"]
        /\ table "user_profiles" w'
           = upsert_row (now w) ["user_id"] (table "user_profiles" w)
               [("user_id", JStr userId); ("points", data);
                ("device_fingerprint", JStr "SERVER-SIDE-SUPABASE")]).
Proof.
  intros Hs He.
  assert (SupabaseStorageBackend_set key data userId w
          = try_catch
              ((if String.eqb (getTableName key) "user_profiles"
                then setUserProfileData key data userId
                else setUserDataInTable key data (getTableName key) userId) >>
               updateSyncStatus (getTableName key) userId "completed" None)
              (fun err =>
                 updateSyncStatus (getTableName key) userId "failed"
                                  (Some (String_of_error err)) >>
                 throw err) w) as Hrun.
  { unfold SupabaseStorageBackend_set, try_catch. unfold bind at 1.
    rewrite (logDataAccess_lookup_down _ _ _ _ _ Hs He). cbv beta iota.
    destruct (((if String.eqb (getTableName key) "user_profiles"
                then setUserProfileData key data userId
                else setUserDataInTable key data (getTableName key) userId) >>
               updateSyncStatus (getTableName key) userId "completed" None) w)
      as [[[] | err] w1] eqn:Hbody; [reflexivity |].
    pose proof (table_write_keeps_auth_session key data userId _ _ _ Hbody) as Hk.
    unfold keeps in Hk. rewrite Hs in Hk.
    unfold bind at 1.
    now rewrite (logDataAccess_lookup_down _ _ _ _ _ Hk He). }
  split; [exact Hrun |]. split.
  - intros o w'. rewrite Hrun. apply table_write_emits_no_audit.
  - intros -> Hok. rewrite Hrun.
    unfold try_catch, bind, setUserProfileData, upsert_profile, from_upsert,
      throw_on_error, updateSyncStatus, bind, emit, modify, gets, ret,
      next_remote_fault, next_status_fault, table.
    simpl.
    destruct (remote_faults w) as [| f rest]; simpl in *; [| subst f; simpl];
      destruct (status_faults w) as [| [g |] srest]; simpl;
      (eexists; split; [reflexivity |]); unfold set_table; simpl;
      rewrite <- app_assoc, lookup_insert_eq; split; reflexivity.
Qed.

(* --------------------------------------------------------------------- *)
(** *** HybridDataService: what the coordinator does with failures         *)
(* --------------------------------------------------------------------- *)

(** X8.  The coordinator's write does not report an identity violation:
    online, under a session of another user, [setData] resolves; the
    Remote Record Store and the sync-status rows are untouched, and the
    value is written to the Local Cache Store and queued for sync under
    the requested owner. *)
Theorem setData_swallows_identity_violation (key : string) (data : JSON)
    (userId : string) (w : World) (session : option string) :
  isOnline w = true ->
  auth_session w = Ok session -> session_differs session userId = true ->
  hd None (local_faults w) = None ->
  exists w',
    setData key data userId w = (Ok tt, w')
    /\ remote_records w' = remote_records w
    /\ sync_status w' = sync_status w
    /\ localStorage w' = <[key := data]> (localStorage w)
    /\ Map_get (userId +:+ ":" +:+ key) (syncQueue w')
       = Some {| qw_key := key; qw_data := data; qw_userId := userId;
                 qw_timestamp := now w |}
    /\ trace w' = trace w ++ [EvLocalSet key data; EvQueueForSync key data userId].
Proof.
  intros Honline Hs Hd Hlocal.
  rewrite (setData_online key data userId w _ w Honline
             (SupabaseStorageBackend_set_mismatch _ _ _ _ _ Hs Hd)).
  destruct (storageService_set_ok key data w Hlocal)
    as (w1 & Hset & Ht & Hl & Hq & Hr & Hss & _).
  unfold bind, LocalStorageBackend_set. rewrite Hset.
  assert (now w1 = now w) as Hnow.
  { revert Hset. unfold storageService_set, bind, emit, modify, next_local_fault.
    simpl. destruct (local_faults w) as [| [e |] rest]; intros H; inversion H;
      reflexivity. }
  eexists. split; [reflexivity |]. simpl.
  rewrite Hr, Hss, Hl, Hq, Ht, Hnow, Map_get_set_eq, <- app_assoc. auto 10.
Qed.

(** X9.  The sync queue is a map keyed by owner and kind: queueing a write
    leaves exactly one entry under its key, holding the value just queued
    (an earlier queued value of the same owner and kind is replaced, not
    kept beside it); the entries under other keys are as before, and the
    keys stay distinct. *)
Theorem queueForSync_last_write_wins (key : string) (data : JSON)
    (userId : string) (w : World) :
  exists w',
    queueForSync key data userId w = (Ok tt, w')
    /\ Map_get (userId +:+ ":" +:+ key) (syncQueue w')
       = Some {| qw_key := key; qw_data := data; qw_userId := userId;
                 qw_timestamp := now w |}
    /\ (forall k, k <> userId +:+ ":" +:+ key ->
          Map_get k (syncQueue w') = Map_get k (syncQueue w))
    /\ List.length (syncQueue w')
       = (if Map_has (userId +:+ ":" +:+ key) (syncQueue w)
          then List.length (syncQueue w) else S (List.length (syncQueue w)))
    /\ (List.NoDup (List.map fst (syncQueue w)) ->
        List.NoDup (List.map fst (syncQueue w'))).
Proof.
  eexists. split; [reflexivity |]. simpl.
  split; [apply Map_get_set_eq |].
  split; [intros k Hk; now apply Map_get_set_ne |].
  split; [| apply Map_set_NoDup].
  unfold Map_set. destruct (Map_has _ _).
  - now rewrite List.length_map.
  - rewrite List.length_app. simpl. lia.
Qed.

(* --------------------------------------------------------------------- *)
(** *** HybridDataService: draining the sync queue                         *)
(* --------------------------------------------------------------------- *)

Lemma sync_queued_run (entry : string * QueuedWrite) (w : World) :
  exists w',
    sync_queued entry w = (Ok tt, w')
    /\ localStorage w' = localStorage w
    /\ isOnline w' = isOnline w
    /\ (forall q, In q (syncQueue w') -> In q (syncQueue w)).
Proof.
  destruct entry as [queueKey queueData]. unfold sync_queued, try_catch, bind.
  destruct (SupabaseStorageBackend_set _ _ _ w) as [[[] | e] w1] eqn:Hset.
  - pose proof (SupabaseStorageBackend_set_keeps_localStorage _ _ _ _ _ _ Hset) as Hl.
    pose proof (SupabaseStorageBackend_set_keeps_syncQueue _ _ _ _ _ _ Hset) as Hq.
    assert (respects (keeps isOnline)
              (SupabaseStorageBackend_set (qw_key queueData) (qw_data queueData)
                 (qw_userId queueData))) as Ho by respects_tac.
    specialize (Ho _ _ _ Hset). unfold keeps in *.
    eexists. split; [reflexivity |]. simpl. rewrite Hl, Ho, Hq.
    split; [reflexivity |]. split; [reflexivity |].
    intros q Hin. now apply Map_delete_In in Hin.
  - pose proof (SupabaseStorageBackend_set_keeps_localStorage _ _ _ _ _ _ Hset) as Hl.
    pose proof (SupabaseStorageBackend_set_keeps_syncQueue _ _ _ _ _ _ Hset) as Hq.
    assert (respects (keeps isOnline)
              (SupabaseStorageBackend_set (qw_key queueData) (qw_data queueData)
                 (qw_userId queueData))) as Ho by respects_tac.
    specialize (Ho _ _ _ Hset). unfold keeps in *.
    eexists. split; [reflexivity |]. rewrite Hl, Ho, Hq. auto.
Qed.

Lemma sync_queue_run (entries : list (string * QueuedWrite)) (w : World) :
  exists w',
    for_each entries sync_queued w = (Ok tt, w')
    /\ localStorage w' = localStorage w
    /\ (forall q, In q (syncQueue w') -> In q (syncQueue w)).
Proof.
  revert w. induction entries as [| entry rest IH]; intros w; simpl.
  - exists w. auto.
  - destruct (sync_queued_run entry w) as (w1 & Hrun & Hl & _ & Hq).
    destruct (IH w1) as (w' & Hrest & Hl' & Hq').
    exists w'. unfold bind. rewrite Hrun. split; [exact Hrest |].
    split; [congruence | auto].
Qed.

(** X10.  Draining the sync queue never throws and never touches the Local
    Cache Store; it only removes entries, nothing is added; offline, or
    with an empty queue, it does nothing at all.  Online it goes through
    the entries in the order of the queue, and an entry leaves the queue
    exactly when the backend's write of its value resolves: an entry whose
    remote write failed stays for the next drain. *)
Theorem processSyncQueue_drains (w : World) :
  exists w',
    processSyncQueue w = (Ok tt, w')
    /\ localStorage w' = localStorage w
    /\ (forall p, In p (syncQueue w') -> In p (syncQueue w))
    /\ (isOnline w = false \/ syncQueue w = [] -> w' = w)
    /\ (isOnline w = true ->
        for_each (syncQueue w) sync_queued w = (Ok tt, w'))
    /\ (forall queueKey queueData w0 o w1,
          SupabaseStorageBackend_set (qw_key queueData) (qw_data queueData)
            (qw_userId queueData) w0 = (o, w1) ->
          sync_queued (queueKey, queueData) w0
          = (Ok tt, match o with
                    | Ok _ => set_syncQueue (Map_delete queueKey) w1
                    | Throw _ => w1
                    end)).
Proof.
  assert (forall queueKey queueData w0 o w1,
            SupabaseStorageBackend_set (qw_key queueData) (qw_data queueData)
              (qw_userId queueData) w0 = (o, w1) ->
            sync_queued (queueKey, queueData) w0
            = (Ok tt, match o with
                      | Ok _ => set_syncQueue (Map_delete queueKey) w1
                      | Throw _ => w1
                      end)) as Hentry.
  { intros queueKey queueData w0 o w1 Hset.
    unfold sync_queued, try_catch, bind. rewrite Hset.
    destruct o as [[] | e]; reflexivity. }
  unfold processSyncQueue, bind, gets.
  destruct (isOnline w) eqn:Honline; cbv [negb orb]; cbv beta iota.
  - destruct (List.length (syncQueue w) =? 0)%nat eqn:Hempty.
    + exists w. split; [reflexivity |]. split; [reflexivity |].
      split; [auto |]. split; [reflexivity |].
      split; [| exact Hentry].
      intros _. apply Nat.eqb_eq in Hempty.
      destruct (syncQueue w); [reflexivity | discriminate].
    + destruct (sync_queue_run (syncQueue w) w) as (w' & Hrun & Hl & Hq).
      exists w'. split; [exact Hrun |]. split; [exact Hl |].
      split; [exact Hq |]. split; [| split; [intros _; exact Hrun | exact Hentry]].
      intros [H | H]; [discriminate |].
      rewrite H in Hempty. discriminate.
  - exists w. split; [reflexivity |]. split; [reflexivity |].
    split; [auto |]. split; [reflexivity |]. split; [discriminate | exact Hentry].
Qed.

(* --------------------------------------------------------------------- *)
(** *** HybridDataService: forced sync, removal, reads                     *)
(* --------------------------------------------------------------------- *)

Lemma sync_keys_run (userId : string) (keys : list string) :
  forall results w,
    exists r w' s f,
      sync_keys userId results keys w = (Ok r, w')
      /\ localStorage w' = localStorage w
      /\ sa_success r = sa_success results ++ s
      /\ sa_failed r = sa_failed results ++ f
      /\ Permutation (s ++ f) (List.filter (cached w) keys).
Proof.
  induction keys as [| key rest IH]; intros results w; simpl.
  - exists results, w, [], []. rewrite !app_nil_r. auto.
  - unfold bind at 1. unfold sync_key, try_catch, bind at 1.
    unfold LocalStorageBackend_get, storageService_get, gets. unfold cached at 1.
    destruct (is_null (default JNull (localStorage w !! key))) eqn:Hnull;
      cbv [negb]; cbv beta iota.
    + unfold ret at 1.
      destruct (IH results w) as (r & w' & s & f & Hrun & Hl & Hs & Hf & Hp).
      exists r, w', s, f. auto.
    + unfold bind at 1.
      destruct (SupabaseStorageBackend_set key _ userId w) as [[[] | e] w1] eqn:Hset;
        pose proof (SupabaseStorageBackend_set_keeps_localStorage _ _ _ _ _ _ Hset)
          as Hl1; unfold keeps in Hl1.
      * unfold ret at 1.
        destruct (IH {| sa_success := sa_success results ++ [key];
                        sa_failed := sa_failed results |} w1)
          as (r & w' & s & f & Hrun & Hl & Hs & Hf & Hp).
        exists r, w', (key :: s), f. simpl in *.
        split; [exact Hrun |]. split; [congruence |].
        split; [now rewrite Hs, <- app_assoc |]. split; [exact Hf |].
        apply perm_skip.
        replace (List.filter (cached w) rest) with (List.filter (cached w1) rest);
          [exact Hp |].
        apply filter_ext. intros k. unfold cached. now rewrite Hl1.
      * unfold ret at 1.
        destruct (IH {| sa_success := sa_success results;
                        sa_failed := sa_failed results ++ [key] |} w1)
          as (r & w' & s & f & Hrun & Hl & Hs & Hf & Hp).
        exists r, w', s, (key :: f). simpl in *.
        split; [exact Hrun |]. split; [congruence |].
        split; [exact Hs |]. split; [now rewrite Hf, <- app_assoc |].
        apply Permutation_sym, Permutation_cons_app, Permutation_sym.
        replace (List.filter (cached w) rest) with (List.filter (cached w1) rest);
          [exact Hp |].
        apply filter_ext. intros k. unfold cached. now rewrite Hl1.
Qed.

(** X11.  The forced sync never throws and never changes the Local Cache
    Store.  The keys it reports, as synced or as failed, are together
    exactly the keys of its list that hold a cached value, each reported
    once: a key with nothing cached is passed over in silence, and a key
    whose remote write throws is reported as failed while the loop goes
    on. *)
Theorem syncAllData_reports_cached_keys (userId : string) (w : World) :
  exists r w',
    syncAllData userId w = (Ok r, w')
    /\ localStorage w' = localStorage w
    /\ Permutation (sa_success r ++ sa_failed r) (List.filter (cached w) dataKeys).
Proof.
  destruct (sync_keys_run userId dataKeys {| sa_success := []; sa_failed := [] |} w)
    as (r & w' & s & f & Hrun & Hl & Hs & Hf & Hp).
  exists r, w'. split; [exact Hrun |]. split; [exact Hl |].
  simpl in Hs, Hf. now rewrite Hs, Hf.
Qed.

Lemma SupabaseStorageBackend_remove_keeps_localStorage (key userId : string) :
  respects (keeps localStorage) (SupabaseStorageBackend_remove key userId).
Proof. respects_tac. Qed.

(** X12.  Removal never throws and always clears the Local Cache Store
    entry, whatever the remote side does.  A remote failure is swallowed
    and not queued for a later retry: offline, or under a session of
    another user, the Remote Record Store is left as it was, and the sync
    queue is never touched. *)
Theorem removeData_always_clears_cache (key userId : string) (w : World) :
  exists w',
    removeData key userId w = (Ok tt, w')
    /\ localStorage w' = base.delete key (localStorage w)
    /\ syncQueue w' = syncQueue w
    /\ (isOnline w = false ->
        remote_records w' = remote_records w
        /\ trace w' = trace w ++ [EvLocalRemove key])
    /\ (forall session,
          auth_session w = Ok session -> session_differs session userId = true ->
          remote_records w' = remote_records w
          /\ trace w' = trace w ++ [EvLocalRemove key]).
Proof.
  unfold removeData, LocalStorageBackend_remove, storageService_remove.
  unfold bind at 1, bind at 1, emit, modify. unfold bind at 1, gets.
  set (w0 := set_localStorage _ _). change (isOnline w0) with (isOnline w).
  destruct (isOnline w) eqn:Honline.
  - unfold try_catch.
    destruct (SupabaseStorageBackend_remove key userId w0) as [[[] | e] w1] eqn:Hrm;
      pose proof (SupabaseStorageBackend_remove_keeps_localStorage _ _ _ _ _ Hrm)
        as Hl;
      (assert (respects (keeps syncQueue) (SupabaseStorageBackend_remove key userId))
         as Hq by respects_tac);
      specialize (Hq _ _ _ Hrm); unfold keeps in *.
    + exists w1. split; [reflexivity |]. split; [now rewrite Hl |].
      split; [now rewrite Hq |]. split; [discriminate |].
      intros session Hs Hd.
      rewrite (SupabaseStorageBackend_remove_mismatch key userId w0 session) in Hrm
        by assumption.
      discriminate.
    + exists w1. split; [reflexivity |]. split; [now rewrite Hl |].
      split; [now rewrite Hq |]. split; [discriminate |].
      intros session Hs Hd.
      rewrite (SupabaseStorageBackend_remove_mismatch key userId w0 session) in Hrm
        by assumption.
      injection Hrm as _ <-. auto.
  - exists w0. split; [reflexivity |]. split; [reflexivity |].
    split; [reflexivity |]. split; [auto |]. auto.
Qed.

(** X13.  The read-through of an online read.  When the remote backend
    yields a value, [getData] writes it to the Local Cache Store and
    resolves to it; when that cache write is refused by the browser, the
    read falls back to the cache and resolves to the value cached before
    (the stale one), not to the value the remote backend yielded.  When
    the remote backend yields [null], the read resolves to the cached
    value. *)
Theorem getData_read_through (key uid : string) (w w1 : World) (sv : JSON) :
  invalid_userId (Some uid) = false -> isOnline w = true ->
  SupabaseStorageBackend_get key uid w = (Ok sv, w1) ->
  (is_null sv = true ->
     getData key (Some uid) w = (Ok (default JNull (localStorage w !! key)), w1))
  /\ (is_null sv = false -> hd None (local_faults w1) = None ->
      exists w2, getData key (Some uid) w = (Ok sv, w2)
                 /\ localStorage w2 = <[key := sv]> (localStorage w))
  /\ (is_null sv = false ->
      forall e, hd None (local_faults w1) = Some e ->
                is_critical_auth_error e = false ->
      exists w2,
        getData key (Some uid) w = (Ok (default JNull (localStorage w !! key)), w2)
        /\ localStorage w2 = localStorage w).
Proof.
  intros Hvalid Honline Hget.
  pose proof (SupabaseStorageBackend_get_keeps_localStorage _ _ _ _ _ Hget) as Hl.
  unfold keeps in Hl.
  assert (getData key (Some uid) w
          = if is_null sv then LocalStorageBackend_get key uid w1
            else match LocalStorageBackend_set key sv uid w1 with
                 | (Ok _, w2) => (Ok sv, w2)
                 | (Throw e, w2) =>
                     (if is_critical_auth_error e then throw e
                      else LocalStorageBackend_get key uid) w2
                 end) as Hrun.
  { unfold getData. rewrite Hvalid. simpl show_userId.
    unfold try_catch, bind at 1, gets. rewrite Honline.
    unfold bind at 1, bind at 1. rewrite Hget.
    destruct (is_null sv); cbv [negb]; cbv beta iota; [reflexivity |].
    unfold bind at 1.
    destruct (LocalStorageBackend_set key sv uid w1) as [[[] | e] w2]; reflexivity. }
  rewrite Hrun. split; [| split].
  - intros ->.
    unfold LocalStorageBackend_get, storageService_get, gets. now rewrite Hl.
  - intros -> Hok.
    destruct (storageService_set_ok key sv w1 Hok)
      as (w2 & Hset & _ & Hl2 & _).
    unfold LocalStorageBackend_set. rewrite Hset.
    exists w2. split; [reflexivity | congruence].
  - intros -> e He Hother.
    unfold LocalStorageBackend_set.
    unfold storageService_set, bind, emit, modify, next_local_fault, throw.
    simpl. destruct (local_faults w1) as [| f rest]; [discriminate |].
    simpl in He. subst f. simpl. rewrite Hother.
    unfold LocalStorageBackend_get, storageService_get, gets. simpl.
    eexists. split; [now rewrite Hl |]. simpl. exact Hl.
Qed.

(** X14.  [getDataSafe] throws nothing but the identity errors (a
    mismatched session, an invalid owner id): when the read fails, an
    identity error is thrown on and every other failure ends in the
    default value, in the state the read left.  A read that yields [null]
    ends in the default value as well, and the result is never [null] when
    the default is not [null]. *)
Theorem getDataSafe_outcome (key : string) (userId : option string)
    (defaultValue : JSON) (w w' : World) (o : Outcome JSON) :
  getDataSafe key userId defaultValue w = (o, w') ->
  match o with
  | Throw e => is_critical_auth_error e = true
  | Ok v => is_null defaultValue = false -> is_null v = false
  end
  /\ (forall e w1,
        getData key userId w = (Throw e, w1) ->
        (o, w') = (if is_critical_auth_error e then Throw e
                   else Ok defaultValue, w1))
  /\ (forall w1,
        getData key userId w = (Ok JNull, w1) ->
        (o, w') = (Ok defaultValue, w1)).
Proof.
  unfold getDataSafe, try_catch, bind.
  destruct (getData key userId w) as [[data | e] w1].
  - intros H. split; [| split; [discriminate |]].
    + destruct data, defaultValue; unfold ret in H; inversion H; subst;
        simpl; auto;
        try (destruct (String.eqb key "skillsList");
             try destruct (List.length items =? 0)%nat;
             inversion H; subst; simpl; auto).
    + intros w2 E. injection E as -> ->. rewrite <- H.
      destruct defaultValue; reflexivity.
  - intros H. split; [| split; [| discriminate]].
    + destruct (is_critical_auth_error e) eqn:Hc; unfold throw, ret in H;
        inversion H; subst; auto.
    + intros e' w2 E. injection E as -> ->. rewrite <- H.
      destruct (is_critical_auth_error e'); reflexivity.
Qed.

(* --------------------------------------------------------------------- *)
(** *** SyncService: order of the pass, table names                        *)
(* --------------------------------------------------------------------- *)

Lemma filter_subsequence {A : Type} (p : A -> bool) (l : list A) :
  subsequence (List.filter p l) l.
Proof.
  induction l as [| x l IH]; simpl; [constructor |].
  destruct (p x); now constructor.
Qed.

Lemma filter_partition_Permutation {A : Type} (p : A -> bool) (l : list A) :
  Permutation (List.filter p l ++ List.filter (fun x => negb (p x)) l) l.
Proof.
  induction l as [| x l IH]; simpl; [constructor |].
  destruct (p x); simpl.
  - now apply perm_skip.
  - apply Permutation_sym, Permutation_cons_app, Permutation_sym, IH.
Qed.

Lemma existsb_eqb_In (x : string) (l : list string) :
  existsb (String.eqb x) l = true <-> In x l.
Proof.
  rewrite existsb_exists. split.
  - intros (y & Hy & E). apply String.eqb_eq in E. now subst.
  - intros H. exists x. split; [assumption | apply String.eqb_refl].
Qed.

Lemma prioritizeHealthcareData_Permutation (dataTypes : list string) :
  List.NoDup dataTypes ->
  Permutation (prioritizeHealthcareData dataTypes) dataTypes.
Proof.
  intros Hnd.
  pose (is_healthcare := fun t => existsb (String.eqb t) healthcareTypes).
  pose (given := fun t => existsb (String.eqb t) dataTypes).
  assert (prioritizeHealthcareData dataTypes
          = List.filter given healthcareTypes
            ++ List.filter (fun t => negb (is_healthcare t)) dataTypes) as ->
    by reflexivity.
  rewrite <- (filter_partition_Permutation is_healthcare dataTypes) at 2.
  apply Permutation_app_tail.
  apply Permutation.NoDup_Permutation.
  - apply List.NoDup_filter. repeat constructor; simpl; prop_int; discriminate.
  - now apply List.NoDup_filter.
  - intros x. rewrite !filter_In. unfold is_healthcare, given.
    rewrite !existsb_eqb_In. prop.
Qed.

(** X15.  [prioritizeHealthcareData] returns the kinds it was given, no
    other and none missing: first the healthcare kinds among them (in the
    order symptoms, calendarNotes, goals), then all the others in the
    order they came in.  When no kind is given twice, the result is a
    rearrangement of the input. *)
Theorem prioritizeHealthcareData_order (dataTypes : list string) :
  exists first others,
    prioritizeHealthcareData dataTypes = first ++ others
    /\ subsequence first healthcareTypes
    /\ subsequence others dataTypes
    /\ (forall x, In x first <-> In x dataTypes /\ In x healthcareTypes)
    /\ (forall x, In x others <-> In x dataTypes /\ ~ In x healthcareTypes)
    /\ (forall x, In x (prioritizeHealthcareData dataTypes) <-> In x dataTypes)
    /\ (List.NoDup dataTypes ->
        Permutation (prioritizeHealthcareData dataTypes) dataTypes).
Proof.
  pose (is_healthcare := fun t => existsb (String.eqb t) healthcareTypes).
  pose (given := fun t => existsb (String.eqb t) dataTypes).
  assert (prioritizeHealthcareData dataTypes
          = List.filter given healthcareTypes
            ++ List.filter (fun t => negb (is_healthcare t)) dataTypes) as ->
    by reflexivity.
  exists (List.filter given healthcareTypes),
         (List.filter (fun t => negb (is_healthcare t)) dataTypes).
  assert (forall x, In x (List.filter given healthcareTypes)
                    <-> In x dataTypes /\ In x healthcareTypes) as Hfirst.
  { intros x. rewrite filter_In. unfold given. rewrite existsb_eqb_In. prop. }
  assert (forall x, In x (List.filter (fun t => negb (is_healthcare t)) dataTypes)
                    <-> In x dataTypes /\ ~ In x healthcareTypes) as Hothers.
  { intros x. rewrite filter_In, negb_true_iff. unfold is_healthcare.
    pose proof (existsb_eqb_In x healthcareTypes) as Hiff.
    destruct (existsb (String.eqb x) healthcareTypes).
    - split; [intros [_ H]; discriminate |].
      intros [_ H]. exfalso. now apply H, Hiff.
    - split; intros [H _]; (split; [exact H |]); [| reflexivity].
      intros Hin. apply Hiff in Hin. discriminate. }
  split; [reflexivity |]. split; [apply filter_subsequence |].
  split; [apply filter_subsequence |]. split; [exact Hfirst |].
  split; [exact Hothers |]. split.
  - intros x. rewrite in_app_iff, Hfirst, Hothers.
    destruct (in_dec string_dec x healthcareTypes); prop.
  - apply prioritizeHealthcareData_Permutation.
Qed.

(** X16.  The three services map a kind to its table by tables of their
    own, which agree except on the two skill kinds: for [skillsCompleted]
    the backend writes to [user_skills] while the SyncService looks in
    [user_profiles], and the ComplianceService sends both [skillsList] and
    [skillsCompleted] to [user_profiles].  On every other key the three
    give the same table. *)
Theorem table_names_agree (key : string) :
  SyncService_getTableName key
  = (if String.eqb key "skillsCompleted" then "user_profiles"
     else getTableName key)
  /\ ComplianceService_getTableName key
     = (if String.eqb key "skillsCompleted" || String.eqb key "skillsList"
        then "user_profiles" else getTableName key).
Proof.
  unfold SyncService_getTableName, ComplianceService_getTableName, getTableName.
  destruct (String.eqb_spec key "goals") as [-> | _]; [now split |].
  destruct (String.eqb_spec key "achievements") as [-> | _]; [now split |].
  destruct (String.eqb_spec key "skills") as [-> | _]; [now split |].
  destruct (String.eqb_spec key "skillsList") as [-> | _]; [now split |].
  destruct (String.eqb_spec key "skillsCompleted") as [-> | _]; [now split |].
  destruct (String.eqb_spec key "calendarNotes") as [-> | _]; [now split |].
  destruct (String.eqb_spec key "symptoms") as [-> | _]; [now split |].
  destruct (String.eqb_spec key "wordFiles") as [-> | _]; now split.
Qed.

(* --------------------------------------------------------------------- *)
(** *** SyncService: the status after a sync                               *)
(* --------------------------------------------------------------------- *)

Lemma saveSyncState_keeps_syncService (userId : string) :
  respects (keeps syncService) (saveSyncState userId).
Proof. unfold saveSyncState. respects_tac. Qed.

Lemma sync_each_app (userId : string) (l1 l2 : list string) :
  forall results w,
    sync_each userId results (l1 ++ l2) w
    = (let! results' := sync_each userId results l1 in
       sync_each userId results' l2) w.
Proof.
  induction l1 as [| x l1 IH]; intros results w; simpl; [reflexivity |].
  unfold bind.
  destruct (sync_one userId results x w) as [[r | e] w1]; [| reflexivity].
  rewrite IH. reflexivity.
Qed.

Lemma sync_each_total (userId : string) (l : list string) :
  forall results w, exists r w', sync_each userId results l w = (Ok r, w').
Proof.
  induction l as [| x l IH]; intros results w; simpl; [now exists results, w |].
  unfold bind at 1. unfold sync_one, try_catch, bind at 1.
  destruct (syncDataType x userId w) as [[[c |] | e] w1]; unfold ret at 1;
    apply IH.
Qed.

(** A batch and what comes after it make up what was left. *)
Lemma Array_slice_batch {A : Type} (i b : Z) (l : list A) :
  (0 <= i)%Z -> (0 < b)%Z -> (i < Z.of_nat (List.length l))%Z ->
  Array_slice i (i + b) l ++ skipn (Z.to_nat (i + b)) l = skipn (Z.to_nat i) l.
Proof.
  intros Hi Hb Hlen. unfold Array_slice.
  destruct (Z.ltb_spec (i + b) 0) as [H | _]; [lia |].
  destruct (Z.ltb_spec i 0) as [H | _]; [lia |].
  rewrite (Z.min_l i) by lia.
  destruct (Z.le_gt_cases (i + b) (Z.of_nat (List.length l))) as [Hin | Hout].
  - rewrite Z.min_l by lia.
    replace (Z.to_nat (i + b)) with (Z.to_nat b + Z.to_nat i)%nat by lia.
    rewrite <- List.skipn_skipn.
    replace (Z.to_nat (i + b - i)) with (Z.to_nat b) by lia.
    apply firstn_skipn.
  - rewrite Z.min_r by lia.
    rewrite (List.skipn_all2 l (n := Z.to_nat (i + b))) by lia.
    rewrite app_nil_r. apply List.firstn_all2.
    rewrite List.length_skipn. lia.
Qed.

(** With a positive batch size the batching loop ends, and it is the pass
    over the kinds in their order. *)
Lemma sync_batches_run (userId : string) (b : Z) (types : list string) :
  (0 < b)%Z ->
  forall fuel i results w,
    (0 <= i)%Z ->
    (Z.to_nat (Z.of_nat (List.length types) - i) < fuel)%nat ->
    sync_batches fuel userId b types i results w
    = Some (sync_each userId results (skipn (Z.to_nat i) types) w).
Proof.
  intros Hb. induction fuel as [| fuel IH]; intros i results w Hi Hfuel; [lia |].
  cbn [sync_batches].
  destruct (Z.ltb_spec i (Z.of_nat (List.length types))) as [Hlt | Hge].
  - rewrite <- (Array_slice_batch i b types) by lia.
    rewrite sync_each_app. unfold bind.
    destruct (sync_each userId results (Array_slice i (i + b) types) w)
      as [[r | e] w1]; [| reflexivity].
    apply IH; lia.
  - rewrite List.skipn_all2 by lia. reflexivity.
Qed.

(** With a batch size that is not positive the index never advances: the
    loop does not end, however many rounds it is given. *)
Lemma sync_batches_diverges (userId : string) (b : Z) (types : list string) :
  (b <= 0)%Z -> types <> [] ->
  forall fuel i results w,
    (i <= 0)%Z -> sync_batches fuel userId b types i results w = None.
Proof.
  intros Hb Htypes. induction fuel as [| fuel IH]; intros i results w Hi;
    [reflexivity |].
  cbn [sync_batches].
  destruct (Z.ltb_spec i (Z.of_nat (List.length types))) as [_ | Hge].
  - destruct (sync_each_total userId (Array_slice i (i + b) types) results w)
      as (r & w1 & ->).
    apply IH. lia.
  - destruct types; [congruence | simpl in Hge; lia].
Qed.

Lemma prioritized_length (priority : bool) :
  List.length (if priority then prioritizeHealthcareData tracked_dataTypes
               else tracked_dataTypes) = 10%nat.
Proof. destruct priority; reflexivity. Qed.

Lemma syncAllDataTypes_run (userId : string) (w : World) (fuel : nat) :
  (0 < batchSize (syncSettings (syncService w)))%Z -> (10 < fuel)%nat ->
  syncAllDataTypes fuel userId w
  = Some (sync_each userId empty_results
            (if healthcareDataPriority (syncSettings (syncService w))
             then prioritizeHealthcareData tracked_dataTypes
             else tracked_dataTypes) w).
Proof.
  intros Hb Hfuel. unfold syncAllDataTypes.
  rewrite sync_batches_run; [reflexivity | assumption | lia |].
  rewrite prioritized_length. lia.
Qed.

Lemma syncAllDataTypes_diverges (userId : string) (w : World) (fuel : nat) :
  (batchSize (syncSettings (syncService w)) <= 0)%Z ->
  syncAllDataTypes fuel userId w = None.
Proof.
  intros Hb. unfold syncAllDataTypes.
  apply sync_batches_diverges; [assumption | | lia].
  intros E. apply (f_equal (@List.length string)) in E.
  rewrite prioritized_length in E. discriminate.
Qed.

Lemma performSync_begin_run (w : World) :
  sync_isOnline (syncService w) = true ->
  syncStatus (syncService w) <> syncing ->
  performSync_begin w
  = (Ok tt, set_trace (fun t => t ++ [EvNotify syncing])
              (set_sync (set_syncStatus syncing) w)).
Proof.
  intros Honline Hstatus. unfold performSync_begin. unfold bind at 1, gets.
  rewrite Honline. cbv [negb]. cbv beta iota.
  assert ((match syncStatus (syncService w) with syncing => true | _ => false end)
          = false) as -> by (destruct (syncStatus (syncService w)); congruence).
  reflexivity.
Qed.

Lemma performSync_drain_keeps_syncService (userId : option string) :
  respects (keeps syncService) (performSync_drain userId).
Proof.
  unfold performSync_drain, processOfflineQueue, process_change, replay_change,
    update_change.
  respects_tac.
Qed.

Lemma performSync_failed_run (e : JsError) (w : World) :
  exists w', performSync_failed e w = (Throw e, w')
             /\ syncStatus (syncService w') = error.
Proof. eexists. split; reflexivity. Qed.

Lemma performSync_finish_run (s : string) (syncResult : SyncResult)
    (w w' : World) (r : SyncResult) :
  performSync_finish s syncResult w = (Ok r, w') ->
  syncStatus (syncService w')
  = match conflicts r with [] => idle | _ :: _ => conflict end
  /\ lastSyncTime (syncService w') = Some (sr_lastSyncTime r).
Proof.
  unfold performSync_finish. intros Hbody.
  unfold bind at 1 in Hbody.
  match type of Hbody with context [match ?m w with _ => _ end] =>
    destruct (m w) as [[[] | e] wa] eqn:Hstatus
  end; [| discriminate].
  assert (syncStatus (syncService wa)
          = match conflicts syncResult with [] => idle | _ :: _ => conflict end)
    as Hst.
  { destruct (conflicts syncResult);
      unfold bind, modify, notifyListeners, emit, modify in Hstatus;
      injection Hstatus as <-; reflexivity. }
  unfold bind at 1, gets in Hbody. unfold bind at 1, modify at 1 in Hbody.
  unfold bind at 1 in Hbody.
  match type of Hbody with context [saveSyncState s ?w6] =>
    destruct (saveSyncState s w6) as [[[] | e] w7] eqn:Hsave; [| discriminate];
    apply saveSyncState_keeps_syncService in Hsave; unfold keeps in Hsave
  end.
  unfold ret in Hbody. injection Hbody as <- <-. simpl. rewrite Hsave. simpl.
  split; [exact Hst | reflexivity].
Qed.

(** X17.  A sync request that passes the two guards sets the status to
    [syncing].  Whenever it settles, it leaves another status: when
    [performSync] resolves, the status is [conflict] if the result lists
    conflicts and [idle] if it lists none, and the last sync time is the
    one the result carries; when it throws, whatever the step that failed,
    the status is [error].  With a positive batch size it does settle.
    With a batch size of zero or below, which nothing in the service
    excludes, a request that gets as far as the reconciliation never
    settles: the batching loop does not end and the status stays
    [syncing]. *)
Theorem performSync_settles_status (userId : option string) (w : World) :
  sync_isOnline (syncService w) = true ->
  syncStatus (syncService w) <> syncing ->
  (forall fuel o w',
     performSync fuel userId w = Some (o, w') ->
     match o with
     | Ok r =>
         syncStatus (syncService w')
         = match conflicts r with [] => idle | _ :: _ => conflict end
         /\ lastSyncTime (syncService w') = Some (sr_lastSyncTime r)
     | Throw _ => syncStatus (syncService w') = error
     end)
  /\ ((0 < batchSize (syncSettings (syncService w)))%Z ->
      exists o w',
        forall fuel, (10 < fuel)%nat -> performSync fuel userId w = Some (o, w'))
  /\ ((batchSize (syncSettings (syncService w)) <= 0)%Z ->
      exists w0,
        performSync_begin w = (Ok tt, w0)
        /\ syncStatus (syncService w0) = syncing
        /\ forall s w1,
             performSync_drain userId w0 = (Ok s, w1) ->
             syncStatus (syncService w1) = syncing
             /\ forall fuel, performSync fuel userId w = None).
Proof.
  intros Honline Hstatus.
  pose proof (performSync_begin_run w Honline Hstatus) as Hbegin.
  set (w0 := set_trace (fun t => t ++ [EvNotify syncing])
               (set_sync (set_syncStatus syncing) w)) in *.
  split; [| split].
  - intros fuel o w'. unfold performSync. rewrite Hbegin.
    destruct (performSync_drain userId w0) as [[s | e] w1].
    + destruct (syncAllDataTypes fuel s w1) as [[[syncResult | e] w2] |];
        [| | discriminate].
      * unfold try_catch.
        destruct (performSync_finish s syncResult w2) as [[r | e] w3] eqn:Hfinish.
        -- intros H. injection H as <- <-.
           exact (performSync_finish_run _ _ _ _ _ Hfinish).
        -- destruct (performSync_failed_run e w3) as (w4 & -> & Herr).
           intros H. injection H as <- <-. exact Herr.
      * destruct (performSync_failed_run e w2) as (w4 & -> & Herr).
        intros H. injection H as <- <-. exact Herr.
    + destruct (performSync_failed_run e w1) as (w4 & -> & Herr).
      intros H. injection H as <- <-. exact Herr.
  - intros Hb. unfold performSync. rewrite Hbegin.
    destruct (performSync_drain userId w0) as [[s | e] w1] eqn:Hdrain.
    + pose proof (performSync_drain_keeps_syncService _ _ _ _ Hdrain) as Hkeep.
      unfold keeps in Hkeep.
      assert ((0 < batchSize (syncSettings (syncService w1)))%Z) as Hb1
        by (rewrite Hkeep; exact Hb).
      destruct (sync_each s empty_results
                  (if healthcareDataPriority (syncSettings (syncService w1))
                   then prioritizeHealthcareData tracked_dataTypes
                   else tracked_dataTypes) w1) as [[r | e] w2] eqn:Heach.
      * exists (fst (try_catch (performSync_finish s r) performSync_failed w2)),
               (snd (try_catch (performSync_finish s r) performSync_failed w2)).
        intros fuel Hfuel.
        rewrite (syncAllDataTypes_run s w1 fuel Hb1 Hfuel), Heach.
        now rewrite <- surjective_pairing.
      * exists (fst (performSync_failed e w2)), (snd (performSync_failed e w2)).
        intros fuel Hfuel.
        rewrite (syncAllDataTypes_run s w1 fuel Hb1 Hfuel), Heach.
        now rewrite <- surjective_pairing.
    + exists (fst (performSync_failed e w1)), (snd (performSync_failed e w1)).
      intros fuel _. now rewrite <- surjective_pairing.
  - intros Hb. exists w0. split; [exact Hbegin |]. split; [reflexivity |].
    intros s w1 Hdrain.
    pose proof (performSync_drain_keeps_syncService _ _ _ _ Hdrain) as Hkeep.
    unfold keeps in Hkeep. split; [now rewrite Hkeep |].
    intros fuel. unfold performSync. rewrite Hbegin, Hdrain.
    rewrite syncAllDataTypes_diverges; [reflexivity |].
    rewrite Hkeep. exact Hb.
Qed.

(* --------------------------------------------------------------------- *)
(** *** SyncService: manual resolution                                     *)
(* --------------------------------------------------------------------- *)

Lemma setData_keeps_syncService (key : string) (data : JSON) (userId : string) :
  respects (keeps syncService) (setData key data userId).
Proof. respects_tac. Qed.

Lemma storageService_set_keeps_syncService (key : string) (data : JSON) :
  respects (keeps syncService) (storageService_set key data).
Proof. respects_tac. Qed.

Lemma storageService_set_keeps_now (key : string) (data : JSON) :
  respects (keeps now) (storageService_set key data).
Proof. respects_tac. Qed.

(** X18.  Manual resolution of a conflict.  It throws only when no
    conflict is pending under the key, and then changes nothing.  When it
    resolves to [false] (no user, [merge] without a value, a failing
    write), the conflict is still pending and the status is as before.
    When it resolves to [true], the chosen value and the time of the call
    are in the Local Cache Store, the conflict is no longer pending, the
    other pending conflicts are kept, and the status becomes [idle]
    exactly when none is left. *)
Theorem resolveConflictManually_outcome (conflictKey : string)
    (resolution : ManualResolution) (mergedData : JSON) (w w' : World)
    (o : Outcome bool) :
  resolveConflictManually conflictKey resolution mergedData w = (o, w') ->
  match o with
  | Throw e =>
      Map_get conflictKey (pendingConflicts (syncService w)) = None
      /\ e = new_Error ("No pending conflict found for key: " +:+ conflictKey)
      /\ w' = w
  | Ok false =>
      (exists c, Map_get conflictKey (pendingConflicts (syncService w)) = Some c)
      /\ syncService w' = syncService w
  | Ok true =>
      exists c,
        Map_get conflictKey (pendingConflicts (syncService w)) = Some c
        /\ localStorage w' !! sc_key c = Some (chosen_data resolution mergedData c)
        /\ localStorage w' !! (sc_key c +:+ "_timestamp") = Some (JStr (now w))
        /\ pendingConflicts (syncService w')
           = Map_delete conflictKey (pendingConflicts (syncService w))
        /\ syncStatus (syncService w')
           = (if (List.length (Map_delete conflictKey
                                 (pendingConflicts (syncService w))) =? 0)%nat
              then idle else syncStatus (syncService w))
  end.
Proof.
  unfold resolveConflictManually. unfold bind at 1, gets.
  destruct (Map_get conflictKey (pendingConflicts (syncService w))) as [c |] eqn:Hget.
  2: { unfold throw. intros H. injection H as <- <-. auto. }
  unfold try_catch.
  match goal with |- context [bind getUser ?k w] =>
    destruct (bind getUser k w) as [[b | e] w1] eqn:Hbody
  end.
  - intros H. injection H as <- <-.
    unfold bind at 1, getUser in Hbody.
    destruct (auth_user w) as [[user_id |] | e]; try discriminate.
    unfold bind at 1, gets in Hbody. unfold bind at 1 in Hbody.
    assert (exists finalData,
              (match resolution with
               | use_local => ret (localData c)
               | use_remote => ret (remoteData c)
               | merge =>
                   if falsy mergedData
                   then throw (new_Error "Merged data required for merge resolution")
                   else ret mergedData
               end) w
              = ((if match resolution with merge => falsy mergedData | _ => false end
                  then Throw (new_Error "Merged data required for merge resolution")
                  else Ok finalData), w)
              /\ finalData = chosen_data resolution mergedData c)
      as (finalData & Hfinal & Hchosen).
    { exists (chosen_data resolution mergedData c).
      destruct resolution; simpl; try (split; reflexivity).
      destruct (falsy mergedData); split; reflexivity. }
    rewrite Hfinal in Hbody.
    destruct (match resolution with merge => falsy mergedData | _ => false end);
      [discriminate |].
    unfold bind at 1 in Hbody.
    destruct (setData (sc_key c) finalData user_id w) as [[[] | e] w2] eqn:Hset;
      [| discriminate].
    pose proof (setData_ok_local _ _ _ _ _ Hset) as Hlocal.
    pose proof (setData_keeps_syncService _ _ _ _ _ _ Hset) as Hsvc.
    unfold keeps in Hsvc.
    unfold bind at 1 in Hbody.
    destruct (storageService_set (sc_key c +:+ "_timestamp") (JStr (now w)) w2)
      as [[[] | e] w3] eqn:Hstamp; [| discriminate].
    pose proof (storageService_set_keeps_syncService _ _ _ _ _ Hstamp) as Hsvc3.
    unfold keeps in Hsvc3.
    apply storageService_set_result in Hstamp as [[_ Hl3] | (e & He & _)];
      [| discriminate].
    unfold bind at 1, modify at 1 in Hbody. unfold bind at 1, gets in Hbody.
    simpl in Hbody. rewrite Hsvc3, Hsvc in Hbody.
    destruct (List.length (Map_delete conflictKey (pendingConflicts (syncService w)))
              =? 0)%nat;
      unfold bind, modify, notifyListeners, emit, modify, ret in Hbody;
      injection Hbody as <- <-; exists c; simpl; rewrite Hl3;
      (split; [reflexivity |]);
      (split; [rewrite lookup_insert_ne
                 by (apply not_eq_sym, append_neq; discriminate);
               congruence |]);
      (split; [apply lookup_insert_eq |]);
      rewrite ?Hsvc3, ?Hsvc; auto.
  - intros H. injection H as <- <-. split; [now exists c |].
    unfold bind at 1, getUser in Hbody.
    destruct (auth_user w) as [[user_id |] | e0]; try (injection Hbody as _ <-; auto).
    unfold bind at 1, gets in Hbody. unfold bind at 1 in Hbody.
    destruct resolution; unfold ret at 1 in Hbody.
    1, 2: unfold bind at 1 in Hbody;
      destruct (setData (sc_key c) _ user_id w) as [[[] | e1] w2] eqn:Hset;
      pose proof (setData_keeps_syncService _ _ _ _ _ _ Hset) as Hsvc;
      unfold keeps in Hsvc;
      [| injection Hbody as _ <-; exact Hsvc];
      unfold bind at 1 in Hbody;
      destruct (storageService_set _ _ w2) as [[[] | e1] w3] eqn:Hstamp;
      pose proof (storageService_set_keeps_syncService _ _ _ _ _ Hstamp) as Hsvc3;
      unfold keeps in Hsvc3;
      [| injection Hbody as _ <-; congruence];
      exfalso; revert Hbody; unfold bind, modify, gets, notifyListeners, emit, modify, ret;
      simpl; destruct (_ =? _)%nat; discriminate.
    destruct (falsy mergedData).
    + injection Hbody as _ <-. reflexivity.
    + unfold ret at 1 in Hbody. unfold bind at 1 in Hbody.
      destruct (setData (sc_key c) _ user_id w) as [[[] | e1] w2] eqn:Hset;
      pose proof (setData_keeps_syncService _ _ _ _ _ _ Hset) as Hsvc;
      unfold keeps in Hsvc;
      [| injection Hbody as _ <-; exact Hsvc];
      unfold bind at 1 in Hbody;
      destruct (storageService_set _ _ w2) as [[[] | e1] w3] eqn:Hstamp;
      pose proof (storageService_set_keeps_syncService _ _ _ _ _ Hstamp) as Hsvc3;
      unfold keeps in Hsvc3;
      [| injection Hbody as _ <-; congruence];
      exfalso; revert Hbody; unfold bind, modify, gets, notifyListeners, emit, modify, ret;
      simpl; destruct (_ =? _)%nat; discriminate.
Qed.

(* --------------------------------------------------------------------- *)
(** *** SyncService: what a pass reports                                   *)
(* --------------------------------------------------------------------- *)

(** The conflict a pass hands back is the one [detectConflict] built from
    the two values it read. *)
Lemma syncDataType_conflict (dataType userId : string) (w w' : World)
    (c : SyncConflict) :
  syncDataType dataType userId w = (Ok (Some c), w') ->
  sc_key c = dataType
  /\ localData c = default JNull (localStorage w !! dataType)
  /\ is_null (localData c) = false
  /\ is_null (remoteData c) = false
  /\ JSON_stringify (localData c) <> JSON_stringify (remoteData c).
Proof.
  unfold syncDataType.
  unfold bind at 1, storageService_get at 1, gets.
  unfold bind at 1, storageService_get at 1, gets.
  unfold bind at 1.
  destruct (getRemoteData dataType userId w) as [[remote | e] w1]; [| discriminate].
  unfold bind at 1.
  destruct (getRemoteTimestamp dataType userId w1) as [[remoteTs | e] w2];
    [| discriminate].
  set (local := default JNull (localStorage w !! dataType)).
  destruct (is_null local) eqn:Hlocal.
  { unfold bind at 1.
    match goal with |- context [(if ?b then ?m else ret tt) w2] =>
      destruct ((if b then m else ret tt) w2) as [[[] | e] w3]
    end; discriminate. }
  destruct (is_null remote) eqn:Hremote.
  { unfold bind at 1.
    destruct (setData dataType local userId w2) as [[[] | e] w3]; [| discriminate].
    unfold bind at 1, gets. unfold bind at 1.
    destruct (storageService_set _ _ w3) as [[[] | e] w4]; discriminate. }
  unfold detectConflict.
  destruct (String.eqb (JSON_stringify local) (JSON_stringify remote)) eqn:Hsame;
    cbv [negb]; cbv beta iota.
  { unfold bind at 1.
    match goal with |- context [(if ?b then ?m1 else ?m2) w2] =>
      destruct ((if b then m1 else m2) w2) as [[[] | e] w3]
    end; discriminate. }
  apply String.eqb_neq in Hsame.
  unfold bind at 1, gets.
  destruct (conflictResolution (syncSettings (syncService w2))).
  3: { unfold ret. intros H. injection H as <- <-. simpl. auto. }
  all: unfold bind at 1;
    match goal with |- context [resolveConflict ?c0 ?u ?w0] =>
      destruct (resolveConflict c0 u w0) as [[[] | e] w3]
    end; try discriminate;
    unfold ret; intros H; injection H as <- <-; simpl; auto.
Qed.

(** X19.  A pass of one kind reports a conflict only for two values that
    are both present and serialise differently: the conflict it hands back
    carries the kind, the value the Local Cache Store held when the pass
    began and a remote value, neither of them [null], with different JSON
    texts.  A kind held on one side only, or equal on both, never comes
    back as a conflict. *)
Theorem syncDataType_conflict_sound (dataType userId : string) (w w' : World)
    (c : SyncConflict) :
  syncDataType dataType userId w = (Ok (Some c), w') ->
  sc_key c = dataType
  /\ sc_table c = SyncService_getTableName dataType
  /\ localData c = default JNull (localStorage w !! dataType)
  /\ is_null (localData c) = false
  /\ is_null (remoteData c) = false
  /\ JSON_stringify (localData c) <> JSON_stringify (remoteData c).
Proof.
  intros Hrun.
  destruct (syncDataType_conflict _ _ _ _ _ Hrun) as (Hkey & Hl & Hln & Hrn & Hne).
  split; [exact Hkey |]. split; [| auto].
  revert Hrun. unfold syncDataType.
  unfold bind at 1, storageService_get at 1, gets.
  unfold bind at 1, storageService_get at 1, gets.
  unfold bind at 1.
  destruct (getRemoteData dataType userId w) as [[remote | e] w1]; [| discriminate].
  unfold bind at 1.
  destruct (getRemoteTimestamp dataType userId w1) as [[remoteTs | e] w2];
    [| discriminate].
  destruct (is_null (default JNull (localStorage w !! dataType))).
  { unfold bind at 1.
    match goal with |- context [(if ?b then ?m else ret tt) w2] =>
      destruct ((if b then m else ret tt) w2) as [[[] | e] w3]
    end; discriminate. }
  destruct (is_null remote).
  { unfold bind at 1.
    destruct (setData dataType _ userId w2) as [[[] | e] w3]; [| discriminate].
    unfold bind at 1, gets. unfold bind at 1.
    destruct (storageService_set _ _ w3) as [[[] | e] w4]; discriminate. }
  unfold detectConflict.
  destruct (negb (String.eqb _ _)).
  2: { unfold bind at 1.
       match goal with |- context [(if ?b then ?m1 else ?m2) w2] =>
         destruct ((if b then m1 else m2) w2) as [[[] | e] w3]
       end; discriminate. }
  unfold bind at 1, gets.
  destruct (conflictResolution (syncSettings (syncService w2))).
  3: { unfold ret. intros H. injection H as <- <-. reflexivity. }
  all: unfold bind at 1;
    match goal with |- context [resolveConflict ?c0 ?u ?w0] =>
      destruct (resolveConflict c0 u w0) as [[[] | e] w3]
    end; try discriminate;
    unfold ret; intros H; injection H as <- <-; reflexivity.
Qed.

(** Every member of the list ends in exactly one of the three lists. *)
Lemma sync_each_accounts (userId : string) (l : list string) :
  forall results w,
    exists r w' s f c,
      sync_each userId results l w = (Ok r, w')
      /\ success r = success results ++ s
      /\ failed r = failed results ++ f
      /\ conflicts r = conflicts results ++ c
      /\ totalSynced r = (totalSynced results + List.length s)%nat
      /\ Permutation (s ++ List.map fst f ++ List.map sc_key c) l.
Proof.
  induction l as [| x l IH]; intros results w; simpl.
  - exists results, w, [], [], []. rewrite !app_nil_r. auto 10.
  - unfold bind at 1. unfold sync_one, try_catch, bind at 1.
    destruct (syncDataType x userId w) as [[[conflict0 |] | e] w1] eqn:Hrun;
      unfold ret at 1.
    + apply syncDataType_conflict in Hrun as (Hkey & _).
      match goal with |- context [sync_each userId ?r0 l w1] =>
        destruct (IH r0 w1) as (r & w' & s & f & c & Hr & Hs & Hf & Hc & Ht & Hp)
      end.
      exists r, w', s, f, (conflict0 :: c). simpl in *.
      split; [exact Hr |]. split; [exact Hs |]. split; [exact Hf |].
      split; [now rewrite Hc, <- app_assoc |]. split; [exact Ht |].
      rewrite Hkey, app_assoc.
      apply Permutation_sym, Permutation_cons_app, Permutation_sym.
      now rewrite <- app_assoc.
    + match goal with |- context [sync_each userId ?r0 l w1] =>
        destruct (IH r0 w1) as (r & w' & s & f & c & Hr & Hs & Hf & Hc & Ht & Hp)
      end.
      exists r, w', (x :: s), f, c. simpl in *.
      split; [exact Hr |]. split; [now rewrite Hs, <- app_assoc |].
      split; [exact Hf |]. split; [exact Hc |]. split; [lia |].
      now apply perm_skip.
    + match goal with |- context [sync_each userId ?r0 l w1] =>
        destruct (IH r0 w1) as (r & w' & s & f & c & Hr & Hs & Hf & Hc & Ht & Hp)
      end.
      exists r, w', s, ((x, if is_Error e then message e else "Unknown error") :: f), c.
      simpl in *.
      split; [exact Hr |]. split; [exact Hs |].
      split; [now rewrite Hf, <- app_assoc |]. split; [exact Hc |].
      split; [exact Ht |].
      apply Permutation_sym, Permutation_cons_app, Permutation_sym, Hp.
Qed.

(** X20.  With a positive batch size, whatever its value and the priority
    setting, the pass over all kinds ends, does not throw and accounts for
    every tracked kind exactly once: each of the ten kinds is reported as
    synced, as failed (with the message of what was thrown) or as the key
    of a conflict, and [totalSynced] is the number of kinds reported as
    synced.  With a batch size of zero or below the pass does not end. *)
Theorem syncAllDataTypes_accounts_for_every_kind (userId : string) (w : World) :
  ((0 < batchSize (syncSettings (syncService w)))%Z ->
   exists r w',
     (forall fuel, (10 < fuel)%nat ->
        syncAllDataTypes fuel userId w = Some (Ok r, w'))
     /\ totalSynced r = List.length (success r)
     /\ Permutation
          (success r ++ List.map fst (failed r) ++ List.map sc_key (conflicts r))
          tracked_dataTypes)
  /\ ((batchSize (syncSettings (syncService w)) <= 0)%Z ->
      forall fuel, syncAllDataTypes fuel userId w = None).
Proof.
  split; [| intros Hb fuel; now apply syncAllDataTypes_diverges].
  intros Hb.
  set (settings := syncSettings (syncService w)).
  set (prioritizedTypes :=
         if healthcareDataPriority settings
         then prioritizeHealthcareData tracked_dataTypes else tracked_dataTypes).
  assert (Permutation prioritizedTypes tracked_dataTypes) as Hperm.
  { unfold prioritizedTypes. destruct (healthcareDataPriority settings);
      [| reflexivity].
    apply prioritizeHealthcareData_Permutation.
    repeat constructor; simpl; prop_int; discriminate. }
  destruct (sync_each_accounts userId prioritizedTypes empty_results w)
    as (r & w' & s & f & c & Hr & Hs & Hf & Hc & Ht & Hp).
  exists r, w'. split.
  - intros fuel Hfuel. rewrite (syncAllDataTypes_run userId w fuel Hb Hfuel).
    fold settings. fold prioritizedTypes. now rewrite Hr.
  - simpl in Hs, Hf, Hc, Ht. rewrite Hs, Hf, Hc. split; [exact Ht |].
    now rewrite Hp.
Qed.

(* --------------------------------------------------------------------- *)
(** *** ErrorHandlingService: a strategy that succeeds                     *)
(* --------------------------------------------------------------------- *)

Lemma try_strategies_app (ref : nat) (error : JsError) (_context : option Context)
    (pre rest : list FallbackStrategy) :
  forall tried svc,
    try_strategies ref error _context (pre ++ rest) tried svc
    = match try_strategies ref error _context pre tried svc with
      | (Ok (t, None), svc') => try_strategies ref error _context rest t svc'
      | r => r
      end.
Proof.
  induction pre as [| strategy pre IH]; intros tried svc; simpl; [reflexivity |].
  unfold bind.
  match goal with |- context [try_catch ?m ?h svc] =>
    destruct (try_catch m h svc) as [[[result |] | e] svc1]
  end; try reflexivity.
  apply IH.
Qed.

(** X21.  The first strategy that succeeds settles the error.  The
    strategies of the category are taken in ascending order of priority,
    those of equal priority in the order of registration.  When the ones
    that come before [s] all throw and the handler of [s] resolves to [r],
    [handleError] resolves to [r]; the handlers called are those up to
    [s], in order, each in the state the one before left, and no strategy
    after [s] is called.  The record of the error is then marked resolved
    and is in the error log under its id (handlers and listeners leaving
    the error records themselves alone). *)
Theorem handleError_first_success (fallbackStrategies : list FallbackStrategy)
    (listeners : list Listener)
    (error : JsError) (cat : ErrorCategory) (sev : ErrorSeverity)
    (_context : option Context) (svc : ErrorHandlingService)
    (pre post : list FallbackStrategy) (s : FallbackStrategy) (r : JSON) :
  applicable_strategies fallbackStrategies cat = pre ++ s :: post ->
  (forall strategy svc0, In strategy pre ->
     exists e svc1, handler strategy error _context svc0 = (Throw e, svc1)) ->
  (forall svc0, exists svc1, handler s error _context svc0 = (Ok r, svc1)) ->
  (forall strategy, In strategy (pre ++ [s]) ->
     respects (keeps objects) (handler strategy error _context)) ->
  (forall callback ref,
     In callback listeners -> respects (keeps objects) (callback ref)) ->
  exists svc' ref info svc1 svc2 svc3 svc4 svc5,
    handleError_tried fallbackStrategies listeners error cat sev _context svc
    = (Ok (List.map name pre ++ [name s], Resolved r), svc')
    /\ handleError fallbackStrategies listeners error cat sev _context svc
       = (Ok (Resolved r), svc')
    /\ createErrorInfo error cat sev _context svc = (Ok ref, svc1)
    /\ logError ref svc1 = (Ok tt, svc2)
    /\ ErrorHandlingService_notifyListeners listeners ref svc2 = (Ok tt, svc3)
    /\ called_in_turn ref error _context pre svc3 svc4
    /\ handler s error _context svc4 = (Ok r, svc5)
    /\ (mark_resolved ref >> updateErrorInfo ref) svc5 = (Ok tt, svc')
    /\ (forall p,
          List.filter (fun st => (priority st =? p)%Z)
            (applicable_strategies fallbackStrategies cat)
          = List.filter (fun st => (priority st =? p)%Z)
              (List.filter (fun st => ErrorCategory_eqb (category st) cat)
                           fallbackStrategies))
    /\ deref ref svc' = Some info
    /\ ei_message info = message error
    /\ ei_resolved info = true
    /\ Map_get (ei_id info) (errorLog svc') = Some ref.
Proof.
  intros Happ Hfail Hsucc Hkeep Hquiet.
  destruct (createErrorInfo_run error cat sev _context svc)
    as (ref & svc1 & Hcreate & Htracks1).
  destruct (logError_run ref svc1) as (svc1' & Hlog & Hobjs1).
  destruct (notifyListeners_run listeners ref
              (fun callback Hin => Hquiet callback ref Hin) svc1')
    as (svc2 & Hnotify & Hobjs2).
  assert (tracks ref error cat sev svc2) as Htracks2.
  { destruct Htracks1 as (info & Hinfo & Hrest). exists info.
    unfold deref in *. now rewrite Hobjs2, Hobjs1. }
  destruct (try_strategies_all_fail ref error cat sev _context pre
              Hfail (fun st Hin => Hkeep st (in_or_app _ _ _ (or_introl Hin)))
              [] svc2 Htracks2)
    as (svc3 & Hpre & (info & Hinfo & Hsev & Hmsg & Hcat) & Hcalled).
  destruct (Hsucc svc3) as (svc4 & Hrun).
  assert (In s (pre ++ [s])) as Hs by (apply in_or_app; right; now left).
  pose proof (Hkeep s Hs _ _ _ Hrun) as Hobjs4. unfold keeps in Hobjs4.
  set (resolved :=
         {| ei_id := ei_id info; ei_message := ei_message info;
            ei_category := ei_category info; ei_severity := ei_severity info;
            ei_timestamp := ei_timestamp info; ei_userId := ei_userId info;
            ei_context := ei_context info; ei_resolved := true;
            ei_retryCount := ei_retryCount info;
            ei_maxRetries := ei_maxRetries info |}).
  assert (exists svc',
            (mark_resolved ref >> updateErrorInfo ref >> ret (Some r)) svc4
            = (Ok (Some r), svc')
            /\ deref ref svc' = Some resolved
            /\ Map_get (ei_id info) (errorLog svc') = Some ref)
    as (svc' & Hmark & Hderef & Hlogged).
  { unfold mark_resolved, mutate, updateErrorInfo, saveErrorLog.
    unfold bind at 1, modify at 1. unfold bind at 1. unfold bind at 1, gets.
    assert (deref ref (set_objects (alter
              (fun e => {| ei_id := ei_id e; ei_message := ei_message e;
                           ei_category := ei_category e;
                           ei_severity := ei_severity e;
                           ei_timestamp := ei_timestamp e;
                           ei_userId := ei_userId e; ei_context := ei_context e;
                           ei_resolved := true;
                           ei_retryCount := ei_retryCount e;
                           ei_maxRetries := ei_maxRetries e |}) ref) svc4)
            = Some resolved) as Hd.
    { unfold deref in *. simpl. rewrite list_lookup_alter_eq, Hobjs4, Hinfo.
      reflexivity. }
    rewrite Hd. unfold bind, modify, ret. eexists. split; [reflexivity |].
    simpl. split; [exact Hd |]. apply Map_get_set_eq. }
  exists svc', ref, resolved, svc1, svc1', svc2, svc3, svc4.
  assert (handleError_tried fallbackStrategies listeners error cat sev _context svc
          = (Ok (List.map name pre ++ [name s], Resolved r), svc')) as Htried.
  { unfold handleError_tried. unfold bind at 1. rewrite Hcreate.
    unfold bind at 1. rewrite Hlog. unfold bind at 1. rewrite Hnotify.
    unfold bind at 1. rewrite Happ, try_strategies_app, Hpre. simpl.
    unfold bind at 1, try_catch, bind at 1. rewrite Hrun.
    change ((mark_resolved ref >> updateErrorInfo ref >> ret (Some r)) svc4)
      with ((mark_resolved ref >> updateErrorInfo ref >> ret (Some r)) svc4).
    fold (bind (mark_resolved ref)
               (fun _ => updateErrorInfo ref >> ret (Some r)) svc4).
    rewrite Hmark. reflexivity. }
  split; [exact Htried |].
  split; [unfold handleError, bind; now rewrite Htried |].
  do 5 (split; [assumption |]).
  split.
  { revert Hmark. unfold bind.
    destruct (mark_resolved ref svc4) as [[[] | e] sa]; [| discriminate].
    destruct (updateErrorInfo ref sa) as [[[] | e] sb]; [| discriminate].
    unfold ret. intros H. now injection H as ->. }
  split; [intros p; apply sort_by_stable |].
  split; [exact Hderef |]. simpl. auto.
Qed.

(* --------------------------------------------------------------------- *)
(** *** ErrorHandlingService: the default strategies                       *)
(* --------------------------------------------------------------------- *)

Lemma notifyListeners_total (listeners : list Listener) (ref : nat)
    (svc : ErrorHandlingService) :
  exists svc', ErrorHandlingService_notifyListeners listeners ref svc = (Ok tt, svc').
Proof.
  unfold ErrorHandlingService_notifyListeners. revert svc.
  induction listeners as [| callback rest IH]; intros svc; simpl.
  - now exists svc.
  - unfold bind, try_catch.
    destruct (callback ref svc) as [[[] | e] svc1]; apply IH.
Qed.

Lemma logError_total (ref : nat) (svc : ErrorHandlingService) :
  exists svc', logError ref svc = (Ok tt, svc').
Proof. destruct (logError_run ref svc) as (svc' & H & _). now exists svc'. Qed.

(** The loop over the strategies never throws; it ends with a result as
    soon as one of them is a strategy whose handler always resolves. *)
Lemma try_strategies_total (ref : nat) (error : JsError)
    (_context : option Context) (strategies : list FallbackStrategy) :
  forall tried svc,
    exists t res svc',
      try_strategies ref error _context strategies tried svc = (Ok (t, res), svc')
      /\ ((exists s, In s strategies
                     /\ forall svc0, exists r svc1,
                          handler s error _context svc0 = (Ok r, svc1)) ->
          exists r, res = Some r).
Proof.
  induction strategies as [| strategy rest IH]; intros tried svc; simpl.
  - exists tried, None, svc. split; [reflexivity |]. intros (s & [] & _).
  - unfold bind at 1, try_catch, bind at 1.
    destruct (handler strategy error _context svc) as [[result | e] svc1] eqn:Hrun.
    + unfold mark_resolved, mutate, updateErrorInfo, saveErrorLog.
      unfold bind at 1, modify at 1. unfold bind at 1. unfold bind at 1, gets.
      match goal with |- context [match deref ref ?svc2 with _ => _ end] =>
        destruct (deref ref svc2)
      end; unfold bind, modify, ret;
        eexists _, _, _; (split; [reflexivity |]); intros _; now eexists.
    + assert (exists svc2,
                (let! info := gets (deref ref) in
                 (match info with
                  | Some errorInfo =>
                      if canRetry strategy
                         && (ei_retryCount errorInfo <? maxRetries strategy)%Z
                      then queueForRetry ref strategy
                      else ret tt
                  | None => ret tt
                  end) >> ret None) svc1 = (Ok (@None JSON), svc2))
        as (svc2 & Hcatch).
      { unfold bind at 1, gets. destruct (deref ref svc1) as [info |];
          [| now eexists].
        destruct (canRetry strategy && (ei_retryCount info <? maxRetries strategy)%Z);
          [| now eexists].
        unfold queueForRetry, mutate. unfold bind at 1. unfold bind at 1, modify at 1.
        unfold bind at 1, gets.
        match goal with |- context [match deref ref ?svc3 with _ => _ end] =>
          destruct (deref ref svc3)
        end; unfold bind, modify, ret; now eexists. }
      rewrite Hcatch.
      destruct (IH (tried ++ [name strategy]) svc2) as (t & res & svc' & Hrest & Hsome).
      exists t, res, svc'. split; [exact Hrest |].
      intros (s & [<- | Hin] & Hok).
      * destruct (Hok svc) as (r & svc3 & Hr). congruence.
      * apply Hsome. now exists s.
Qed.

(** X22.  With the strategies the service registers at start, an error of
    category network, authentication, encryption, storage or sync is
    never escalated: whatever the error, its severity (critical too), the
    context and the listeners, [handleError] resolves to the result of one
    of the category's strategies, the last of which cannot fail. *)
Theorem default_strategies_never_escalate (listeners : list Listener)
    (error : JsError) (cat : ErrorCategory) (sev : ErrorSeverity)
    (_context : option Context) (svc : ErrorHandlingService) :
  cat = network \/ cat = authentication \/ cat = encryption
  \/ cat = storage \/ cat = sync ->
  exists tried r svc',
    handleError_tried initializeFallbackStrategies listeners error cat sev
      _context svc = (Ok (tried, Resolved r), svc')
    /\ handleError initializeFallbackStrategies listeners error cat sev
         _context svc = (Ok (Resolved r), svc').
Proof.
  intros Hcat.
  destruct (createErrorInfo_run error cat sev _context svc)
    as (ref & svc1 & Hcreate & _).
  destruct (logError_total ref svc1) as (svc2 & Hlog).
  destruct (notifyListeners_total listeners ref svc2) as (svc3 & Hnotify).
  destruct (try_strategies_total ref error _context
              (applicable_strategies initializeFallbackStrategies cat) [] svc3)
    as (t & res & svc' & Hloop & Hsome).
  destruct Hsome as (r & ->).
  { unfold applicable_strategies.
    destruct Hcat as [-> | [-> | [-> | [-> | ->]]]];
      (eexists; split;
       [apply sort_by_In; simpl; right; left; reflexivity
       | intros svc0; simpl; now eexists _, _]). }
  assert (handleError_tried initializeFallbackStrategies listeners error cat sev
            _context svc = (Ok (t, Resolved r), svc')) as Htried.
  { unfold handleError_tried. unfold bind at 1. rewrite Hcreate.
    unfold bind at 1. rewrite Hlog. unfold bind at 1. rewrite Hnotify.
    unfold bind at 1. rewrite Hloop. reflexivity. }
  exists t, r, svc'. split; [exact Htried |].
  unfold handleError, bind. now rewrite Htried.
Qed.

(* --------------------------------------------------------------------- *)
(** *** ErrorHandlingService: what is kept of an error                     *)
(* --------------------------------------------------------------------- *)

Lemma substring_to_length (n : nat) (s : string) :
  (String.length (substring_to n s) <= n)%nat.
Proof.
  revert s. induction n as [| n IH]; intros s; simpl; [lia |].
  destruct s as [| c s]; simpl; [lia |]. specialize (IH s). lia.
Qed.

Lemma append_length (a b : string) :
  String.length (a +:+ b) = (String.length a + String.length b)%nat.
Proof.
  induction a as [| c a IH]; [reflexivity |].
  change (String.length (String c (a +:+ b)) = S (String.length a) + String.length b)%nat.
  simpl. now rewrite IH.
Qed.

(** X23.  What the service keeps of the context of an error.  The record
    [createErrorInfo] builds holds the sanitised context: the same keys in
    the same order; under every key whose name contains 'password',
    'token', 'secret' or 'key' (in any case) the text '[REDACTED]' in
    place of the value; no string of more than 1014 characters (a longer
    one is cut to 1000 and marked); every other value as it was. *)
Theorem createErrorInfo_sanitizes_context (error : JsError) (cat : ErrorCategory)
    (sev : ErrorSeverity) (c : Context) (svc : ErrorHandlingService) :
  exists ref svc1 info c',
    createErrorInfo error cat sev (Some c) svc = (Ok ref, svc1)
    /\ deref ref svc1 = Some info
    /\ ei_context info = Some c'
    /\ List.map fst (entries c') = List.map fst (entries c)
    /\ (forall k v, In (k, v) (entries c') ->
          (is_sensitive_key k = true -> v = JStr "[REDACTED]")
          /\ (forall s, v = JStr s -> (String.length s <= 1014)%nat)
          /\ (is_sensitive_key k = false ->
              In (k, v) (entries c)
              \/ exists s, In (k, JStr s) (entries c)
                           /\ (1000 < String.length s)%nat
                           /\ v = JStr (substring_to 1000 s +:+ "...[TRUNCATED]"))).
Proof.
  unfold createErrorInfo, bind, generateErrorId, gets, modify, ret.
  assert (List.map fst (List.map sanitize_entry (entries c))
          = List.map fst (entries c)) as Hkeys.
  { rewrite List.map_map. apply List.map_ext. intros [k v]. unfold sanitize_entry.
    destruct (is_sensitive_key k); [reflexivity |].
    destruct v; try reflexivity. now destruct (_ <? _)%nat. }
  assert (forall k v, In (k, v) (List.map sanitize_entry (entries c)) ->
            (is_sensitive_key k = true -> v = JStr "[REDACTED]")
            /\ (forall s, v = JStr s -> (String.length s <= 1014)%nat)
            /\ (is_sensitive_key k = false ->
                In (k, v) (entries c)
                \/ exists s, In (k, JStr s) (entries c)
                             /\ (1000 < String.length s)%nat
                             /\ v = JStr (substring_to 1000 s +:+ "...[TRUNCATED]")))
    as Hentries.
  { intros k v Hin. apply in_map_iff in Hin as ([k0 v0] & Heq & Hin).
    unfold sanitize_entry in Heq.
    destruct (is_sensitive_key k0) eqn:Hsens.
    - injection Heq as <- <-. rewrite Hsens.
      split; [reflexivity |]. split; [| discriminate].
      intros s H. injection H as <-. simpl. lia.
    - destruct v0;
        try (injection Heq as <- <-; rewrite Hsens;
             split; [discriminate |]; split; [discriminate | now left]).
      pose proof (substring_to_length 1000 s) as Hcut.
      set (cut := substring_to 1000 s) in *.
      destruct (1000 <? String.length s)%nat eqn:Hlong;
        injection Heq as <- <-; rewrite Hsens; (split; [discriminate |]).
      + apply Nat.ltb_lt in Hlong. split.
        * intros s' H. injection H as <-. rewrite append_length.
          change (String.length "...[TRUNCATED]") with 14%nat. lia.
        * intros _. right. now exists s.
      + apply Nat.ltb_ge in Hlong. split.
        * intros s' H. injection H as <-. lia.
        * now left. }
  destruct (next_error_ids svc) as [| i rest]; simpl;
    eexists _, _, _, _; (split; [reflexivity |]);
    (split; [unfold deref; simpl; apply list_lookup_middle; reflexivity |]);
    (split; [reflexivity |]); simpl; auto.
Qed.

Lemma fold_delete_In {V : Type} (es q : list (string * V)) (p : string * V) :
  In p (List.fold_left (fun q (e : string * V) => Map_delete (fst e) q) es q)
  <-> In p q /\ ~ In (fst p) (List.map fst es).
Proof.
  revert q. induction es as [| e es IH]; intros q; simpl; [prop |].
  rewrite IH, Map_delete_In. split.
  - intros [[Hp Hne] Hes]. split; [assumption |].
    intros [H | H]; [congruence | contradiction].
  - intros [Hp Hno]. split; [split; [assumption |] |]; intros H; apply Hno; auto.
Qed.

Lemma NoDup_keys_inj {V : Type} (m : list (string * V)) (k : string) (v v' : V) :
  List.NoDup (List.map fst m) -> In (k, v) m -> In (k, v') m -> v = v'.
Proof.
  induction m as [| [k0 v0] m IH]; simpl; intros Hnd H1 H2; [contradiction |].
  inversion Hnd as [| ? ? Hnotin Hnd']; subst.
  destruct H1 as [H1 | H1], H2 as [H2 | H2].
  - congruence.
  - injection H1 as -> ->. exfalso. apply Hnotin.
    change k with (fst (k, v')). now apply in_map.
  - injection H2 as -> ->. exfalso. apply Hnotin.
    change k with (fst (k, v)). now apply in_map.
  - now apply IH.
Qed.

(** X24.  The storage clean-up never throws and removes from the error
    log only errors that are both resolved and more than a week old: an
    entry whose error is unresolved, or not older than a week, is still in
    the log afterwards and nothing is added; the error records themselves
    are untouched.  Of the browser's storage keys it removes exactly those
    that start with 'cache_' or 'temp_'. *)
Theorem cleanupStorageSpace_keeps_open_errors (svc : ErrorHandlingService) :
  exists svc',
    cleanupStorageSpace svc = (Ok tt, svc')
    /\ objects svc' = objects svc
    /\ (forall p, In p (errorLog svc') -> In p (errorLog svc))
    /\ (List.NoDup (List.map fst (errorLog svc)) ->
        forall id ref info,
          In (id, ref) (errorLog svc) -> deref ref svc = Some info ->
          ei_resolved info = false
          \/ older_than_a_week (eh_now svc) (ei_timestamp info) = false ->
          In (id, ref) (errorLog svc'))
    /\ (forall key,
          In key (localStorage_keys svc')
          <-> In key (localStorage_keys svc)
              /\ String.prefix "cache_" key = false
              /\ String.prefix "temp_" key = false).
Proof.
  unfold cleanupStorageSpace, bind, modify.
  eexists. split; [reflexivity |]. simpl.
  split; [reflexivity |]. split; [| split].
  - intros p Hp. now apply fold_delete_In in Hp.
  - intros Hnd id ref info Hin Hderef Hopen.
    apply fold_delete_In. split; [assumption |]. simpl.
    intros Hold. apply in_map_iff in Hold as ([id' ref'] & Hid & Hold).
    simpl in Hid. subst id'. apply filter_In in Hold as [Hin' Hold].
    pose proof (NoDup_keys_inj _ _ _ _ Hnd Hin Hin') as <-.
    simpl in Hold. rewrite Hderef in Hold.
    apply andb_true_iff in Hold as [Ho Hr].
    destruct Hopen; congruence.
  - intros key. rewrite filter_In, negb_true_iff, orb_false_iff. reflexivity.
Qed.

Lemma Map_delete_NoDup {V : Type} (k : string) (m : list (string * V)) :
  List.NoDup (List.map fst m) -> List.NoDup (List.map fst (Map_delete k m)).
Proof.
  unfold Map_delete. induction m as [| [k0 v0] m IH]; simpl; intros Hnd;
    [constructor |].
  inversion Hnd as [| ? ? Hnotin Hnd']; subst.
  destruct (negb (String.eqb k0 k)); simpl; [| now apply IH].
  constructor; [| now apply IH].
  intros Hin. apply Hnotin. apply in_map_iff in Hin as (p & Hp & Hin).
  apply filter_In in Hin as [Hin _]. apply in_map_iff. now exists p.
Qed.

Lemma Map_delete_length {V : Type} (m : list (string * V)) (p : string * V) :
  In p m -> (List.length (Map_delete (fst p) m) < List.length m)%nat.
Proof.
  unfold Map_delete. induction m as [| q m IH]; simpl; [contradiction |].
  intros [-> | Hin].
  - rewrite String.eqb_refl. simpl.
    pose proof (List.filter_length_le
                  (fun q => negb (String.eqb (fst q) (fst p))) m). lia.
  - specialize (IH Hin). destruct (negb _); simpl; lia.
Qed.

Lemma Map_set_length_le {V : Type} (k : string) (v : V) (m : list (string * V)) :
  (List.length (Map_set k v m) <= S (List.length m))%nat.
Proof.
  unfold Map_set. destruct (Map_has k m).
  - rewrite List.length_map. lia.
  - rewrite List.length_app. simpl. lia.
Qed.

(** The two steps of [logError] after the error is in the log. *)
Lemma logError_steps (ref : nat) (svc : ErrorHandlingService) (info : ErrorInfo) :
  deref ref svc = Some info ->
  logError ref svc
  = (Ok tt, persist_log (rotate_log (set_errorLog (Map_set (ei_id info) ref) svc))).
Proof.
  intros Hderef. unfold logError. unfold bind at 1, gets. now rewrite Hderef.
Qed.

Lemma rotate_log_bounded (svc : ErrorHandlingService) :
  List.NoDup (List.map fst (errorLog svc)) ->
  (List.length (errorLog svc) <= S (maxLogSize svc))%nat ->
  maxLogSize (rotate_log svc) = maxLogSize svc
  /\ List.NoDup (List.map fst (errorLog (rotate_log svc)))
  /\ (List.length (errorLog (rotate_log svc)) <= maxLogSize svc)%nat
  /\ (forall p, In p (errorLog (rotate_log svc)) -> In p (errorLog svc)).
Proof.
  intros Hnd Hlen. unfold rotate_log.
  destruct (maxLogSize svc <? List.length (errorLog svc))%nat eqn:Hover.
  - apply Nat.ltb_lt in Hover.
    replace (List.length (errorLog svc) - maxLogSize svc)%nat with 1%nat by lia.
    pose proof (sort_by_Permutation (timestamp_of svc) (errorLog svc)) as Hperm.
    destruct (sort_by (timestamp_of svc) (errorLog svc)) as [| oldest rest].
    { apply Permutation_length in Hperm. simpl in Hperm. lia. }
    assert (In oldest (errorLog svc)) as Hold.
    { apply (Permutation_in oldest (Permutation_sym Hperm)). now left. }
    simpl. split; [reflexivity |].
    split; [now apply Map_delete_NoDup |].
    split; [pose proof (Map_delete_length _ _ Hold); lia |].
    intros p Hp. now apply Map_delete_In in Hp.
  - apply Nat.ltb_ge in Hover. auto.
Qed.

(** X25.  Logging keeps the error log within its bound.  When the log
    holds at most [maxLogSize] errors, each under an id of its own, it
    still does after [logError] has added (or replaced) the error: when
    the addition makes it one too long, the oldest entry is dropped.  The
    copy that is persisted holds at most 100 entries.  [logError] never
    throws. *)
Theorem logError_keeps_log_bounded (ref : nat) (svc : ErrorHandlingService)
    (info : ErrorInfo) :
  deref ref svc = Some info ->
  List.NoDup (List.map fst (errorLog svc)) ->
  (List.length (errorLog svc) <= maxLogSize svc)%nat ->
  exists svc',
    logError ref svc = (Ok tt, svc')
    /\ maxLogSize svc' = maxLogSize svc
    /\ List.NoDup (List.map fst (errorLog svc'))
    /\ (List.length (errorLog svc') <= maxLogSize svc')%nat
    /\ (forall p, In p (errorLog svc') ->
          In p (errorLog svc) \/ p = (ei_id info, ref))
    /\ (List.length (saved_error_log svc') <= 100)%nat.
Proof.
  intros Hderef Hnd Hlen.
  set (svc1 := set_errorLog (Map_set (ei_id info) ref) svc).
  assert (List.NoDup (List.map fst (errorLog svc1))) as Hnd1
    by now apply Map_set_NoDup.
  assert (List.length (errorLog svc1) <= S (maxLogSize svc1))%nat as Hlen1.
  { pose proof (Map_set_length_le (ei_id info) ref (errorLog svc)). simpl. lia. }
  assert (forall p, In p (errorLog svc1) ->
            In p (errorLog svc) \/ p = (ei_id info, ref)) as Hin1.
  { intros p. simpl. unfold Map_set. destruct (Map_has _ _).
    - rewrite in_map_iff. intros ([k v] & Hp & Hin). simpl in Hp.
      destruct (String.eqb k (ei_id info)); subst; auto.
    - rewrite in_app_iff. simpl. intros [H | [H | []]]; auto. }
  destruct (rotate_log_bounded svc1 Hnd1 Hlen1) as (Hmax & Hnd2 & Hlen2 & Hin2).
  exists (persist_log (rotate_log svc1)).
  split; [now apply logError_steps |].
  unfold persist_log. simpl.
  split; [exact Hmax |]. split; [exact Hnd2 |].
  split; [rewrite Hmax; exact Hlen2 |]. split; [auto |].
  rewrite List.length_skipn. lia.
Qed.

(* --------------------------------------------------------------------- *)
(** *** ErrorHandlingService: statistics                                   *)
(* --------------------------------------------------------------------- *)

Lemma ErrorCategory_eqb_eq (a b : ErrorCategory) :
  ErrorCategory_eqb a b = true <-> a = b.
Proof. destruct a, b; simpl; split; congruence. Qed.

Lemma count_category_spec (cat : ErrorCategory) (m : list (ErrorCategory * nat)) :
  (forall c, category_count c (count_category cat m)
             = if ErrorCategory_eqb cat c then S (category_count c m)
               else category_count c m)
  /\ list_sum (List.map snd (count_category cat m)) = S (list_sum (List.map snd m))
  /\ (List.NoDup (List.map fst m) ->
      List.NoDup (List.map fst (count_category cat m)))
  /\ (forall c, In c (List.map fst (count_category cat m))
                <-> c = cat \/ In c (List.map fst m)).
Proof.
  induction m as [| [c0 n0] m (IHc & IHs & IHn & IHk)]; simpl.
  - split; [| split; [reflexivity | split]].
    + intros c. destruct (ErrorCategory_eqb cat c); reflexivity.
    + intros _. repeat constructor. intros [].
    + intros c. prop_int.
  - destruct (ErrorCategory_eqb c0 cat) eqn:E; simpl.
    + apply ErrorCategory_eqb_eq in E. subst c0.
      split; [| split; [lia | split; [auto |]]].
      * intros c. destruct (ErrorCategory_eqb cat c); reflexivity.
      * intros c. prop_int.
    + split; [| split; [lia | split]].
      * intros c. rewrite IHc.
        destruct (ErrorCategory_eqb c0 c) eqn:E0; [| reflexivity].
        apply ErrorCategory_eqb_eq in E0. subst c0.
        destruct (ErrorCategory_eqb cat c) eqn:E1; [| reflexivity].
        apply ErrorCategory_eqb_eq in E1. subst c.
        rewrite (proj2 (ErrorCategory_eqb_eq cat cat) eq_refl) in E. discriminate.
      * intros Hnd. inversion Hnd as [| ? ? Hnotin Hnd']; subst.
        constructor; [| now apply IHn].
        rewrite IHk. intros [-> | H]; [| contradiction].
        rewrite (proj2 (ErrorCategory_eqb_eq cat cat) eq_refl) in E. discriminate.
      * intros c. rewrite IHk. prop.
Qed.

Lemma count_errors_spec (errors : list ErrorInfo) :
  forall stats,
    let stats' := List.fold_left count_error errors stats in
    st_total stats' = st_total stats
    /\ (st_resolved stats'
        = st_resolved stats + List.length (List.filter ei_resolved errors))%nat
    /\ (st_resolved stats' + st_unresolved stats'
        = st_resolved stats + st_unresolved stats + List.length errors)%nat
    /\ (severity_sum (st_bySeverity stats')
        = severity_sum (st_bySeverity stats) + List.length errors)%nat
    /\ (list_sum (List.map snd (st_byCategory stats'))
        = list_sum (List.map snd (st_byCategory stats)) + List.length errors)%nat
    /\ (List.NoDup (List.map fst (st_byCategory stats)) ->
        List.NoDup (List.map fst (st_byCategory stats')))
    /\ (forall c, category_count c (st_byCategory stats')
                  = category_count c (st_byCategory stats) + errors_of c errors)%nat.
Proof.
  induction errors as [| e errors IH]; intros stats; simpl.
  - unfold errors_of. simpl. repeat split; auto; lia.
  - specialize (IH (count_error stats e)). simpl in IH.
    destruct IH as (Ht & Hr & Hru & Hs & Hc & Hn & Hk).
    destruct (count_category_spec (ei_category e) (st_byCategory stats))
      as (Hcc & Hcs & Hcn & _).
    split; [exact Ht |]. split.
    { rewrite Hr. destruct (ei_resolved e); simpl; lia. }
    split.
    { rewrite Hru. destruct (ei_resolved e); lia. }
    split.
    { rewrite Hs. unfold severity_sum, count_severity.
      destruct (ei_severity e); simpl; lia. }
    split; [rewrite Hc, Hcs; lia |]. split; [auto |].
    intros c. rewrite Hk, Hcc. unfold errors_of. simpl.
    destruct (ErrorCategory_eqb (ei_category e) c); simpl; lia.
Qed.

(** X26.  The statistics add up.  [total] is the number of errors in the
    log; the resolved and the unresolved, the four counts by severity, and
    the counts by category each sum to it; the count under a category is
    the number of logged errors of that category, and a category appears
    once, and only when it has an error. *)
Theorem getErrorStatistics_adds_up (svc : ErrorHandlingService) :
  exists stats,
    getErrorStatistics svc = (Ok stats, svc)
    /\ st_total stats = List.length (logged_errors svc)
    /\ st_resolved stats = List.length (List.filter ei_resolved (logged_errors svc))
    /\ (st_resolved stats + st_unresolved stats = st_total stats)%nat
    /\ severity_sum (st_bySeverity stats) = st_total stats
    /\ list_sum (List.map snd (st_byCategory stats)) = st_total stats
    /\ List.NoDup (List.map fst (st_byCategory stats))
    /\ (forall c, category_count c (st_byCategory stats)
                  = errors_of c (logged_errors svc)).
Proof.
  unfold getErrorStatistics, gets. eexists. split; [reflexivity |].
  match goal with |- context [List.fold_left count_error ?errors ?stats0] =>
    destruct (count_errors_spec errors stats0) as (Ht & Hr & Hru & Hs & Hc & Hn & Hk)
  end.
  cbv zeta. simpl in *.
  split; [exact Ht |]. split; [exact Hr |]. split; [lia |].
  split; [rewrite Hs, Ht; reflexivity |]. split; [lia |].
  split; [apply Hn; constructor |]. exact Hk.
Qed.

(* --------------------------------------------------------------------- *)
(** *** ComplianceService: risk score and recommendations                  *)
(* --------------------------------------------------------------------- *)

Lemma score_fold (violations : list ComplianceViolation) :
  forall score0,
    List.fold_left (fun score violation =>
      match cv_severity violation with
      | critical => score + 25
      | high => score + 15
      | medium => score + 5
      | low => score + 1
      end)%Z violations score0
    = (score0 + total_weight violations)%Z.
Proof.
  induction violations as [| v violations IH]; intros score0; simpl.
  - lia.
  - rewrite IH. unfold weight. destruct (cv_severity v); lia.
Qed.

Lemma weight_positive (v : ComplianceViolation) : (0 < weight v)%Z.
Proof. unfold weight. destruct (cv_severity v); lia. Qed.

Lemma total_weight_nonneg (violations : list ComplianceViolation) :
  (0 <= total_weight violations)%Z.
Proof.
  induction violations as [| v violations IH]; simpl; [lia |].
  pose proof (weight_positive v). lia.
Qed.

Lemma total_weight_app (l1 l2 : list ComplianceViolation) :
  total_weight (l1 ++ l2) = (total_weight l1 + total_weight l2)%Z.
Proof. induction l1 as [| v l1 IH]; simpl; lia. Qed.

Lemma total_weight_Permutation (l1 l2 : list ComplianceViolation) :
  Permutation l1 l2 -> total_weight l1 = total_weight l2.
Proof. induction 1; simpl; lia. Qed.

(** X27.  The risk score is the sum of the weights of the violations (25,
    15, 5, 1 by severity) capped at 100.  It lies between 0 and 100, is 0
    exactly when there is no violation, does not depend on the order of
    the violations, and never goes down when violations are added. *)
Theorem calculateRiskScore_bounds (violations : list ComplianceViolation) :
  calculateRiskScore violations = Z.min 100 (total_weight violations)
  /\ (0 <= calculateRiskScore violations <= 100)%Z
  /\ (calculateRiskScore violations = 0%Z <-> violations = [])
  /\ (forall more,
        (calculateRiskScore violations
         <= calculateRiskScore (violations ++ more))%Z)
  /\ (forall reordered,
        Permutation violations reordered ->
        calculateRiskScore reordered = calculateRiskScore violations).
Proof.
  unfold calculateRiskScore. cbv zeta.
  assert (forall l, List.fold_left (fun score violation =>
      match cv_severity violation with
      | critical => score + 25
      | high => score + 15
      | medium => score + 5
      | low => score + 1
      end)%Z l 0%Z = total_weight l) as Hfold
    by (intros l; rewrite score_fold; lia).
  rewrite Hfold.
  pose proof (total_weight_nonneg violations) as Hnn.
  split; [reflexivity |]. split; [lia |]. split; [| split].
  - split.
    + destruct violations as [| v rest]; [reflexivity |]. simpl.
      pose proof (weight_positive v). pose proof (total_weight_nonneg rest). lia.
    + intros ->. reflexivity.
  - intros more. rewrite Hfold, total_weight_app.
    pose proof (total_weight_nonneg more). lia.
  - intros reordered Hperm. rewrite Hfold.
    now rewrite (total_weight_Permutation _ _ Hperm).
Qed.

Lemma Set_add_In (x y : string) (set : list string) :
  In y (Set_add x set) <-> y = x \/ In y set.
Proof.
  unfold Set_add. destruct (existsb (String.eqb x) set) eqn:E.
  - split; [auto |]. intros [-> | H]; [| exact H].
    apply existsb_exists in E. destruct E as (z & Hz & Heq).
    apply String.eqb_eq in Heq. now subst z.
  - rewrite in_app_iff. simpl. split.
    + intros [H | [<- | []]]; auto.
    + intros [-> | H]; auto.
Qed.

Lemma Set_add_NoDup (x : string) (set : list string) :
  List.NoDup set -> List.NoDup (Set_add x set).
Proof.
  intros Hnd. unfold Set_add. destruct (existsb (String.eqb x) set) eqn:E.
  - exact Hnd.
  - apply List.NoDup_app; [exact Hnd | repeat constructor; intros [] |].
    intros y Hy [<- | []].
    assert (existsb (String.eqb x) set = true) as Habs.
    { apply existsb_exists. exists x. split; [exact Hy | apply String.eqb_refl]. }
    congruence.
Qed.

Lemma add_steps_spec (steps : list string) :
  forall set,
    let set' := List.fold_left (fun recommendations step =>
                  Set_add step recommendations) steps set in
    (List.NoDup set -> List.NoDup set')
    /\ (forall y, In y set' <-> In y set \/ In y steps).
Proof.
  induction steps as [| step steps IH]; intros set; simpl.
  - split; [auto |]. intros y. prop.
  - destruct (IH (Set_add step set)) as [Hnd Hin]. split.
    + intros H. apply Hnd. now apply Set_add_NoDup.
    + intros y. rewrite Hin, Set_add_In.
      split; [intros [[-> | H] | H] | intros [H | [<- | H]]]; auto.
Qed.

Lemma add_violations_spec (violations : list ComplianceViolation) :
  forall set,
    let set' := List.fold_left (fun recommendations violation =>
                  List.fold_left (fun recommendations step =>
                    Set_add step recommendations)
                    (remediationSteps violation) recommendations)
                  violations set in
    (List.NoDup set -> List.NoDup set')
    /\ (forall y, In y set' <->
                  In y set
                  \/ exists v, In v violations /\ In y (remediationSteps v)).
Proof.
  induction violations as [| v violations IH]; intros set; simpl.
  - split; [auto |]. intros y. split; [auto |].
    intros [H | (v & [] & _)]. exact H.
  - destruct (add_steps_spec (remediationSteps v) set) as [Hnd1 Hin1].
    match goal with |- context [List.fold_left _ violations ?s] =>
      destruct (IH s) as [Hnd Hin]
    end.
    split.
    + intros H. apply Hnd, Hnd1, H.
    + intros y. rewrite Hin, Hin1. split.
      * intros [[H | H] | (v' & Hv' & Hy)]; eauto.
      * intros [H | (v' & [<- | Hv'] & Hy)]; eauto.
Qed.

(** X28.  The recommendations for a list of violations are, without
    repetition, the remediation steps of the violations and, when there is
    a violation, the three general recommendations; there is none exactly
    when there is no violation. *)
Theorem generateRecommendations_members (violations : list ComplianceViolation) :
  List.NoDup (generateRecommendations violations)
  /\ (forall step,
        In step (generateRecommendations violations) <->
        (exists v, In v violations /\ In step (remediationSteps v))
        \/ (violations <> [] /\ In step general_recommendations))
  /\ (generateRecommendations violations = [] <-> violations = []).
Proof.
  unfold generateRecommendations. cbv zeta.
  destruct (add_violations_spec violations []) as [Hnd Hin].
  cbv zeta in Hnd, Hin.
  specialize (Hnd (List.NoDup_nil _)).
  destruct violations as [| v0 rest].
  - simpl. split; [constructor |]. split; [| prop].
    intros step. split; [intros [] |].
    intros [(v & [] & _) | [H _]]. now contradiction H.
  - set (vs := v0 :: rest) in *.
    replace (0 <? List.length vs)%nat with true by reflexivity.
    split; [now repeat apply Set_add_NoDup |]. split.
    + intros step. rewrite !Set_add_In, Hin. unfold general_recommendations.
      simpl. split.
      * intros [-> | [-> | [-> | [[] | H]]]]; auto;
          right; (split; [discriminate | auto]).
      * intros [H | [_ [<- | [<- | [<- | []]]]]]; auto 6.
    + split; [| discriminate].
      intros Hempty.
      assert (In "Train staff on data protection requirements"
                 (@nil string)) as [].
      rewrite <- Hempty. apply Set_add_In. now left.
Qed.

End Kompass.


(* ===================================================================== *)
(** ** The properties at concrete inputs                                  *)
(* ===================================================================== *)

Ltac evaluate := vm_compute; reflexivity.
Ltac evaluate_each := repeat apply conj; evaluate.

(** C1, as stated, fails: online, with the owner signed in and nothing
    failing, the remote write is issued before the local write, which is
    the last event of the call. *)
Lemma setData_writes_remote_before_local :
  isOnline world_online = true
  /\ setData
       Sample.JSON_stringify Sample.JSON_parse Sample.btoa Sample.atob "goals"
       goals_A "u1" world_online
     = (Ok tt, snd (setData
                      Sample.JSON_stringify Sample.JSON_parse Sample.btoa
                      Sample.atob "goals" goals_A "u1" world_online))
  /\ trace (snd (setData
                   Sample.JSON_stringify Sample.JSON_parse Sample.btoa
                   Sample.atob "goals" goals_A "u1" world_online))
     = [ EvAudit "DATA_MODIFY" "user_goals" "u1";
         EvRemoteWrite "goals" goals_A "u1";
         EvSyncStatus "user_goals" "u1" "completed";
         EvLocalSet "goals" goals_A ].
Proof. evaluate_each. Qed.

Lemma setData_remote_attempt_first_witness :
  exists o1 w1,
    SupabaseStorageBackend_set
      Sample.JSON_stringify Sample.JSON_parse Sample.btoa Sample.atob "goals"
      goals_A "u1" world_online = (o1, w1)
    /\ emitted is_remote_event world_online w1
    /\ localStorage w1 = localStorage world_online
    /\ syncQueue w1 = syncQueue world_online.
Proof.
  destruct (setData_remote_attempt_first
              Sample.JSON_stringify Sample.JSON_parse Sample.btoa Sample.atob
              "goals" goals_A "u1" world_online)
    as [Hon _].
  destruct (Hon eq_refl) as (o1 & w1 & Hset & Hev & Hls & Hq & _).
  exists o1, w1. repeat split; assumption.
Defined.

Lemma getData_propagates_or_falls_back_witness :
  (exists e, getData
               Sample.JSON_parse Sample.atob Sample.Date_getTime "goals" None
               world_online = (Throw e, world_online)
             /\ is_critical_auth_error e = true)
  /\ getData
       Sample.JSON_parse Sample.atob Sample.Date_getTime "goals" (Some "u1")
       (with_session (Ok (Some "u2")) world_online)
     = (Throw session_mismatch, with_session (Ok (Some "u2")) world_online)
  /\ fst (getData
            Sample.JSON_parse Sample.atob Sample.Date_getTime "goals" (Some
            "u1") world_cached_remote_down) = Ok goals_A.
Proof.
  split; [| split].
  - apply (proj1 (getData_propagates_or_falls_back
                    Sample.JSON_parse Sample.atob Sample.Date_getTime "goals"
                    world_online)).
    reflexivity.
  - apply (proj1 (proj2 (getData_propagates_or_falls_back
                           Sample.JSON_parse Sample.atob Sample.Date_getTime
                           "goals"
                           (with_session (Ok (Some "u2")) world_online)))
             "u1" (Some "u2")); reflexivity.
  - destruct (proj2 (proj2 (getData_propagates_or_falls_back
                              Sample.JSON_parse Sample.atob Sample.Date_getTime
                              "goals"
                              world_cached_remote_down))
                "u1" postgrest_error
                (snd (SupabaseStorageBackend_get
                        Sample.JSON_parse Sample.atob Sample.Date_getTime
                        "goals" "u1"
                        world_cached_remote_down)))
      as [Hrun _]; [evaluate .. |].
    rewrite Hrun. evaluate.
Defined.



(** The Remote Record Store after the resolution of [conflict_A_B], all
    requests being accepted: a read of it yields the winner. *)
Example resolveConflict_remote_winner :
  fst (SupabaseStorageBackend_get
         Sample.JSON_parse Sample.atob Sample.Date_getTime "goals" "u1"
         (snd (resolveConflict
                 Sample.JSON_stringify Sample.JSON_parse Sample.btoa Sample.atob
                 Sample.Date_getTime conflict_A_B "u1" world_diverged)))
  = Ok goals_B.
Proof. evaluate. Qed.

Lemma detectConflict_classification_witness :
  exists c,
    detectConflict Sample.JSON_stringify Sample.Date_getTime
      "goals" goals_A goals_B t100 t140 = Some c
    /\ conflictType c = concurrent_edit.
Proof.
  destruct (detectConflict_classification Sample.JSON_stringify
              Sample.Date_getTime "goals" goals_A goals_B t100 t140
              100000 140000)
    as (c & Hc & _ & _ & _ & _ & _ & Hconcurrent & _);
    [vm_compute; discriminate | reflexivity | reflexivity |].
  exists c. split; [exact Hc |]. apply Hconcurrent. reflexivity.
Defined.





(** The drain of [world_queued].  The replay of [c1] hands the promise of
    [decrypt] to the coordinator's write: the backend refuses it, the
    local write is refused twice, and the error message is stored before
    [c2] is attempted. *)
Example drain_of_world_queued :
  trace (snd (processOfflineQueue
                Sample.JSON_stringify Sample.JSON_parse Sample.btoa Sample.atob
                "u1" world_queued))
  = [ EvReplay "c1";
      EvAudit "DATA_MODIFY" "user_goals" "u1";
      EvAudit "DATA_MODIFY_ERROR" "user_goals" "u1";
      EvSyncStatus "user_goals" "u1" "failed";
      EvLocalSet "goals" pending_promise;
      EvErrorMessage "c1" "QuotaExceededError";
      EvReplay "c2";
      EvLocalRemove "goals";
      EvAudit "DATA_DELETE" "user_goals" "u1";
      EvRemoteDelete "goals" "u1";
      EvSyncStatus "user_goals" "u1" "completed";
      EvMarkProcessed "c2" ]
  /\ List.map ss_error_message
       (sync_status (snd (processOfflineQueue
                            Sample.JSON_stringify Sample.JSON_parse Sample.btoa
                            Sample.atob "u1" world_queued)))
     = [Some "TypeError: goals.filter is not a function"; None].
Proof. evaluate_each. Qed.

Lemma getDataSafe_skillsList_witness :
  exists merged,
    getDataSafe
      Sample.JSON_parse Sample.atob Sample.Date_getTime "skillsList" (Some "u1")
      (JArr default_skills)
      world_offline_skills
    = (Ok (JArr merged), world_offline_skills)
    /\ List.NoDup merged
    /\ (forall x, In x merged <-> In x default_skills \/ In x [JStr "c"]).
Proof.
  destruct (getDataSafe_skillsList
              Sample.JSON_parse Sample.atob Sample.Date_getTime (Some "u1")
              world_offline_skills
              world_offline_skills default_skills [JStr "c"] eq_refl eq_refl)
    as [_ Hmerge].
  destruct Hmerge as (merged & extra & Hrun & _ & _ & _ & Hin & Hnd);
    [discriminate |].
  exists merged. repeat split; try assumption; apply Hin.
Defined.

(** The scenario of the specification: default [["a","b"]]; the read
    yields [[]], then [["c"]]. *)
Example getDataSafe_default_merge :
  fst (getDataSafe
         Sample.JSON_parse Sample.atob Sample.Date_getTime "skillsList" (Some
         "u1") (JArr default_skills)
         world_offline_no_skills)
  = Ok (JArr [JStr "a"; JStr "b"])
  /\ fst (getDataSafe
            Sample.JSON_parse Sample.atob Sample.Date_getTime "skillsList" (Some
            "u1") (JArr default_skills)
            world_offline_skills)
     = Ok (JArr [JStr "a"; JStr "b"; JStr "c"]).
Proof. evaluate_each. Qed.

Lemma handleError_escalates_witness :
  exists escalation svc',
    handleError Sample.Date_getTime tied_registry [throwing_listener]
      (new_Error "bad input") validation high None fresh_errorHandler
    = (Ok (Escalated escalation), svc')
    /\ escalation_severity escalation = high
    /\ called_in_turn 0 (new_Error "bad input") None
         (applicable_strategies tied_registry validation)
         (snd (ErrorHandlingService_notifyListeners [throwing_listener] 0
                 (snd (logError Sample.Date_getTime 0
                         (snd (createErrorInfo (new_Error "bad input")
                                 validation high None fresh_errorHandler))))))
         svc'
    /\ List.map name (applicable_strategies tied_registry validation)
       = ["sanitize_input"; "revalidate"; "ask_again"]
    /\ localStorage_keys svc'
       = ["tried_sanitize_input"; "tried_revalidate"; "tried_ask_again"].
Proof.
  destruct (handleError_escalates Sample.Date_getTime tied_registry
              [throwing_listener]
              (new_Error "bad input") validation high None fresh_errorHandler)
    as (tried & escalation & svc' & ref & svc1 & svc2 & svc3 & info & _ & Hrun
        & Hcreate & Hlog & Hnotify & Hcalled & _ & _ & _ & _ & _ & _ & _
        & Hsev & _).
  - intros strategy svc0 [<- | [<- | [<- | []]]] Hcat;
      eexists _, _; reflexivity.
  - intros strategy [<- | [<- | [<- | []]]] Hcat w o w' H;
      vm_compute in H; inversion H; reflexivity.
  - intros callback ref [<- | []] w o w' H. inversion H. reflexivity.
  - exists escalation, svc'. split; [exact Hrun |]. split; [exact Hsev |].
    vm_compute in Hcreate. injection Hcreate as <- <-.
    vm_compute in Hlog. injection Hlog as <-.
    vm_compute in Hnotify. injection Hnotify as <-.
    split; [exact Hcalled |]. split; [evaluate |].
    apply (f_equal snd) in Hrun. cbn [snd] in Hrun. rewrite <- Hrun. evaluate.
Defined.

(** C9, as stated, fails: both stores hold the same value, the local copy
    is stamped 100 s and the remote one 140 s; the pass rewrites the local
    timestamp. *)
Lemma syncDataType_rewrites_local_timestamp :
  localStorage world_same_value !! "goals" = Some goals_A
  /\ fst (getRemoteData
            Sample.JSON_parse Sample.atob Sample.Date_getTime "goals" "u1"
            world_same_value) = Ok goals_A
  /\ localStorage world_same_value !! "goals_timestamp" = Some (JStr t100)
  /\ fst (syncDataType
            Sample.JSON_stringify Sample.JSON_parse Sample.btoa Sample.atob
            Sample.Date_getTime "goals" "u1" world_same_value) = Ok None
  /\ localStorage (snd (syncDataType
                          Sample.JSON_stringify Sample.JSON_parse Sample.btoa
                          Sample.atob Sample.Date_getTime "goals" "u1"
                          world_same_value))
       !! "goals_timestamp"
     = Some (JStr t140).
Proof. evaluate_each. Qed.

Lemma syncDataType_equal_values_witness :
  exists w2,
    syncDataType
      Sample.JSON_stringify Sample.JSON_parse Sample.btoa Sample.atob
      Sample.Date_getTime "goals" "u1" world_in_sync = (Ok None, w2)
    /\ remote_records w2 = remote_records world_in_sync
    /\ sync_status w2 = sync_status world_in_sync
    /\ localStorage w2 !! "goals_timestamp" = Some (JStr t140).
Proof.
  pose (w1 := snd (getRemoteData
                     Sample.JSON_parse Sample.atob Sample.Date_getTime "goals"
                     "u1" world_in_sync)).
  pose (w2 := snd (getRemoteTimestamp "goals" "u1" w1)).
  destruct (syncDataType_equal_values
              Sample.JSON_stringify Sample.JSON_parse Sample.btoa Sample.atob
              Sample.Date_getTime
              "goals" "u1" world_in_sync w1 w2 goals_A goals_A t140)
    as (_ & Hsame & _); try evaluate.
  destruct (Hsame eq_refl) as (Hrun & Hr & Hs & Ht & _).
  exists w2. split; [exact Hrun |]. split; [exact Hr |]. split; [exact Hs |].
  etransitivity; [exact Ht | evaluate].
Defined.

(** C10, as stated, fails: [null] is a JSON value, and [encrypt] refuses
    it. *)
Lemma encrypt_null_throws :
  encrypt Sample.JSON_stringify Sample.btoa unauthenticated JNull "u1"
  = Throw (new_Error "Cannot encrypt null or undefined data").
Proof. evaluate. Qed.

Lemma fallback_roundtrip_witness :
  encrypt Sample.JSON_stringify Sample.btoa unauthenticated goals_A "u1"
  = Ok "fallback:W3siaWQiOiJnMSIsInRleHQiOiJBIiwidGl0bGUiOiIiLCJjb21wbGV0ZWQiOmZhbHNlfV0="
  /\ detectDataFormat Sample.JSON_parse "fallback:W3siaWQiOiJnMSIsInRleHQiOiJBIiwidGl0bGUiOiIiLCJjb21wbGV0ZWQiOmZhbHNlfV0="
     = fallback
  /\ decrypt Sample.JSON_parse Sample.atob unauthenticated
       "fallback:W3siaWQiOiJnMSIsInRleHQiOiJBIiwidGl0bGUiOiIiLCJjb21wbGV0ZWQiOmZhbHNlfV0=" "u1"
     = Ok goals_A.
Proof.
  apply (fallback_roundtrip Sample.JSON_stringify Sample.JSON_parse
           Sample.btoa Sample.atob unauthenticated unauthenticated goals_A "u1"
           "W3siaWQiOiJnMSIsInRleHQiOiJBIiwidGl0bGUiOiIiLCJjb21wbGV0ZWQiOmZhbHNlfV0=").
  - reflexivity.
  - discriminate.
  - reflexivity.
  - reflexivity.
  - reflexivity.
Defined.

(* --------------------------------------------------------------------- *)
(** *** Encryption, backend and coordinator                                *)
(* --------------------------------------------------------------------- *)

Lemma decrypt_throws_only_auth_errors_witness :
  decrypt Sample.JSON_parse Sample.atob unauthenticated
    "c29tZSBzZXJ2ZXIgY2lwaGVydGV4dCBvZiBzb21lIGxlbmd0aCB0aGF0IGlzIGxvbmc=" "u1"
  = Throw (new_Error "User must be authenticated for server-side decryption").
Proof.
  destruct (decrypt_throws_only_auth_errors Sample.JSON_parse Sample.atob
              unauthenticated
              "c29tZSBzZXJ2ZXIgY2lwaGVydGV4dCBvZiBzb21lIGxlbmd0aCB0aGF0IGlzIGxvbmc="
              "u1")
    as (_ & _ & _ & Hserver & _); [discriminate |].
  apply Hserver; [reflexivity | left; evaluate].
Defined.

(** A fallback text whose Base64 part does not decode: the failure of the
    decoding step is no identity error and ends in [{}]. *)
Example decrypt_falls_back :
  decrypt_try Sample.JSON_parse Sample.atob unauthenticated fallback
    "fallback:%%%" "u1"
  = Throw (new_Error "The string to be decoded is not correctly encoded.")
  /\ decrypt Sample.JSON_parse Sample.atob unauthenticated "fallback:%%%" "u1"
     = Ok createSafeFallback_object.
Proof. evaluate_each. Qed.

Lemma field_fallback_roundtrip_witness :
  encryptField Sample.btoa unauthenticated (JStr "Max Mustermann") "u1"
  = Ok "fallback:TWF4IE11c3Rlcm1hbm4="
  /\ decryptField Sample.JSON_parse Sample.atob unauthenticated
       (JStr "fallback:TWF4IE11c3Rlcm1hbm4=") "u1"
     = Ok "Max Mustermann".
Proof.
  destruct (field_fallback_roundtrip Sample.JSON_parse Sample.btoa Sample.atob
              unauthenticated unauthenticated "Max Mustermann" "u1"
              "TWF4IE11c3Rlcm1hbm4=")
    as (Henc & Hdec & _); [reflexivity | discriminate | evaluate | evaluate |].
  split; [exact Henc | exact Hdec].
Defined.

Lemma backend_rejects_foreign_session_witness :
  SupabaseStorageBackend_get
    Sample.JSON_parse Sample.atob Sample.Date_getTime "goals" "u1"
    world_foreign_session
  = (Throw session_mismatch, world_foreign_session)
  /\ SupabaseStorageBackend_set
       Sample.JSON_stringify Sample.JSON_parse Sample.btoa Sample.atob "goals"
       goals_A "u1" world_foreign_session
     = (Throw session_mismatch, world_foreign_session)
  /\ SupabaseStorageBackend_remove "goals" "u1" world_foreign_session
     = (Throw session_mismatch, world_foreign_session).
Proof.
  apply (backend_rejects_foreign_session
           Sample.JSON_stringify Sample.JSON_parse Sample.btoa Sample.atob
           Sample.Date_getTime "goals" goals_A "u1"
           world_foreign_session (Some "u2")); reflexivity.
Defined.

Lemma backend_write_survives_audit_failure_witness :
  exists w',
    SupabaseStorageBackend_set
      Sample.JSON_stringify Sample.JSON_parse Sample.btoa Sample.atob "points"
      (JNum 120) "u1"
      world_session_lookup_down
    = (Ok tt, w')
    /\ trace w'
       = trace world_session_lookup_down
         ++ [EvRemoteWrite "points" (JNum 120) "u1";
             EvSyncStatus "user_profiles" "u1" "completed"]
    /\ table "user_profiles" w'
       = upsert_row (now world_session_lookup_down) ["user_id"]
           (table "user_profiles" world_session_lookup_down)
           [("user_id", JStr "u1"); ("points", JNum 120);
            ("device_fingerprint", JStr "SERVER-SIDE-SUPABASE")].
Proof.
  destruct (backend_write_survives_audit_failure
              Sample.JSON_stringify Sample.JSON_parse Sample.btoa Sample.atob
              "points" (JNum 120) "u1"
              world_session_lookup_down network_error)
    as (_ & _ & Hpoints); [reflexivity | reflexivity |].
  apply Hpoints; reflexivity.
Defined.

(** What the backend stores and hands back.  Goals that were written are
    read back with the fields the read adds; a value that is no array is
    refused before any request; for the user name it is the promise of
    [encryptField] that is stored, and the read yields no name. *)
Example backend_round_trips :
  fst (SupabaseStorageBackend_get
         Sample.JSON_parse Sample.atob Sample.Date_getTime "goals" "u1"
         (snd (SupabaseStorageBackend_set
                 Sample.JSON_stringify Sample.JSON_parse Sample.btoa Sample.atob
                 "goals"
                 (JArr [JObj [("id", JStr "g1"); ("text", JStr "A")];
                        JObj [("text", JStr "no id")]])
                 "u1" world_online)))
  = Ok goals_A
  /\ fst (SupabaseStorageBackend_set
            Sample.JSON_stringify Sample.JSON_parse Sample.btoa Sample.atob
            "goals" (JObj []) "u1" world_online)
     = Throw (new_TypeError "goals.filter is not a function")
  /\ fst (SupabaseStorageBackend_set
            Sample.JSON_stringify Sample.JSON_parse Sample.btoa Sample.atob
            "username" (JStr "Max") "u1"
            world_online)
     = Ok tt
  /\ table "user_profiles"
       (snd (SupabaseStorageBackend_set
               Sample.JSON_stringify Sample.JSON_parse Sample.btoa Sample.atob
               "username" (JStr "Max") "u1"
               world_online))
     = [ [("is_deleted", JBool false);
          ("created_at", JStr "2025-01-14T00:00:00.000Z");
          ("user_id", JStr "u1"); ("encrypted_username", pending_promise);
          ("device_fingerprint", JStr "SERVER-SIDE-SUPABASE")] ].
Proof. evaluate_each. Qed.

Lemma setData_swallows_identity_violation_witness :
  exists w',
    setData
      Sample.JSON_stringify Sample.JSON_parse Sample.btoa Sample.atob "goals"
      goals_A "u1" world_foreign_session = (Ok tt, w')
    /\ remote_records w' = remote_records world_foreign_session
    /\ localStorage w' !! "goals" = Some goals_A.
Proof.
  destruct (setData_swallows_identity_violation
              Sample.JSON_stringify Sample.JSON_parse Sample.btoa Sample.atob
              "goals" goals_A "u1"
              world_foreign_session (Some "u2"))
    as (w' & Hrun & Hr & _ & Hl & _); [reflexivity .. |].
  exists w'. split; [exact Hrun |]. split; [exact Hr |].
  rewrite Hl. apply lookup_insert_eq.
Defined.

Lemma getData_read_through_witness :
  exists w2,
    getData
      Sample.JSON_parse Sample.atob Sample.Date_getTime "goals" (Some "u1")
      world_diverged = (Ok goals_B, w2)
    /\ localStorage w2 = <["goals" := goals_B]> (localStorage world_diverged).
Proof.
  destruct (getData_read_through
              Sample.JSON_parse Sample.atob Sample.Date_getTime "goals" "u1"
              world_diverged
              (snd (SupabaseStorageBackend_get
                      Sample.JSON_parse Sample.atob Sample.Date_getTime "goals"
                      "u1" world_diverged))
              goals_B)
    as (_ & Hfresh & _); [reflexivity | reflexivity | evaluate |].
  apply Hfresh; reflexivity.
Defined.

Lemma getDataSafe_outcome_witness :
  is_critical_auth_error session_mismatch = true
  /\ getDataSafe
       Sample.JSON_parse Sample.atob Sample.Date_getTime "goals" (Some "u1")
       (JArr []) world_foreign_session
     = (Throw session_mismatch, world_foreign_session).
Proof.
  destruct (getDataSafe_outcome
              Sample.JSON_parse Sample.atob Sample.Date_getTime "goals" (Some
              "u1") (JArr [])
              world_foreign_session
              (snd (getDataSafe
                      Sample.JSON_parse Sample.atob Sample.Date_getTime "goals"
                      (Some "u1") (JArr [])
                      world_foreign_session))
              (Throw session_mismatch))
    as (Hcritical & Hfailed & _); [evaluate |].
  split; [exact Hcritical |].
  transitivity (@Throw JSON session_mismatch,
                snd (getDataSafe
                       Sample.JSON_parse Sample.atob Sample.Date_getTime "goals"
                       (Some "u1") (JArr [])
                       world_foreign_session)); [evaluate |].
  rewrite (Hfailed session_mismatch world_foreign_session); evaluate.
Defined.

(* --------------------------------------------------------------------- *)
(** *** Synchronisation                                                    *)
(* --------------------------------------------------------------------- *)

Lemma performSync_settles_status_witness :
  exists o w',
    (forall fuel, (10 < fuel)%nat ->
       performSync
         Sample.JSON_stringify Sample.JSON_parse Sample.btoa Sample.atob
         Sample.Date_getTime fuel (Some "u1") world_diverged_manual = Some (o,
         w'))
    /\ syncStatus (syncService w') = conflict.
Proof.
  destruct (performSync_settles_status
              Sample.JSON_stringify Sample.JSON_parse Sample.btoa Sample.atob
              Sample.Date_getTime (Some "u1") world_diverged_manual
              eq_refl)
    as (Hsettle & Hends & _); [discriminate |].
  destruct (Hends eq_refl) as (o & w' & Hrun).
  exists o, w'. split; [exact Hrun |].
  assert ((10 < 11)%nat) as Hfuel by lia.
  specialize (Hsettle 11%nat o w' (Hrun 11%nat Hfuel)).
  pose proof (Hrun 11%nat Hfuel) as H11.
  vm_compute in H11. injection H11 as <- <-.
  exact (proj1 Hsettle).
Defined.

(** With a batch size of zero the reconciliation does not end: a sync that
    has passed the guards and drained the queue stays at [syncing]. *)
Example performSync_never_settles :
  performSync
    Sample.JSON_stringify Sample.JSON_parse Sample.btoa Sample.atob
    Sample.Date_getTime 1000 (Some "u1")
    (set_sync (fun svc =>
       {| syncSettings :=
            {| autoSync := true; syncInterval := 300000;
               conflictResolution := latest_timestamp; maxRetries_setting := 3;
               batchSize := 0; healthcareDataPriority := true |};
          syncStatus := syncStatus svc; lastSyncTime := lastSyncTime svc;
          sync_isOnline := sync_isOnline svc;
          pendingConflicts := pendingConflicts svc |}) world_online)
  = None.
Proof. evaluate. Qed.

Lemma resolveConflictManually_outcome_witness :
  exists c,
    Map_get "goals" (pendingConflicts (syncService world_conflict_pending)) = Some c
    /\ localStorage (snd (resolveConflictManually
                            Sample.JSON_stringify Sample.JSON_parse Sample.btoa
                            Sample.atob "goals" use_remote JNull
                            world_conflict_pending)) !! sc_key c
       = Some (remoteData c)
    /\ syncStatus (syncService (snd (resolveConflictManually
                                       Sample.JSON_stringify Sample.JSON_parse
                                       Sample.btoa Sample.atob "goals"
                                       use_remote JNull world_conflict_pending)))
       = idle.
Proof.
  destruct (resolveConflictManually_outcome
              Sample.JSON_stringify Sample.JSON_parse Sample.btoa Sample.atob
              "goals" use_remote JNull
              world_conflict_pending
              (snd (resolveConflictManually
                      Sample.JSON_stringify Sample.JSON_parse Sample.btoa
                      Sample.atob "goals" use_remote JNull
                      world_conflict_pending))
              (Ok true))
    as (c & Hc & Hl & _ & _ & Hs); [evaluate |].
  exists c. split; [exact Hc |]. split; [exact Hl |].
  etransitivity; [exact Hs | evaluate].
Defined.

Lemma syncDataType_conflict_sound_witness :
  Sample.JSON_stringify (localData conflict_A_B)
  <> Sample.JSON_stringify (remoteData conflict_A_B).
Proof.
  apply (syncDataType_conflict_sound
           Sample.JSON_stringify Sample.JSON_parse Sample.btoa Sample.atob
           Sample.Date_getTime
           "goals" "u1" world_diverged_manual
           (snd (syncDataType
                   Sample.JSON_stringify Sample.JSON_parse Sample.btoa
                   Sample.atob Sample.Date_getTime "goals" "u1"
                   world_diverged_manual))
           conflict_A_B).
  evaluate.
Defined.

Lemma syncAllDataTypes_accounts_for_every_kind_witness :
  exists r w',
    syncAllDataTypes
      Sample.JSON_stringify Sample.JSON_parse Sample.btoa Sample.atob
      Sample.Date_getTime 11 "u1" world_online = Some (Ok r, w')
    /\ totalSynced r = List.length (success r)
    /\ Permutation
         (success r ++ List.map fst (failed r) ++ List.map sc_key (conflicts r))
         tracked_dataTypes.
Proof.
  destruct (proj1 (syncAllDataTypes_accounts_for_every_kind
                     Sample.JSON_stringify Sample.JSON_parse Sample.btoa
                     Sample.atob Sample.Date_getTime "u1"
                     world_online) eq_refl)
    as (r & w' & Hrun & Htotal & Hall).
  exists r, w'. split; [apply Hrun; lia |]. split; assumption.
Defined.

(* --------------------------------------------------------------------- *)
(** *** Error handling                                                     *)
(* --------------------------------------------------------------------- *)

Lemma handleError_first_success_witness :
  exists svc' ref info,
    handleError_tried Sample.Date_getTime recovering_registry [throwing_listener]
      (new_Error "bad input") validation high None fresh_errorHandler
    = (Ok (["sanitize_input"; "revalidate"], Resolved (JObj [("valid", JBool true)])),
       svc')
    /\ deref ref svc' = Some info
    /\ ei_resolved info = true.
Proof.
  destruct (handleError_first_success Sample.Date_getTime recovering_registry
              [throwing_listener] (new_Error "bad input") validation high None
              fresh_errorHandler
              [ {| name := "sanitize_input"; category := validation;
                   canRetry := false; maxRetries := 0; priority := 1;
                   handler := fun _ _ => throw (new_Error "cannot sanitize") |} ]
              [ {| name := "use_defaults"; category := validation;
                   canRetry := false; maxRetries := 0; priority := 3;
                   handler := fun _ _ => ret (JObj [("defaults", JBool true)]) |} ]
              {| name := "revalidate"; category := validation; canRetry := true;
                 maxRetries := 1; priority := 2;
                 handler := fun _ _ => ret (JObj [("valid", JBool true)]) |}
              (JObj [("valid", JBool true)]))
    as (svc' & ref & info & svc1 & svc2 & svc3 & svc4 & svc5 & Hrun & _ & _ & _
        & _ & _ & _ & _ & _ & Hderef & _ & Hres & _).
  - reflexivity.
  - intros strategy svc0 [<- | []]. eexists _, _. reflexivity.
  - intros svc0. eexists. reflexivity.
  - intros strategy [<- | [<- | []]] w o w' H; inversion H; reflexivity.
  - intros callback ref [<- | []] w o w' H. inversion H. reflexivity.
  - exists svc', ref, info. split; [exact Hrun |]. split; assumption.
Defined.

Lemma default_strategies_never_escalate_witness :
  exists tried r svc',
    handleError_tried Sample.Date_getTime
      (initializeFallbackStrategies Sample.Date_getTime) [throwing_listener]
      (new_Error "Failed to fetch") network critical None fresh_errorHandler
    = (Ok (tried, Resolved r), svc').
Proof.
  destruct (default_strategies_never_escalate Sample.Date_getTime
              [throwing_listener] (new_Error "Failed to fetch") network critical
              None fresh_errorHandler (or_introl eq_refl))
    as (tried & r & svc' & Hrun & _).
  exists tried, r, svc'. exact Hrun.
Defined.

Lemma logError_keeps_log_bounded_witness :
  exists svc',
    logError Sample.Date_getTime 1 full_errorHandler = (Ok tt, svc')
    /\ (List.length (errorLog svc') <= 1)%nat
    /\ (forall p, In p (errorLog svc') ->
          In p (errorLog full_errorHandler) \/ p = (ei_id new_error, 1%nat)).
Proof.
  destruct (logError_keeps_log_bounded Sample.Date_getTime 1 full_errorHandler
              new_error)
    as (svc' & Hrun & Hmax & _ & Hlen & Hin & _).
  - reflexivity.
  - repeat constructor. intros [].
  - apply le_n.
  - exists svc'. split; [exact Hrun |]. split; [| exact Hin].
    rewrite Hmax in Hlen. exact Hlen.
Defined.
